(** * AzusaImp: a shallow embedding of the user-profile plugin

    The plugin keeps a JSON table of user records, formats a record for a
    prompt, computes an age from a birthday string, rewrites nickname
    placeholders in a text and offers three edit commands and a command
    that shows the record.  The newer variant (version 0.0.3) is embedded
    at top level; the three helper functions of the older variant
    (version 0.0.1) live in [Module Old], its record, prompt and hook in
    [Module Old_variant].

    Python values are embedded as follows: a [str] is the list of its code
    points, an [int] is a [Z], a [dict] with string keys is an association
    list in insertion order, and an exception is the [Raise] outcome of the
    result type [res].  Code that also writes files or the request runs in
    the monad [action], where what was written before an exception stays
    written.

    What the host supplies (the event, the request with the attributes
    it has, the answers of the platform API, the current date) is an input
    of the embedded functions.  Logging is
    left out.  Three things are assumed of the interpreter and the disk: a
    data file can be opened for writing and the disk takes what is
    written to it (a text that cannot be encoded is not written, see
    [json_dump]); the limit on the number of digits [int] and [str]
    convert is not reached; the value of a float matters only through the
    functions of [runtime]. *)

From Stdlib Require Import List ZArith NArith Bool Lia Ascii Decimal DecimalN.
From Stdlib Require String.
Import ListNotations String.StringSyntax.
Delimit Scope string_scope with string.

Local Open Scope Z_scope.

(** ** Strings *)

Definition char := N.
Definition str := list char.

(** UTF-8 decoding, used only to write the literals of the source. *)
Fixpoint utf8 (bs : list N) : str :=
  match bs with
  | [] => []
  | b :: r =>
    if (b <? 128)%N then b :: utf8 r
    else if (b <? 224)%N then
      match r with
      | c1 :: r1 => ((b mod 32) * 64 + c1 mod 64)%N :: utf8 r1
      | _ => []
      end
    else if (b <? 240)%N then
      match r with
      | c1 :: c2 :: r2 =>
        ((b mod 16) * 4096 + (c1 mod 64) * 64 + c2 mod 64)%N :: utf8 r2
      | _ => []
      end
    else
      match r with
      | c1 :: c2 :: c3 :: r3 =>
        ((b mod 8) * 262144 + (c1 mod 64) * 4096 + (c2 mod 64) * 64 + c3 mod 64)%N
          :: utf8 r3
      | _ => []
      end
  end.

Definition u (s : String.string) : str :=
  utf8 (map N_of_ascii (String.list_ascii_of_string s)).
Arguments u s%_string.

Fixpoint str_eqb (a b : str) : bool :=
  match a, b with
  | [], [] => true
  | x :: a', y :: b' => (x =? y)%N && str_eqb a' b'
  | _, _ => false
  end.

(** [sep.join(parts)] *)
Fixpoint join (sep : str) (parts : list str) : str :=
  match parts with
  | [] => []
  | [p] => p
  | p :: ps => p ++ sep ++ join sep ps
  end.

(** [s.split(sep)] for a one-character separator: every occurrence cuts. *)
Fixpoint split (sep : char) (s : str) : list str :=
  match s with
  | [] => [[]]
  | c :: r =>
    if (c =? sep)%N then [] :: split sep r
    else match split sep r with
         | p :: ps => (c :: p) :: ps
         | [] => [[c]]
         end
  end.

(** [s.startswith(p)], returning what follows the prefix. *)
Fixpoint strip_prefix (p s : str) : option str :=
  match p, s with
  | [], _ => Some s
  | x :: p', y :: s' => if (x =? y)%N then strip_prefix p' s' else None
  | _ :: _, [] => None
  end.

(** Decimal numerals. *)
Fixpoint chars_of_uint (d : Decimal.uint) : str :=
  match d with
  | Nil => []
  | D0 r => 48%N :: chars_of_uint r
  | D1 r => 49%N :: chars_of_uint r
  | D2 r => 50%N :: chars_of_uint r
  | D3 r => 51%N :: chars_of_uint r
  | D4 r => 52%N :: chars_of_uint r
  | D5 r => 53%N :: chars_of_uint r
  | D6 r => 54%N :: chars_of_uint r
  | D7 r => 55%N :: chars_of_uint r
  | D8 r => 56%N :: chars_of_uint r
  | D9 r => 57%N :: chars_of_uint r
  end.

Definition cons_digit (d : N) (r : Decimal.uint) : Decimal.uint :=
  match d with
  | 0%N => D0 r
  | 1%N => D1 r
  | 2%N => D2 r
  | 3%N => D3 r
  | 4%N => D4 r
  | 5%N => D5 r
  | 6%N => D6 r
  | 7%N => D7 r
  | 8%N => D8 r
  | _ => D9 r
  end.

Definition uint_of_digits (ds : list N) : Decimal.uint :=
  fold_right cons_digit Nil ds.

Definition N_of_digits (ds : list N) : N := N.of_uint (uint_of_digits ds).

Definition str_of_N (n : N) : str := chars_of_uint (N.to_uint n).

(** [str(z)] for an [int]. *)
Definition str_of_Z (z : Z) : str :=
  if z <? 0 then 45%N :: str_of_N (Z.abs_N z) else str_of_N (Z.to_N z).

(** ** Python objects and exceptions *)

(** The objects the plugin handles come out of JSON documents (the two
    data files and the answers of the platform API) or are built from
    strings and integers.  A float is kept as the numeral it was read
    from; only its printed forms and its truth value are used, and they
    are supplied by the runtime below. *)
#[warnings="-register-all"] Inductive value :=
| VNone
| VBool (b : bool)
| VInt (z : Z)
| VFloat (numeral : str)
| VStr (s : str)
| VList (xs : list value)
| VDict (kvs : list (str * value)).

Definition dict := list (str * value).

Inductive exn :=
| ValueError
| ValueErrorWith (message : str)   (* raise ValueError(message) *)
| TypeError
| KeyError
| AttributeError
| OSError
| UnicodeEncodeError
| ApiError.

Inductive res (A : Type) :=
| Ok (a : A)
| Raise (e : exn).
Arguments Ok {A} a.
Arguments Raise {A} e.

Definition bind {A B} (m : res A) (k : A -> res B) : res B :=
  match m with
  | Ok a => k a
  | Raise e => Raise e
  end.

(** [try: m  except Exception: h] *)
Definition try_except {A} (m : res A) (h : exn -> A) : A :=
  match m with
  | Ok a => a
  | Raise e => h e
  end.

Declare Scope py_scope.
Notation "x <- m ;; k" := (bind m (fun x => k))
  (at level 61, m at next level, right associativity) : py_scope.
Notation "m ;;; k" := (bind m (fun _ => k))
  (at level 61, right associativity) : py_scope.
Local Open Scope py_scope.

(** What the interpreter and its Unicode database contribute.  Only
    characters above the ASCII range consult the two tables. *)
Record runtime := {
  unicode_decimal : char -> option N;  (* decimal digit value, 0..9 *)
  unicode_space : char -> bool;        (* whitespace property *)
  str_repr : str -> str;               (* repr(s) for a str *)
  float_str : str -> str;              (* str(x) for the float read from a numeral *)
  float_json : str -> str;             (* its JSON text *)
  float_bool : str -> bool             (* bool(x) *)
}.

(** A small runtime for concrete runs: no digits or spaces beyond ASCII, a
    string shown between quotes, every float printed as 0.0. *)
Definition ascii_runtime : runtime := {|
  unicode_decimal := fun _ => None;
  unicode_space := fun _ => false;
  str_repr := fun s => 39%N :: s ++ [39%N];
  float_str := fun _ => u "0.0";
  float_json := fun _ => u "0.0";
  float_bool := fun _ => false
|}.

(** Dictionaries keep insertion order; assignment to a present key keeps
    its place. *)
Fixpoint dict_get {V} (k : str) (d : list (str * V)) : option V :=
  match d with
  | [] => None
  | (k', v) :: d' => if str_eqb k k' then Some v else dict_get k d'
  end.

Fixpoint dict_set {V} (k : str) (v : V) (d : list (str * V)) : list (str * V) :=
  match d with
  | [] => [(k, v)]
  | (k', v') :: d' =>
    if str_eqb k k' then (k', v) :: d' else (k', v') :: dict_set k v d'
  end.

Definition dict_mem {V} (k : str) (d : list (str * V)) : bool :=
  match dict_get k d with Some _ => true | None => false end.

Definition keys {V} (d : list (str * V)) : list str := map fst d.

(** [d.update(e)] *)
Definition dict_update {V} (d e : list (str * V)) : list (str * V) :=
  fold_left (fun acc kv => dict_set (fst kv) (snd kv) acc) e d.

(** ** Literals of the source *)

Definition unknown : str := u "未知".          (* the birthday and gender sentinel *)
Definition no_title : str := u "无".
Definition dash : char := 45%N.                (* '-' *)
Definition underscore : char := 95%N.          (* '_' *)

(** A calendar date as [datetime.now()] exposes it. *)
Record date := { year : Z; month : Z; day : Z }.

(** [(a1, a2) < (b1, b2)] on tuples of integers. *)
Definition tuple_ltb (a b : Z * Z) : bool :=
  (fst a <? fst b) || ((fst a =? fst b) && (snd a <? snd b)).

Section Builtins.

Variable rt : runtime.

(** ** Built-in operations *)

(** [bool(v)] *)
Definition truthy (v : value) : bool :=
  match v with
  | VNone => false
  | VBool b => b
  | VInt z => negb (z =? 0)
  | VFloat x => float_bool rt x
  | VStr s => match s with [] => false | _ => true end
  | VList xs => match xs with [] => false | _ => true end
  | VDict kvs => match kvs with [] => false | _ => true end
  end.

(** [repr(v)] *)
Fixpoint py_repr (v : value) : str :=
  match v with
  | VNone => u "None"
  | VBool true => u "True"
  | VBool false => u "False"
  | VInt z => str_of_Z z
  | VFloat x => float_str rt x
  | VStr s => str_repr rt s
  | VList xs => u "[" ++ join (u ", ") (map py_repr xs) ++ u "]"
  | VDict kvs =>
    u "{" ++ join (u ", ")
               (map (fun '(k, x) => str_repr rt k ++ u ": " ++ py_repr x) kvs)
      ++ u "}"
  end.

(** [str(v)], which is what an f-string field prints. *)
Definition py_str (v : value) : str :=
  match v with
  | VStr s => s
  | _ => py_repr v
  end.

(** [v == s] for a string literal [s] *)
Definition eq_str (v : value) (s : str) : bool :=
  match v with
  | VStr t => str_eqb t s
  | _ => false
  end.

(** [p in s] on strings *)
Fixpoint is_infix (p s : str) : bool :=
  match strip_prefix p s with
  | Some _ => true
  | None => match s with [] => false | _ :: s' => is_infix p s' end
  end.

(** [k in o] *)
Definition py_contains (k : str) (o : value) : res bool :=
  match o with
  | VDict d => Ok (dict_mem k d)
  | VList xs => Ok (existsb (fun x => eq_str x k) xs)
  | VStr s => Ok (is_infix k s)
  | _ => Raise TypeError
  end.

(** [o[k]] for a string [k] *)
Definition py_getitem (o : value) (k : str) : res value :=
  match o with
  | VDict d => match dict_get k d with Some v => Ok v | None => Raise KeyError end
  | _ => Raise TypeError
  end.

(** [o[k] = v] for a string [k] *)
Definition py_setitem (o : value) (k : str) (v : value) : res value :=
  match o with
  | VDict d => Ok (VDict (dict_set k v d))
  | _ => Raise TypeError
  end.

(** [o.get(k, default)] *)
Definition py_get (o : value) (k : str) (default : value) : res value :=
  match o with
  | VDict d => Ok (match dict_get k d with Some v => v | None => default end)
  | _ => Raise AttributeError
  end.

(** [o.split(sep)] *)
Definition py_split (o : value) (sep : char) : res (list str) :=
  match o with
  | VStr s => Ok (split sep s)
  | _ => Raise AttributeError
  end.

(** Unhashable objects cannot be looked up in a dict. *)
Definition hashable (v : value) : bool :=
  match v with
  | VList _ | VDict _ => false
  | _ => true
  end.

(** [m.get(key, default)] on a literal map with string keys *)
Definition map_get (m : list (str * str)) (key : value) (default : str) : res str :=
  if hashable key then
    Ok (match key with
        | VStr s => match dict_get s m with Some t => t | None => default end
        | _ => default
        end)
  else Raise TypeError.

(** *** [int(s)] on a string

    Leading and trailing whitespace is dropped, one sign is allowed, then
    come decimal digits, single underscores allowed between digits. *)

Definition is_space (c : char) : bool :=
  if (c <? 128)%N then ((9 <=? c)%N && (c <=? 13)%N) || (c =? 32)%N
  else unicode_space rt c.

Definition digit_value (c : char) : option N :=
  if (c <? 128)%N then
    if ((48 <=? c)%N && (c <=? 57)%N) then Some (c - 48)%N else None
  else if unicode_space rt c then None
  else unicode_decimal rt c.

Fixpoint drop_space (s : str) : str :=
  match s with
  | c :: r => if is_space c then drop_space r else s
  | [] => []
  end.

Inductive scan_state := AtStart | AfterDigit | AfterUnderscore.

(** The digits of the numeral and what follows it. *)
Fixpoint scan_digits (prev : scan_state) (s : str) : option (list N * str) :=
  let stop := match prev with AfterDigit => Some ([], s) | _ => None end in
  match s with
  | [] => stop
  | c :: r =>
    match digit_value c with
    | Some d =>
      match scan_digits AfterDigit r with
      | Some (ds, rest) => Some (d :: ds, rest)
      | None => None
      end
    | None =>
      if (c =? underscore)%N then
        match prev with
        | AfterDigit => scan_digits AfterUnderscore r
        | _ => None
        end
      else stop
    end
  end.

Definition py_int (s : str) : res Z :=
  let s1 := drop_space s in
  let '(negative, s2) :=
    match s1 with
    | c :: r => if (c =? 43)%N then (false, r)
                else if (c =? dash)%N then (true, r)
                else (false, s1)
    | [] => (false, s1)
    end in
  match scan_digits AtStart s2 with
  | Some (ds, rest) =>
    match drop_space rest with
    | [] => let n := Z.of_N (N_of_digits ds) in
            Ok (if negative then - n else n)
    | _ => Raise ValueError
    end
  | None => Raise ValueError
  end.

End Builtins.

(** ** The older variant (main.py, version 0.0.1): shared helpers

    The three helpers the two variants share.  The [update_nickname] of
    main.py has a mis-indented [if] (line 210) and is not embedded. *)

Module Old.
Section Helpers.

Variable rt : runtime.

(** [parse_birthday(stranger_info)] *)
Definition parse_birthday (stranger_info : value) : res str :=
  y <- py_get stranger_info (u "birthday_year") VNone ;;
  m <- (if truthy rt y then py_get stranger_info (u "birthday_month") VNone else Ok y) ;;
  d <- (if truthy rt m then py_get stranger_info (u "birthday_day") VNone else Ok m) ;;
  if truthy rt d then
    by_ <- py_getitem stranger_info (u "birthday_year") ;;
    bm <- py_getitem stranger_info (u "birthday_month") ;;
    bd <- py_getitem stranger_info (u "birthday_day") ;;
    Ok (py_str rt by_ ++ u "-" ++ py_str rt bm ++ u "-" ++ py_str rt bd)
  else Ok unknown.

(** [calculate_age(birthday)], with [today] standing for [datetime.now()] *)
Definition calculate_age (today : date) (birthday : value) : Z :=
  if eq_str birthday unknown then 0
  else
    try_except
      (parts <- py_split birthday dash ;;
       match parts with
       | [p0; p1; p2] =>
         y <- py_int rt p0 ;;
         m <- py_int rt p1 ;;
         d <- py_int rt p2 ;;
         let age := year today - y in
         Ok (if tuple_ltb (month today, day today) (m, d) then age - 1 else age)
       | _ => Ok 0
       end)
      (fun _ => 0).

Definition gender_map : list (str * str) :=
  [(u "male", u "男"); (u "female", u "女"); (u "unknown", u "未知")].

(** [get_gender_text(gender)] *)
Definition get_gender_text (gender : value) : res str :=
  map_get gender_map gender (u "未知").

End Helpers.
End Old.

(** ** The newer variant (version 0.0.3): helpers *)

Section Helpers.

Variable rt : runtime.

Definition role_map : list (str * str) :=
  [(u "owner", u "群主"); (u "admin", u "管理员"); (u "member", u "成员")].

(** [get_group_role_text(role)] *)
Definition get_group_role_text (role : value) : res str :=
  map_get role_map role (u "成员").

(** [parse_birthday(stranger_info)]: the three fields joined by '-' when all
    of them are present and truthy, the sentinel otherwise. *)
Definition parse_birthday (stranger_info : value) : res str :=
  y <- py_get stranger_info (u "birthday_year") VNone ;;
  m <- (if truthy rt y then py_get stranger_info (u "birthday_month") VNone else Ok y) ;;
  d <- (if truthy rt m then py_get stranger_info (u "birthday_day") VNone else Ok m) ;;
  if truthy rt d then
    by_ <- py_getitem stranger_info (u "birthday_year") ;;
    bm <- py_getitem stranger_info (u "birthday_month") ;;
    bd <- py_getitem stranger_info (u "birthday_day") ;;
    Ok (py_str rt by_ ++ u "-" ++ py_str rt bm ++ u "-" ++ py_str rt bd)
  else Ok unknown.

(** [calculate_age(birthday)], with [today] standing for [datetime.now()].
    Whatever is raised inside the [try] block yields 0. *)
Definition calculate_age (today : date) (birthday : value) : Z :=
  if eq_str birthday unknown then 0
  else
    try_except
      (parts <- py_split birthday dash ;;
       match parts with
       | [p0; p1; p2] =>
         y <- py_int rt p0 ;;
         m <- py_int rt p1 ;;
         d <- py_int rt p2 ;;
         let age := year today - y in
         Ok (if tuple_ltb (month today, day today) (m, d) then age - 1 else age)
       | _ => Ok 0
       end)
      (fun _ => 0).

Definition gender_map : list (str * str) :=
  [(u "male", u "男"); (u "female", u "女"); (u "unknown", u "未知")].

(** [get_gender_text(gender)] *)
Definition get_gender_text (gender : value) : res str :=
  map_get gender_map gender (u "未知").

(** The labels of the prompt parts. *)
Definition age_label : str := u "年龄: ".

(** The age part of the prompt: present only for a birthday other than the
    sentinel whose age is positive. *)
Definition age_part (today : date) (birthday : value) : list str :=
  if negb (eq_str birthday unknown) then
    let age := calculate_age today birthday in
    if 0 <? age then [age_label ++ str_of_Z age ++ u "岁"] else []
  else [].

(** The group parts of the prompt. *)
Definition group_parts (user_info : value) : res (list str) :=
  group_role <- py_get user_info (u "group_role") VNone ;;
  role_part <- (if truthy rt group_role then
                  t <- get_group_role_text group_role ;;
                  Ok [u "群身份: " ++ t]
                else Ok []) ;;
  group_title <- py_get user_info (u "group_title") (VStr []) ;;
  Ok (role_part ++
      (if truthy rt group_title && negb (eq_str group_title no_title)
       then [u "群头衔: " ++ py_str rt group_title] else [])).

(** The list [prompt_parts] that [format_user_info_for_prompt] builds. *)
Definition prompt_parts (today : date) (user_info : value) (is_group : bool)
  : res (list str) :=
  qq <- py_get user_info (u "qq_number") (VStr unknown) ;;
  nick <- py_get user_info (u "nickname") (VStr unknown) ;;
  gender <- py_get user_info (u "gender") VNone ;;
  let gender_part :=
    if negb (eq_str gender unknown) then [u "性别: " ++ py_str rt gender] else [] in
  birthday <- py_get user_info (u "birthday") (VStr unknown) ;;
  group <- (if is_group then group_parts user_info else Ok []) ;;
  Ok ([u "用户QQ号: " ++ py_str rt qq; u "昵称: " ++ py_str rt nick]
        ++ gender_part
        ++ [u "生日: " ++ py_str rt birthday]
        ++ age_part today birthday
        ++ group).

(** [format_user_info_for_prompt(user_info, is_group)] *)
Definition format_user_info_for_prompt (today : date) (user_info : value)
    (is_group : bool) : res str :=
  parts <- prompt_parts today user_info is_group ;;
  Ok (join (u "，") parts).

End Helpers.

(** ** Regular expressions and nickname placeholders *)

Section Placeholders.

Variable rt : runtime.

(** The fragment of [re] the plugin uses: literal text and capturing
    groups [(c+)] over a character class, matched greedily with
    backtracking. *)
Inductive class :=
| Digit                 (* \d *)
| Except (c : char).    (* [^c] *)

Inductive item :=
| Lit (s : str)
| Group (a : class).

(** [\d] on a [str] pattern accepts every Unicode decimal digit. *)
Definition is_decimal (c : char) : bool :=
  if (c <? 128)%N then (48 <=? c)%N && (c <=? 57)%N
  else match unicode_decimal rt c with Some _ => true | None => false end.

Definition class_match (a : class) (c : char) : bool :=
  match a with
  | Digit => is_decimal c
  | Except x => negb (c =? x)%N
  end.

(** [a+] followed by the continuation [k]: the longest run is tried first,
    shorter ones on failure. *)
Fixpoint plus {R} (a : class) (k : str -> str -> option R) (s : str) : option R :=
  match s with
  | c :: r =>
    if class_match a c then
      match plus a (fun cap rest => k (c :: cap) rest) r with
      | Some x => Some x
      | None => k [c] r
      end
    else None
  | [] => None
  end.

(** Matching at the start of [s]: the captured groups and the text after the
    match. *)
Fixpoint match_items (p : list item) (s : str) : option (list str * str) :=
  match p with
  | [] => Some ([], s)
  | Lit l :: p' =>
    match strip_prefix l s with
    | Some r => match_items p' r
    | None => None
    end
  | Group a :: p' =>
    plus a (fun cap rest =>
              match match_items p' rest with
              | Some (caps, r) => Some (cap :: caps, r)
              | None => None
              end) s
  end.

(** [re.sub(p, repl, s)] with a callable [repl], which receives the matched
    text and the groups.  Matches are searched from left to right and do not
    overlap; an exception of [repl] ends the substitution. *)
Fixpoint sub_loop (fuel : nat) (p : list item)
    (repl : str -> list str -> res str) (s : str) : res str :=
  match fuel with
  | O => Ok s
  | S fuel' =>
    match match_items p s with
    | Some (caps, rest) =>
      let n := (List.length s - List.length rest)%nat in
      r <- repl (firstn n s) caps ;;
      match n, s with
      | O, c :: s' => out <- sub_loop fuel' p repl s' ;; Ok (r ++ c :: out)
      | O, [] => Ok r
      | _, _ => out <- sub_loop fuel' p repl rest ;; Ok (r ++ out)
      end
    | None =>
      match s with
      | [] => Ok []
      | c :: s' => out <- sub_loop fuel' p repl s' ;; Ok (c :: out)
      end
    end
  end.

Definition re_sub (p : list item) (repl : str -> list str -> res str) (s : str)
  : res str :=
  sub_loop (S (List.length s)) p repl s.

(** [r'\[User ID: (\d+), Nickname: ([^\]]+)\]'] *)
Definition placeholder_pattern : list item :=
  [Lit (u "[User ID: "); Group Digit; Lit (u ", Nickname: ");
   Group (Except 93%N); Lit (u "]")].

(** The text of a placeholder. *)
Definition placeholder (qq_number nickname : str) : str :=
  u "[User ID: " ++ qq_number ++ u ", Nickname: " ++ nickname ++ u "]".

(** The callback of [replace_nickname_in_context]; [whole] is
    [match.group(0)]. *)
Definition replace_callback (all_user_info : value) (whole : str)
    (groups : list str) : res str :=
  let qq_number := nth 0 groups [] in
  let old_nickname := nth 1 groups [] in
  user_info <- py_get all_user_info qq_number VNone ;;
  if truthy rt user_info then
    new_nickname <- py_get user_info (u "nickname") (VStr []) ;;
    if eq_str new_nickname old_nickname then Ok whole
    else if truthy rt new_nickname then
      Ok (placeholder qq_number (py_str rt new_nickname))
    else Ok whole
  else Ok whole.

(** [replace_nickname_in_context(all_user_info, pre_text)] *)
Definition replace_nickname_in_context (all_user_info pre_text : value) : value :=
  if negb (truthy rt all_user_info) || negb (truthy rt pre_text) then pre_text
  else
    try_except
      (match pre_text with
       | VStr s =>
         out <- re_sub placeholder_pattern (replace_callback all_user_info) s ;;
         Ok (VStr out)
       | _ => Raise TypeError
       end)
      (fun _ => pre_text).

End Placeholders.

(** ** JSON text

    [json.dump(obj, f, ensure_ascii=False, indent=2)] and [json.load(f)]
    of the standard library, on the objects of [value]. *)

Section Json.

Variable rt : runtime.

(** *** Writing *)

Definition hex_digit (n : N) : char :=
  if (n <? 10)%N then (48 + n)%N else (87 + n)%N.

(** One character inside a JSON string: quote, backslash and the control
    characters are escaped, everything else is written as it is. *)
Definition escape_char (c : char) : str :=
  if (c =? 34)%N then u "\" ++ [34%N]
  else if (c =? 92)%N then u "\\"
  else if (c =? 10)%N then u "\n"
  else if (c =? 13)%N then u "\r"
  else if (c =? 9)%N then u "\t"
  else if (c =? 8)%N then u "\b"
  else if (c =? 12)%N then u "\f"
  else if (c <? 32)%N then u "\u00" ++ [hex_digit (c / 16); hex_digit (c mod 16)]
  else [c].

Definition encode_basestring (s : str) : str :=
  34%N :: flat_map escape_char s ++ [34%N].

(** A line break followed by the indentation of a nesting level. *)
Definition newline_indent (level : nat) : str :=
  10%N :: repeat 32%N (2 * level).

Fixpoint encode (level : nat) (v : value) : str :=
  match v with
  | VNone => u "null"
  | VBool true => u "true"
  | VBool false => u "false"
  | VInt z => str_of_Z z
  | VFloat x => float_json rt x
  | VStr s => encode_basestring s
  | VList [] => u "[]"
  | VList xs =>
    u "[" ++ newline_indent (S level)
      ++ join (u "," ++ newline_indent (S level)) (map (encode (S level)) xs)
      ++ newline_indent level ++ u "]"
  | VDict [] => u "{}"
  | VDict kvs =>
    u "{" ++ newline_indent (S level)
      ++ join (u "," ++ newline_indent (S level))
           (map (fun '(k, x) => encode_basestring k ++ u ": " ++ encode (S level) x)
                kvs)
      ++ newline_indent level ++ u "}"
  end.

Definition json_dumps (v : value) : str := encode 0 v.

(** *** Writing to a file

    [json.dump] does not build the text first: it hands the text to
    [f.write] piece by piece, and a file opened with [encoding='utf-8']
    encodes each piece when it takes it.  A piece that holds a surrogate
    code point cannot be encoded: that [write] raises, and the file keeps
    the pieces it took before. *)

Definition surrogate (c : char) : bool := (55296 <=? c)%N && (c <=? 57343)%N.

(** [s.encode('utf-8')] raises nothing. *)
Definition encodable (s : str) : bool :=
  forallb (fun c => negb (surrogate c)) s.

(** The pieces in the order [json.dump] yields them.  In a dict the
    brace, the line break, a separator, a key, the ': ' and a value that
    is no container are pieces of their own; in a list an element that is
    no container is one piece together with the bracket or separator in
    front of it. *)
Section Pieces.

Variable pieces : value -> list str.   (* the pieces of a term one level deeper *)
Variable text : value -> str.          (* the text of a term that is no container *)
Variable separator : str.

(** The loop of [_iterencode_list]; [buf] is what goes in front of the
    next element. *)
Fixpoint list_pieces (buf : str) (l : list value) : list str :=
  match l with
  | [] => []
  | x :: l' =>
    match x with
    | VList _ | VDict _ => buf :: pieces x
    | _ => [buf ++ text x]
    end ++ list_pieces separator l'
  end.

(** The loop of [_iterencode_dict]. *)
Fixpoint dict_pieces (first : bool) (l : list (str * value)) : list str :=
  match l with
  | [] => []
  | (k, x) :: l' =>
    (if first then [] else [separator])
      ++ encode_basestring k :: u ": " :: pieces x ++ dict_pieces false l'
  end.

End Pieces.

Fixpoint iterencode (level : nat) (v : value) : list str :=
  match v with
  | VList [] => [u "[]"]
  | VList xs =>
    list_pieces (iterencode (S level)) (encode (S level))
      (u "," ++ newline_indent (S level)) (u "[" ++ newline_indent (S level)) xs
      ++ [newline_indent level; u "]"]
  | VDict [] => [u "{}"]
  | VDict kvs =>
    u "{" :: newline_indent (S level)
      :: dict_pieces (iterencode (S level)) (u "," ++ newline_indent (S level))
           true kvs
      ++ [newline_indent level; u "}"]
  | _ => [encode level v]
  end.

(** [for chunk in chunks: f.write(chunk)]: the text the file has taken,
    and whether a [write] raised. *)
Fixpoint write_all (chunks : list str) : str * res unit :=
  match chunks with
  | [] => ([], Ok tt)
  | c :: r =>
    if encodable c then let '(text, outcome) := write_all r in (c ++ text, outcome)
    else ([], Raise UnicodeEncodeError)
  end.

(** [json.dump(obj, f, ensure_ascii=False, indent=2)] on a file that was
    just opened for writing. *)
Definition json_dump (obj : value) : str * res unit :=
  write_all (iterencode 0 obj).

(** *** Reading *)

Definition json_space (c : char) : bool :=
  (c =? 32)%N || (c =? 9)%N || (c =? 10)%N || (c =? 13)%N.

Fixpoint skip_ws (s : str) : str :=
  match s with
  | c :: r => if json_space c then skip_ws r else s
  | [] => []
  end.

Definition ascii_digit (c : char) : bool := (48 <=? c)%N && (c <=? 57)%N.

Definition hex_value (c : char) : option N :=
  if ascii_digit c then Some (c - 48)%N
  else if (97 <=? c)%N && (c <=? 102)%N then Some (c - 87)%N
  else if (65 <=? c)%N && (c <=? 70)%N then Some (c - 55)%N
  else None.

Definition hex4 (a b c d : char) : option N :=
  match hex_value a, hex_value b, hex_value c, hex_value d with
  | Some x, Some y, Some z, Some w => Some (((x * 16 + y) * 16 + z) * 16 + w)%N
  | _, _, _, _ => None
  end.

Definition high_surrogate (c : N) : bool := (55296 <=? c)%N && (c <=? 56319)%N.
Definition low_surrogate (c : N) : bool := (56320 <=? c)%N && (c <=? 57343)%N.
Definition join_surrogates (hi lo : N) : N :=
  (65536 + ((hi - 55296) * 1024 + (lo - 56320)))%N.

Definition simple_escape (c : char) : option char :=
  if (c =? 34)%N then Some 34%N
  else if (c =? 92)%N then Some 92%N
  else if (c =? 47)%N then Some 47%N
  else if (c =? 98)%N then Some 8%N
  else if (c =? 102)%N then Some 12%N
  else if (c =? 110)%N then Some 10%N
  else if (c =? 114)%N then Some 13%N
  else if (c =? 116)%N then Some 9%N
  else None.

Definition push (c : char) (r : option (str * str)) : option (str * str) :=
  match r with
  | Some (t, rest) => Some (c :: t, rest)
  | None => None
  end.

(** The body of a string, read after its opening quote (strict mode):
    its characters and the text after the closing quote. *)
Fixpoint scan_string (s : str) : option (str * str) :=
  match s with
  | [] => None
  | c :: r =>
    if (c =? 34)%N then Some ([], r)
    else if (c =? 92)%N then
      match r with
      | [] => None
      | e :: r1 =>
        if (e =? 117)%N then
          match r1 with
          | h1 :: h2 :: h3 :: h4 :: r2 =>
            match hex4 h1 h2 h3 h4 with
            | None => None
            | Some c1 =>
              if high_surrogate c1 then
                match r2 with
                | b :: e2 :: g1 :: g2 :: g3 :: g4 :: r3 =>
                  match r3 with
                  | [] => push c1 (scan_string r2)
                  | _ :: _ =>
                    if (b =? 92)%N && (e2 =? 117)%N then
                      match hex4 g1 g2 g3 g4 with
                      | None => None
                      | Some c2 =>
                        if low_surrogate c2
                        then push (join_surrogates c1 c2) (scan_string r3)
                        else push c1 (scan_string r2)
                      end
                    else push c1 (scan_string r2)
                  end
                | _ => push c1 (scan_string r2)
                end
              else push c1 (scan_string r2)
            end
          | _ => None
          end
        else
          match simple_escape e with
          | Some c' => push c' (scan_string r1)
          | None => None
          end
      end
    else if (c <=? 31)%N then None
    else push c (scan_string r)
  end.

Fixpoint take_digits (s : str) : str * str :=
  match s with
  | c :: r =>
    if ascii_digit c then let '(ds, rest) := take_digits r in (c :: ds, rest)
    else ([], s)
  | [] => ([], [])
  end.

Definition digit_values (ds : str) : list N := map (fun c => (c - 48)%N) ds.

(** A number: an optional '-', an integer part without a leading zero, an
    optional fraction and an optional exponent.  With neither fraction nor
    exponent it is an [int], otherwise a [float]. *)
Definition scan_sign (s : str) : str * str :=
  match s with
  | c :: r => if (c =? 45)%N then ([45%N], r) else ([], s)
  | [] => ([], s)
  end.

Definition scan_int_part (s : str) : option (str * str) :=
  match s with
  | [] => None
  | c :: r =>
    if (49 <=? c)%N && (c <=? 57)%N then
      let '(ds, rest) := take_digits r in Some (c :: ds, rest)
    else if (c =? 48)%N then Some ([c], r)
    else None
  end.

Definition scan_fraction (s : str) : str * str :=
  match s with
  | p :: d :: r =>
    if (p =? 46)%N && ascii_digit d then
      let '(ds, rest) := take_digits r in (p :: d :: ds, rest)
    else ([], s)
  | _ => ([], s)
  end.

Definition scan_exponent (s : str) : str * str :=
  match s with
  | e :: r =>
    if (e =? 101)%N || (e =? 69)%N then
      let '(sg, r') :=
        match r with
        | g :: r' => if (g =? 45)%N || (g =? 43)%N then ([g], r') else ([], r)
        | [] => ([], r)
        end in
      match take_digits r' with
      | ([], _) => ([], s)
      | (ds, rest) => (e :: sg ++ ds, rest)
      end
    else ([], s)
  | [] => ([], s)
  end.

Definition scan_number (s : str) : option (value * str) :=
  let '(sign, s1) := scan_sign s in
  match scan_int_part s1 with
  | None => None
  | Some (ip, s2) =>
    let '(frac, s3) := scan_fraction s2 in
    let '(expo, s4) := scan_exponent s3 in
    match frac, expo with
    | [], [] =>
      let n := Z.of_N (N_of_digits (digit_values ip)) in
      Some (VInt (match sign with [] => n | _ => - n end), s4)
    | _, _ => Some (VFloat (sign ++ ip ++ frac ++ expo), s4)
    end
  end.

(** The named constants and the numbers. *)
Definition scan_atom (s : str) : option (value * str) :=
  match strip_prefix (u "null") s with
  | Some r => Some (VNone, r)
  | None =>
  match strip_prefix (u "true") s with
  | Some r => Some (VBool true, r)
  | None =>
  match strip_prefix (u "false") s with
  | Some r => Some (VBool false, r)
  | None =>
  match strip_prefix (u "NaN") s with
  | Some r => Some (VFloat (u "NaN"), r)
  | None =>
  match strip_prefix (u "Infinity") s with
  | Some r => Some (VFloat (u "Infinity"), r)
  | None =>
  match strip_prefix (u "-Infinity") s with
  | Some r => Some (VFloat (u "-Infinity"), r)
  | None => scan_number s
  end end end end end end.

(** [scan_once]: one JSON term at the start of [s].  The fuel bounds the
    number of nested calls; the length of the text is always enough. *)
Fixpoint scan_once (fuel : nat) (s : str) : option (value * str) :=
  match fuel with
  | O => None
  | S fuel' =>
    match s with
    | [] => None
    | c :: r =>
      if (c =? 34)%N then
        match scan_string r with
        | Some (t, rest) => Some (VStr t, rest)
        | None => None
        end
      else if (c =? 123)%N then
        match skip_ws r with
        | c1 :: r1 =>
          if (c1 =? 125)%N then Some (VDict [], r1)
          else parse_members fuel' (c1 :: r1) []
        | [] => None
        end
      else if (c =? 91)%N then
        match skip_ws r with
        | c1 :: r1 =>
          if (c1 =? 93)%N then Some (VList [], r1)
          else parse_elements fuel' (c1 :: r1) []
        | [] => None
        end
      else scan_atom s
    end
  end

(** The members of an object, from the quote of a key on; [acc] holds the
    members read so far. *)
with parse_members (fuel : nat) (s : str) (acc : dict) : option (value * str) :=
  match fuel with
  | O => None
  | S fuel' =>
    match s with
    | [] => None
    | q :: r =>
      if (q =? 34)%N then
        match scan_string r with
        | None => None
        | Some (key, r1) =>
          match skip_ws r1 with
          | [] => None
          | colon :: r2 =>
            if (colon =? 58)%N then
              match scan_once fuel' (skip_ws r2) with
              | None => None
              | Some (val, r3) =>
                let acc' := dict_set key val acc in
                match skip_ws r3 with
                | [] => None
                | c :: r4 =>
                  if (c =? 125)%N then Some (VDict acc', r4)
                  else if (c =? 44)%N then parse_members fuel' (skip_ws r4) acc'
                  else None
                end
              end
            else None
          end
        end
      else None
    end
  end

(** The elements of an array; [acc] holds the elements read so far. *)
with parse_elements (fuel : nat) (s : str) (acc : list value) : option (value * str) :=
  match fuel with
  | O => None
  | S fuel' =>
    match scan_once fuel' s with
    | None => None
    | Some (val, r1) =>
      let acc' := acc ++ [val] in
      match skip_ws r1 with
      | [] => None
      | c :: r2 =>
        if (c =? 93)%N then Some (VList acc', r2)
        else if (c =? 44)%N then parse_elements fuel' (skip_ws r2) acc'
        else None
      end
    end
  end.

(** [json.loads(s)]: one term, surrounded by whitespace only. *)
Definition json_loads (s : str) : res value :=
  let s0 := skip_ws s in
  match scan_once (S (2 * List.length s0)) s0 with
  | Some (v, rest) =>
    match skip_ws rest with
    | [] => Ok v
    | _ => Raise ValueError
    end
  | None => Raise ValueError
  end.

End Json.

(** ** Files, events and requests *)

(** A data file: missing, present but failing to be read, or holding a
    text. *)
Inductive file :=
| Absent
| Unreadable
| Content (text : str).

(** The two data files; [user_info_writes] counts the writes made to the
    first one. *)
Record files := {
  user_info_file : file;
  group_info_file : file;
  user_info_writes : nat
}.

(** What the host and the platform supply with a message. *)
Record event := {
  platform_name : str;                 (* event.get_platform_name() *)
  aiocqhttp_event : bool;              (* isinstance(event, AiocqhttpMessageEvent) *)
  sender_id : str;                     (* event.get_sender_id() *)
  sender_name : str;                   (* event.get_sender_name() *)
  group_id : str;                      (* event.get_group_id(), empty in a private chat *)
  timestamp : Z;                       (* event.message_obj.timestamp *)
  now : date;                          (* datetime.now() *)
  now_iso : str;                       (* datetime.now().isoformat() *)
  stranger_info_reply : res value;     (* the answer to get_stranger_info *)
  group_member_info_reply : res value  (* the answer to get_group_member_info *)
}.

(** The attributes of the provider request the hook touches.  Which
    attributes a request has is the host's matter: [context] is [None] for
    a request that has no attribute of that name. *)
Record request := {
  context : option value;
  system_prompt : value
}.

(** A reply of a command: a text, or a text followed by the description of
    an exception. *)
Inductive message :=
| Plain (text : str)
| WithError (text : str) (e : exn).

(** Code that reads and writes the files and the request, and may raise:
    what was written before an exception stays written. *)
Definition world := (files * request)%type.
Definition action (A : Type) := world -> res A * world.

Definition unit_action {A} (a : A) : action A := fun w => (Ok a, w).

Definition bind_action {A B} (m : action A) (k : A -> action B) : action B :=
  fun w => match m w with
           | (Ok a, w') => k a w'
           | (Raise e, w') => (Raise e, w')
           end.

Definition lift {A} (r : res A) : action A := fun w => (r, w).

(** [try: m  except Exception: pass] *)
Definition attempt (m : action unit) : world -> world :=
  fun w => snd (m w).

Declare Scope action_scope.
Delimit Scope action_scope with action.
Notation "x <- m ;; k" := (bind_action m (fun x => k))
  (at level 61, m at next level, right associativity) : action_scope.
Notation "m ;;; k" := (bind_action m (fun _ => k))
  (at level 61, right associativity) : action_scope.

Section Persistence.

Variable rt : runtime.

(** [load_user_info()] and [load_group_info()]: the parsed file, or the
    empty mapping when the file is missing or anything is raised. *)
Definition load_json (f : file) : value :=
  try_except
    (match f with
     | Absent => Ok (VDict [])
     | Unreadable => Raise OSError
     | Content text => json_loads text
     end)
    (fun _ => VDict []).

Definition load_user_info (fs : files) : value := load_json (user_info_file fs).
Definition load_group_info (fs : files) : value := load_json (group_info_file fs).

(** [save_user_info(user_info)] and [save_group_info(group_info)]: opening
    the file with mode 'w' empties it, [json.dump] fills it, and what
    [json.dump] raises is caught and logged, so that the file keeps the
    text it had taken by then. *)
Definition save_user_info (user_info : value) (fs : files) : files :=
  {| user_info_file := Content (fst (json_dump rt user_info));
     group_info_file := group_info_file fs;
     user_info_writes := S (user_info_writes fs) |}.

Definition save_group_info (group_info : value) (fs : files) : files :=
  {| user_info_file := user_info_file fs;
     group_info_file := Content (fst (json_dump rt group_info));
     user_info_writes := user_info_writes fs |}.

End Persistence.

(** ** The hook and the commands *)

Section Operations.

Variable rt : runtime.

Definition aiocqhttp : str := u "aiocqhttp".

(** [o[k1][k2] = v] *)
Definition py_setitem2 (o : value) (k1 k2 : str) (v : value) : res value :=
  inner <- py_getitem o k1 ;;
  inner' <- py_setitem inner k2 v ;;
  py_setitem o k1 inner'.

(** [get_qq_user_info(event, qq_number, update_user_info)]: the record
    built so far is returned whatever is raised on the way. *)
Definition get_qq_user_info (ev : event) (qq_number : str) (update_user_info : bool)
  : dict :=
  let user_info :=
    [(u "qq_number", VStr qq_number); (u "timestamp", VInt (timestamp ev))] in
  let user_info :=
    if update_user_info then dict_set (u "nickname") (VStr (sender_name ev)) user_info
    else user_info in
  if negb (str_eqb (platform_name ev) aiocqhttp) then user_info
  else if negb (aiocqhttp_event ev) then user_info
  else
    match
      (if update_user_info then
         _ <- py_int rt qq_number ;;
         stranger_info <- stranger_info_reply ev ;;
         birthday <- parse_birthday rt stranger_info ;;
         sex <- py_get stranger_info (u "sex") (VStr (u "unknown")) ;;
         gender <- get_gender_text sex ;;
         Ok (dict_update user_info
               [(u "gender", VStr gender); (u "birthday", VStr birthday)])
       else Ok user_info)
    with
    | Raise _ => user_info
    | Ok user_info =>
      if truthy rt (VStr (group_id ev)) then
        match (_ <- py_int rt (group_id ev) ;; py_int rt qq_number) with
        | Raise _ => user_info
        | Ok _ =>
          try_except
            (group_member_info <- group_member_info_reply ev ;;
             role <- py_get group_member_info (u "role") (VStr (u "member")) ;;
             title <- py_get group_member_info (u "title") (VStr []) ;;
             let title := if truthy rt title then title else VStr no_title in
             Ok (dict_update user_info
                   [(u "group_role", role); (u "group_title", title)]))
            (fun _ => user_info)
        end
      else user_info
    end.

Definition load_user_info_action : action value :=
  fun w => (Ok (load_user_info (fst w)), w).
Definition load_group_info_action : action value :=
  fun w => (Ok (load_group_info (fst w)), w).
Definition save_user_info_action (v : value) : action unit :=
  fun w => (Ok tt, (save_user_info rt v (fst w), snd w)).
Definition save_group_info_action (v : value) : action unit :=
  fun w => (Ok tt, (save_group_info rt v (fst w), snd w)).
Definition get_request : action request := fun w => (Ok (snd w), w).
(** [req.context], which raises for a request without that attribute, and
    [req.context = c], which sets or creates it. *)
Definition read_context : action value :=
  fun w => match context (snd w) with
           | Some c => (Ok c, w)
           | None => (Raise AttributeError, w)
           end.
Definition set_context (c : value) : action unit :=
  fun w => (Ok tt, (fst w, {| context := Some c;
                              system_prompt := system_prompt (snd w) |})).
Definition set_system_prompt (p : value) : action unit :=
  fun w => (Ok tt, (fst w, {| context := context (snd w); system_prompt := p |})).

(** The group branch of the hook: the member's entry in the group file. *)
Definition record_group_member (ev : event) (all_user_info all_group_info : value)
  : action unit :=
  (let qq_number := sender_id ev in
   let gid := group_id ev in
   known <- lift (py_contains gid all_group_info) ;;
   all_group_info <- lift (if negb known
                           then py_setitem all_group_info gid (VDict [])
                           else Ok all_group_info) ;;
   user_info <- lift (py_getitem all_user_info qq_number) ;;
   role <- lift (py_get user_info (u "group_role") (VStr (u "member"))) ;;
   title <- lift (py_get user_info (u "group_title") (VStr no_title)) ;;
   nickname <- lift (py_get user_info (u "nickname") (VStr unknown)) ;;
   let group_info :=
     VDict [(u "qq_number", VStr qq_number); (u "group_id", VStr gid);
            (u "group_role", role); (u "group_title", title);
            (u "nickname", nickname); (u "timestamp", VStr (now_iso ev))] in
   all_group_info <- lift (py_setitem2 all_group_info gid qq_number group_info) ;;
   save_group_info_action all_group_info)%action.

(** The first branch of the hook: a sender without a record gets one, and
    the table is saved at once. *)
Definition record_user (ev : event) (all_user_info : value) : action value :=
  (let qq_number := sender_id ev in
   known <- lift (py_contains qq_number all_user_info) ;;
   if negb known then
     let user_info := get_qq_user_info ev qq_number true in
     all_user_info <- lift (py_setitem all_user_info qq_number (VDict user_info)) ;;
     save_user_info_action all_user_info ;;;
     unit_action all_user_info
   else unit_action all_user_info)%action.

(** The last part of the hook: the prompt of the request. *)
Definition enrich_request (ev : event) (all_user_info : value) (is_group : bool)
  : action unit :=
  (let qq_number := sender_id ev in
   user_info <- lift (py_getitem all_user_info qq_number) ;;
   user_prompt <- lift (format_user_info_for_prompt rt (now ev) user_info is_group) ;;
   old_context <- read_context ;;
   set_context (replace_nickname_in_context rt all_user_info old_context) ;;;
   if truthy rt (VStr user_prompt) then
     req <- get_request ;;
     let original :=
       if truthy rt (system_prompt req) then system_prompt req else VStr [] in
     user_info <- lift (py_getitem all_user_info qq_number) ;;
     nickname <- lift (py_get user_info (u "nickname") (VStr (u "用户"))) ;;
     set_system_prompt
       (VStr (u "当前对话用户信息: " ++ user_prompt ++ u "。请称呼用户为"
                ++ py_str rt nickname ++ u "。" ++ py_str rt original))
   else unit_action tt)%action.

(** [on_llm_request_hook(event, req)] *)
Definition on_llm_request_hook (ev : event) : world -> world :=
  attempt
    (if negb (str_eqb (platform_name ev) aiocqhttp) then unit_action tt
     else
       let is_group := truthy rt (VStr (group_id ev)) in
       all_user_info <- load_user_info_action ;;
       all_group_info <- load_group_info_action ;;
       all_user_info <- record_user ev all_user_info ;;
       (if is_group then record_group_member ev all_user_info all_group_info
        else unit_action tt) ;;;
       enrich_request ev all_user_info is_group)%action.

Definition not_registered : message :=
  Plain (u "您的用户信息不存在，请先发送一条消息触发信息记录").

(** [update_nickname(event, new_nickname)]: the replies and the files
    afterwards. *)
Definition update_nickname (ev : event) (new_nickname : str) (fs : files)
  : list message * files :=
  try_except
    (let qq_number := sender_id ev in
     let all_user_info := load_user_info fs in
     known <- py_contains qq_number all_user_info ;;
     if negb known then Ok ([not_registered], fs)
     else
       user_info <- py_getitem all_user_info qq_number ;;
       old_nickname <- py_get user_info (u "nickname") (VStr []) ;;
       all_user_info <- py_setitem2 all_user_info qq_number (u "nickname")
                          (VStr new_nickname) ;;
       Ok ([Plain (u "已更新您的昵称: " ++ new_nickname)],
           save_user_info rt all_user_info fs))
    (fun e => ([WithError (u "更新昵称失败: ") e], fs)).

(** The check of [update_birthday] on the new value. *)
Definition validate_birthday (today : date) (new_birthday : str) : res unit :=
  match split dash new_birthday with
  | [p0; p1; p2] =>
    y <- py_int rt p0 ;;
    m <- py_int rt p1 ;;
    d <- py_int rt p2 ;;
    if negb ((1900 <=? y) && (y <=? year today)) then
      Raise (ValueErrorWith (u "年份不合理"))
    else if negb ((1 <=? m) && (m <=? 12)) then
      Raise (ValueErrorWith (u "月份不合理"))
    else if negb ((1 <=? d) && (d <=? 31)) then
      Raise (ValueErrorWith (u "日期不合理"))
    else Ok tt
  | _ => Raise (ValueErrorWith (u "生日格式不正确"))
  end.

(** [update_birthday(event, new_birthday)] *)
Definition update_birthday (ev : event) (new_birthday : str) (fs : files)
  : list message * files :=
  try_except
    (let qq_number := sender_id ev in
     let all_user_info := load_user_info fs in
     known <- py_contains qq_number all_user_info ;;
     if negb known then Ok ([not_registered], fs)
     else
       match validate_birthday (now ev) new_birthday with
       | Raise e =>
         Ok ([WithError (u "生日格式不正确，请使用 YYYY-MM-DD 格式: ") e], fs)
       | Ok _ =>
         user_info <- py_getitem all_user_info qq_number ;;
         old_birthday <- py_get user_info (u "birthday") (VStr []) ;;
         all_user_info <- py_setitem2 all_user_info qq_number (u "birthday")
                            (VStr new_birthday) ;;
         Ok ([Plain (u "已更新您的生日: " ++ new_birthday)],
             save_user_info rt all_user_info fs)
       end)
    (fun e => ([WithError (u "更新生日失败: ") e], fs)).

Definition valid_genders : list str := [u "男"; u "女"].

(** [update_gender(event, new_gender)] *)
Definition update_gender (ev : event) (new_gender : str) (fs : files)
  : list message * files :=
  try_except
    (let qq_number := sender_id ev in
     let all_user_info := load_user_info fs in
     known <- py_contains qq_number all_user_info ;;
     if negb known then Ok ([not_registered], fs)
     else if negb (existsb (str_eqb new_gender) valid_genders) then
       Ok ([Plain (u "性别必须是: " ++ join (u ", ") valid_genders)], fs)
     else
       user_info <- py_getitem all_user_info qq_number ;;
       old_gender <- py_get user_info (u "gender") (VStr []) ;;
       all_user_info <- py_setitem2 all_user_info qq_number (u "gender")
                          (VStr new_gender) ;;
       Ok ([Plain (u "已更新您的性别: " ++ new_gender)],
           save_user_info rt all_user_info fs))
    (fun e => ([WithError (u "更新性别失败: ") e], fs)).

(** *** Runs *)

Inductive operation :=
| OnLlmRequest (ev : event) (req : request)
| UpdateNickname (ev : event) (new_nickname : str)
| UpdateBirthday (ev : event) (new_birthday : str)
| UpdateGender (ev : event) (new_gender : str).

Definition step (fs : files) (o : operation) : files :=
  match o with
  | OnLlmRequest ev req => fst (on_llm_request_hook ev (fs, req))
  | UpdateNickname ev x => snd (update_nickname ev x fs)
  | UpdateBirthday ev x => snd (update_birthday ev x fs)
  | UpdateGender ev x => snd (update_gender ev x fs)
  end.


(** The ids that have a record in the persisted user-info table. *)
Definition user_ids (fs : files) : list str :=
  match load_user_info fs with
  | VDict d => keys d
  | _ => []
  end.

End Operations.

(** ** The [my_info] command *)

Section Info.

Variable rt : runtime.

Definition line_break : str := [10%N].         (* "\n" *)

(** The four lines every answer of [show_my_info] starts with. *)
Definition info_text (user_info : value) : res str :=
  qq <- py_get user_info (u "qq_number") (VStr unknown) ;;
  nick <- py_get user_info (u "nickname") (VStr unknown) ;;
  gender <- py_get user_info (u "gender") (VStr unknown) ;;
  birthday <- py_get user_info (u "birthday") (VStr unknown) ;;
  Ok (u "您的信息:" ++ line_break
        ++ u "QQ: " ++ py_str rt qq ++ line_break
        ++ u "昵称: " ++ py_str rt nick ++ line_break
        ++ u "性别: " ++ py_str rt gender ++ line_break
        ++ u "生日: " ++ py_str rt birthday).

(** The line appended for a birthday other than the sentinel whose age is
    positive. *)
Definition info_age_line (today : date) (birthday : value) : str :=
  if negb (eq_str birthday unknown) then
    let age := calculate_age rt today birthday in
    if 0 <? age then line_break ++ u "年龄: " ++ str_of_Z age ++ u "岁" else []
  else [].

(** [show_my_info(event)]: the replies; no file is written. *)
Definition show_my_info (ev : event) (fs : files) : list message :=
  try_except
    (let qq_number := sender_id ev in
     let all_user_info := load_user_info fs in
     known <- py_contains qq_number all_user_info ;;
     if negb known then Ok [not_registered]
     else
       user_info <- py_getitem all_user_info qq_number ;;
       text <- info_text user_info ;;
       birthday <- py_get user_info (u "birthday") (VStr unknown) ;;
       Ok [Plain (text ++ info_age_line (now ev) birthday)])
    (fun e => [WithError (u "获取信息失败: ") e]).

End Info.

(** ** The older variant (main.py, version 0.0.1): record, prompt and hook

    The older variant keeps one data file and, in memory, the set
    [loaded_users] of the senders it has handled since it was started. *)

Module Old_variant.
Section Plugin.

Variable rt : runtime.

(** [get_qq_user_info(event, qq_number)] *)
Definition get_qq_user_info (ev : event) (qq_number : str) : dict :=
  let user_info :=
    [(u "qq_number", VStr qq_number); (u "nickname", VStr (sender_name ev));
     (u "timestamp", VInt (timestamp ev))] in
  if negb (str_eqb (platform_name ev) aiocqhttp) then user_info
  else if negb (aiocqhttp_event ev) then user_info
  else
    try_except
      (_ <- py_int rt qq_number ;;
       stranger_info <- stranger_info_reply ev ;;
       birthday <- Old.parse_birthday rt stranger_info ;;
       sex <- py_get stranger_info (u "sex") (VStr (u "unknown")) ;;
       gender <- Old.get_gender_text sex ;;
       Ok (dict_update user_info
             [(u "gender", VStr gender); (u "birthday", VStr birthday)]))
      (fun _ => user_info).

(** The list [prompt_parts] that [format_user_info_for_prompt] builds. *)
Definition prompt_parts (today : date) (user_info : value) : res (list str) :=
  qq <- py_get user_info (u "qq_number") (VStr unknown) ;;
  nick <- py_get user_info (u "nickname") (VStr unknown) ;;
  gender <- py_get user_info (u "gender") VNone ;;
  let gender_part :=
    if negb (eq_str gender unknown) then [u "性别: " ++ py_str rt gender] else [] in
  birthday <- py_get user_info (u "birthday") (VStr unknown) ;;
  let age_part :=
    if negb (eq_str birthday unknown) then
      let age := Old.calculate_age rt today birthday in
      if 0 <? age then [u "年龄: " ++ str_of_Z age ++ u "岁"] else []
    else [] in
  Ok ([u "用户QQ号: " ++ py_str rt qq; u "昵称: " ++ py_str rt nick]
        ++ gender_part ++ age_part).

(** [format_user_info_for_prompt(user_info)] *)
Definition format_user_info_for_prompt (today : date) (user_info : value)
  : res str :=
  parts <- prompt_parts today user_info ;;
  Ok (join (u "，") parts).

(** The first part of the hook: a sender without a record gets one, and
    the table is saved at once. *)
Definition record_user (ev : event) (all_user_info : value) : action value :=
  (let qq_number := sender_id ev in
   known <- lift (py_contains qq_number all_user_info) ;;
   if negb known then
     let user_info := get_qq_user_info ev qq_number in
     all_user_info <- lift (py_setitem all_user_info qq_number (VDict user_info)) ;;
     save_user_info_action rt all_user_info ;;;
     unit_action all_user_info
   else unit_action all_user_info)%action.

(** The last part of the hook: the prompt of the request. *)
Definition enrich_request (ev : event) (all_user_info : value) : action unit :=
  (let qq_number := sender_id ev in
   user_info <- lift (py_getitem all_user_info qq_number) ;;
   user_prompt <- lift (format_user_info_for_prompt (now ev) user_info) ;;
   if truthy rt (VStr user_prompt) then
     req <- get_request ;;
     let original :=
       if truthy rt (system_prompt req) then system_prompt req else VStr [] in
     set_system_prompt
       (VStr (u "当前对话用户信息: " ++ user_prompt ++ u "。" ++ [10%N; 10%N]
                ++ py_str rt original))
   else unit_action tt)%action.

(** [on_llm_request_hook(event, req)]: the set [loaded_users] and the
    world afterwards.  A sender is added to the set once the table holds a
    record, also when the rest of the hook raises. *)
Definition on_llm_request_hook (ev : event) (loaded_users : list str) (w : world)
  : list str * world :=
  if negb (str_eqb (platform_name ev) aiocqhttp) then (loaded_users, w)
  else
    let qq_number := sender_id ev in
    if existsb (str_eqb qq_number) loaded_users then (loaded_users, w)
    else
      match record_user ev (load_user_info (fst w)) w with
      | (Raise _, w1) => (loaded_users, w1)
      | (Ok all_user_info, w1) =>
        (qq_number :: loaded_users, attempt (enrich_request ev all_user_info) w1)
      end.

End Plugin.
End Old_variant.

(** * Notions used in the statements *)

(** ** Dates and sample data *)

(** The date format the data model names: YYYY-MM-DD, denoting a day of
    the calendar. *)
Definition leap_year (y : Z) : bool :=
  (y mod 4 =? 0) && (negb (y mod 100 =? 0) || (y mod 400 =? 0)).

Definition days_in_month (y m : Z) : Z :=
  if m =? 2 then (if leap_year y then 29 else 28)
  else if (m =? 4) || (m =? 6) || (m =? 9) || (m =? 11) then 30
  else 31.

Definition number_of (ds : str) : Z := Z.of_N (N_of_digits (digit_values ds)).

Definition iso_date (s : str) : bool :=
  match s with
  | [y1; y2; y3; y4; s1; m1; m2; s2; d1; d2] =>
    forallb ascii_digit [y1; y2; y3; y4; m1; m2; d1; d2]
    && (s1 =? dash)%N && (s2 =? dash)%N
    && (let y := number_of [y1; y2; y3; y4] in
        let m := number_of [m1; m2] in
        let d := number_of [d1; d2] in
        (1 <=? y) && (1 <=? m) && (m <=? 12) && (1 <=? d) && (d <=? days_in_month y m))
  | _ => false
  end.

Definition no_files : files :=
  {| user_info_file := Absent; group_info_file := Absent; user_info_writes := 0 |}.

Definition june_1_2024 : date := {| year := 2024; month := 6; day := 1 |}.

(** A group message of user 123 on the platform. *)
Definition a_message : event :=
  {| platform_name := u "aiocqhttp";
     aiocqhttp_event := true;
     sender_id := u "123";
     sender_name := u "Azusa";
     group_id := u "77";
     timestamp := 1700000000;
     now := june_1_2024;
     now_iso := u "2024-06-01T12:00:00";
     stranger_info_reply :=
       Ok (VDict [(u "sex", VStr (u "female")); (u "birthday_year", VInt 2000);
                  (u "birthday_month", VInt 1); (u "birthday_day", VInt 1)]);
     group_member_info_reply :=
       Ok (VDict [(u "role", VStr (u "admin")); (u "title", VStr [])]) |}.

Definition a_request : request :=
  {| context := Some (VStr (u "[User ID: 123, Nickname: old]"));
     system_prompt := VNone |}.

(** The table after that first message. *)
Definition one_user : files :=
  fst (on_llm_request_hook ascii_runtime a_message (no_files, a_request)).

Definition a_table : value :=
  VDict [(u "1", VDict [(u "qq_number", VStr (u "1")); (u "timestamp", VInt 1700000000);
                        (u "nickname", VStr (u "梓"))])].

(** The birthday of the running example, and the days of 2024. *)
Definition feb_1_2000 : value := VStr (u "2000-02-01").

Definition in_2024 (m d : Z) : date := {| year := 2024; month := m; day := d |}.


(** ** More sample data *)

(** The message of user 123 sent outside of a group. *)
Definition a_private_message : event :=
  {| platform_name := u "aiocqhttp";
     aiocqhttp_event := true;
     sender_id := u "123";
     sender_name := u "Azusa";
     group_id := [];
     timestamp := 1700000000;
     now := june_1_2024;
     now_iso := u "2024-06-01T12:00:00";
     stranger_info_reply := stranger_info_reply a_message;
     group_member_info_reply := group_member_info_reply a_message |}.

(** The group message of user 123 under another name, with both lookups
    failing. *)
Definition a_renamed_message : event :=
  {| platform_name := u "aiocqhttp";
     aiocqhttp_event := true;
     sender_id := u "123";
     sender_name := u "Hiyori";
     group_id := u "77";
     timestamp := 1700000600;
     now := june_1_2024;
     now_iso := u "2024-06-01T12:00:00";
     stranger_info_reply := Raise ApiError;
     group_member_info_reply := Raise ApiError |}.

(** A group message of user 456. *)
Definition another_message : event :=
  {| platform_name := u "aiocqhttp";
     aiocqhttp_event := true;
     sender_id := u "456";
     sender_name := u "Mio";
     group_id := u "77";
     timestamp := 1700000300;
     now := june_1_2024;
     now_iso := u "2024-06-01T12:05:00";
     stranger_info_reply := Ok (VDict [(u "sex", VStr (u "male"))]);
     group_member_info_reply := Ok (VDict [(u "role", VStr (u "member"))]) |}.

(** A message of another platform. *)
Definition a_foreign_message : event :=
  {| platform_name := u "telegram";
     aiocqhttp_event := false;
     sender_id := u "123";
     sender_name := u "Azusa";
     group_id := [];
     timestamp := 1700000000;
     now := june_1_2024;
     now_iso := u "2024-06-01T12:00:00";
     stranger_info_reply := Raise ApiError;
     group_member_info_reply := Raise ApiError |}.

(** The files after the messages of both users. *)
Definition two_users : files :=
  fst (on_llm_request_hook ascii_runtime another_message (one_user, a_request)).

(** The table of [one_user] and the record of user 123 in it. *)
Definition one_user_table : dict :=
  match load_user_info one_user with
  | VDict d => d
  | _ => []
  end.

Definition one_user_record : dict :=
  match dict_get (u "123") one_user_table with
  | Some (VDict r) => r
  | _ => []
  end.

(** The record built for user 123 by the first message. *)
Definition a_new_record : dict :=
  get_qq_user_info ascii_runtime a_message (u "123") true.

(** The record built for user 123 by the message outside of a group. *)
Definition a_private_record : dict :=
  get_qq_user_info ascii_runtime a_private_message (u "123") true.

(** A user-info file that holds a JSON array. *)
Definition an_array_file : files :=
  {| user_info_file := Content (u "[1, 2]");
     group_info_file := Absent;
     user_info_writes := 0 |}.

(** A table with one stored nickname. *)
Definition a_nickname_table : dict :=
  [(u "1", VDict [(u "nickname", VStr (u "b"))])].

(** A text that cannot be encoded in UTF-8: the lone surrogate U+D800. *)
Definition a_lone_surrogate : str := [55296%N].

(** A group message of user 456 whose display name is that text. *)
Definition an_unencodable_message : event :=
  {| platform_name := u "aiocqhttp";
     aiocqhttp_event := true;
     sender_id := u "456";
     sender_name := a_lone_surrogate;
     group_id := u "77";
     timestamp := 1700000300;
     now := june_1_2024;
     now_iso := u "2024-06-01T12:05:00";
     stranger_info_reply := Ok (VDict [(u "sex", VStr (u "male"))]);
     group_member_info_reply := Ok (VDict [(u "role", VStr (u "member"))]) |}.

(** The record built for user 456 by that message. *)
Definition an_unencodable_record : dict :=
  get_qq_user_info ascii_runtime an_unencodable_message (u "456") true.

(** A request that has no context attribute. *)
Definition a_bare_request : request :=
  {| context := None; system_prompt := VStr (u "Be kind.") |}.

(** ** Notions that depend on the runtime *)

Section Properties.

Variable rt : runtime.

(** The birthday string splits on '-' into exactly three fields that
    [int] accepts. *)
Definition three_integer_fields (b : str) (y m d : Z) : Prop :=
  exists p0 p1 p2,
    split dash b = [p0; p1; p2] /\
    py_int rt p0 = Ok y /\ py_int rt p1 = Ok m /\ py_int rt p2 = Ok d.

Definition has_age_part (parts : list str) : bool :=
  existsb (fun p => match strip_prefix age_label p with Some _ => true | None => false end)
          parts.

(** A placeholder is well formed when its id is a non-empty run of
    decimal digits and its nickname a non-empty text without ']'. *)
Definition valid_placeholder (qq_number nickname : str) : Prop :=
  qq_number <> [] /\ forallb (is_decimal rt) qq_number = true /\
  nickname <> [] /\ forallb (fun c => negb (c =? 93)%N) nickname = true.

(** A text is cut into placeholders and the characters between them. *)
Inductive segment :=
| Gap (c : char)
| Token (qq_number nickname : str).

Definition render (g : segment) : str :=
  match g with
  | Gap c => [c]
  | Token id nick => placeholder id nick
  end.

Definition starts_with_placeholder (s : str) : Prop :=
  exists id nick rest, valid_placeholder id nick /\ s = placeholder id nick ++ rest.

(** The cut made from left to right: a placeholder is taken wherever one
    starts, and the scan resumes behind it. *)
Inductive tokenized : str -> list segment -> Prop :=
| tok_nil : tokenized [] []
| tok_gap c s segs :
    ~ starts_with_placeholder (c :: s) ->
    tokenized s segs ->
    tokenized (c :: s) (Gap c :: segs)
| tok_token id nick rest segs :
    valid_placeholder id nick ->
    tokenized rest segs ->
    tokenized (placeholder id nick ++ rest) (Token id nick :: segs).

(** What [re.sub] returns on a tokenized text when the callback answers
    [f id nick] on every placeholder. *)
Definition substituted (f : str -> str -> str) (g : segment) : str :=
  match g with
  | Gap c => [c]
  | Token id nick => f id nick
  end.

(** In a user-info table every record is a dict. *)
Definition records_are_dicts (t : dict) : Prop :=
  forall id v, dict_get id t = Some v -> exists r, v = VDict r.

(** The nickname a placeholder carries after the rewriting. *)
Definition latest_nickname (t : dict) (id nick : str) : str :=
  match dict_get id t with
  | Some (VDict r) =>
    match dict_get (u "nickname") r with
    | Some v => if eq_str v nick then nick
                else if truthy rt v then py_str rt v else nick
    | None => nick
    end
  | _ => nick
  end.

Definition update_segment (t : dict) (g : segment) : segment :=
  match g with
  | Gap c => Gap c
  | Token id nick => Token id (latest_nickname t id nick)
  end.

(** How one segment of the text may change. *)
Inductive rewritten (t : dict) : segment -> segment -> Prop :=
| rw_gap c :
    rewritten t (Gap c) (Gap c)
| rw_no_record id nick :
    dict_get id t = None ->
    rewritten t (Token id nick) (Token id nick)
| rw_same id nick r :
    dict_get id t = Some (VDict r) ->
    dict_get (u "nickname") r = Some (VStr nick) ->
    rewritten t (Token id nick) (Token id nick)
| rw_no_nickname id nick r :
    dict_get id t = Some (VDict r) ->
    dict_get (u "nickname") r = None ->
    rewritten t (Token id nick) (Token id nick)
| rw_empty_nickname id nick r v :
    dict_get id t = Some (VDict r) ->
    dict_get (u "nickname") r = Some v ->
    truthy rt v = false ->
    rewritten t (Token id nick) (Token id nick)
| rw_new id nick r v :
    dict_get id t = Some (VDict r) ->
    dict_get (u "nickname") r = Some v ->
    truthy rt v = true ->
    v <> VStr nick ->
    rewritten t (Token id nick) (Token id (py_str rt v)).

(** The first clause of C3 as it was stated: whenever the record of a
    placeholder stores another nickname, that nickname replaces the one in
    the placeholder. *)
Definition stored_nickname_always_replaces : Prop :=
  forall t id nick r stored,
    valid_placeholder id nick ->
    dict_get id t = Some (VDict r) ->
    dict_get (u "nickname") r = Some (VStr stored) ->
    stored <> nick ->
    replace_nickname_in_context rt (VDict t) (VStr (placeholder id nick))
    = VStr (placeholder id stored).

(** Induction on objects, with the hypothesis available for every element
    of a list and every value of a dict. *)
Section ValueInduction.

Variable P : value -> Prop.
Hypothesis HNone : P VNone.
Hypothesis HBool : forall b, P (VBool b).
Hypothesis HInt : forall z, P (VInt z).
Hypothesis HFloat : forall x, P (VFloat x).
Hypothesis HStr : forall s, P (VStr s).
Hypothesis HList : forall xs, Forall P xs -> P (VList xs).
Hypothesis HDict : forall kvs, Forall (fun kv => P (snd kv)) kvs -> P (VDict kvs).

Fixpoint value_nested_ind (v : value) : P v :=
  match v with
  | VNone => HNone
  | VBool b => HBool b
  | VInt z => HInt z
  | VFloat x => HFloat x
  | VStr s => HStr s
  | VList xs =>
    HList xs ((fix all (l : list value) : Forall P l :=
                 match l with
                 | [] => Forall_nil _
                 | x :: l' => Forall_cons x (value_nested_ind x) (all l')
                 end) xs)
  | VDict kvs =>
    HDict kvs ((fix all (l : list (str * value)) : Forall (fun kv => P (snd kv)) l :=
                  match l with
                  | [] => Forall_nil _
                  | kv :: l' =>
                    Forall_cons kv (value_nested_ind (snd kv)) (all l')
                  end) kvs)
  end.

End ValueInduction.

(** What may follow a term in a document that was written: a comma, a
    line break, or nothing. *)
Definition delimited (rest : str) : bool :=
  match rest with
  | [] => true
  | c :: _ => (c =? 44)%N || (c =? 10)%N
  end.

(** A numeral in normal form: "0", or digits that do not start with 0. *)
Definition normal (d : Decimal.uint) : Prop :=
  d = D0 Nil \/
  match d with
  | Nil | D0 _ => False
  | _ => True
  end.

(** A float whose JSON text is read back as that float. *)
Definition readable_float (x : str) : Prop :=
  forall fuel rest,
    delimited rest = true ->
    scan_once (S fuel) (float_json rt x ++ rest)
    = Some (VFloat (float_json rt x), rest).

(** Every float inside the object is readable. *)
#[warnings="-register-all"] Inductive readable : value -> Prop :=
| rd_none : readable VNone
| rd_bool b : readable (VBool b)
| rd_int z : readable (VInt z)
| rd_float x : readable_float x -> readable (VFloat x)
| rd_str s : readable (VStr s)
| rd_list xs : Forall readable xs -> readable (VList xs)
| rd_dict kvs : Forall (fun kv => readable (snd kv)) kvs -> readable (VDict kvs).

(** The object that comes back from the file: a float is the one its text
    denotes, and a dict is rebuilt by successive assignments. *)
Fixpoint canon (v : value) : value :=
  match v with
  | VFloat x => VFloat (float_json rt x)
  | VList xs => VList (map canon xs)
  | VDict kvs => VDict (dict_update [] (map (fun '(k, x) => (k, canon x)) kvs))
  | _ => v
  end.

Definition canon_member (kv : str * value) : str * value :=
  let '(k, x) := kv in (k, canon x).

Fixpoint float_free (v : value) : bool :=
  match v with
  | VFloat _ => false
  | VList xs => forallb float_free xs
  | VDict kvs => forallb (fun kv => float_free (snd kv)) kvs
  | _ => true
  end.

Fixpoint distinct (ks : list str) : bool :=
  match ks with
  | [] => true
  | k :: ks' => negb (existsb (str_eqb k) ks') && distinct ks'
  end.

(** No dict inside the object has two entries under one key. *)
Fixpoint well_formed (v : value) : bool :=
  match v with
  | VList xs => forallb well_formed xs
  | VDict kvs =>
    distinct (map fst kvs) && forallb (fun kv => well_formed (snd kv)) kvs
  | _ => true
  end.

(** The first character of a term. *)
Definition term_start (c : char) : bool :=
  negb (json_space c) && negb (c =? 93)%N && negb (c =? 125)%N.

(** The text after the first element of an array, and after the first
    member of an object. *)
Fixpoint elements_tail (level : nat) (xs : list value) (rest : str) : str :=
  match xs with
  | [] => newline_indent level ++ 93%N :: rest
  | y :: ys =>
    44%N :: newline_indent (S level) ++ encode rt (S level) y
      ++ elements_tail level ys rest
  end.

Definition member_text (level : nat) (kv : str * value) : str :=
  let '(k, x) := kv in
  34%N :: flat_map escape_char k ++ 34%N :: 58%N :: 32%N :: encode rt (S level) x.

Fixpoint members_tail (level : nat) (kvs : list (str * value)) (rest : str) : str :=
  match kvs with
  | [] => newline_indent level ++ 125%N :: rest
  | kv :: kvs' =>
    44%N :: newline_indent (S level) ++ member_text level kv
      ++ members_tail level kvs' rest
  end.

(** The statement proved for every term, by induction on its structure. *)
Definition read_back (v : value) : Prop :=
  forall level rest fuel,
    delimited rest = true ->
    (2 * List.length (encode rt level v ++ rest) < fuel)%nat ->
    scan_once fuel (encode rt level v ++ rest) = Some (canon v, rest).

(** Two states of the files with the same user-info file, written equally
    often. *)
Definition same_user_file (fs fs' : files) : Prop :=
  user_info_file fs' = user_info_file fs /\
  user_info_writes fs' = user_info_writes fs.

Definition keeps_user_file {A} (m : action A) : Prop :=
  forall w, same_user_file (fst w) (fst (snd (m w))).

(** The birthday that [update_birthday] accepts: three '-'-separated
    integers, the year from 1900 to the current one, the month from 1 to
    12, the day from 1 to 31. *)
Definition acceptable_birthday (today : date) (b : str) : Prop :=
  exists y m d,
    three_integer_fields b y m d /\
    1900 <= y <= year today /\ 1 <= m <= 12 /\ 1 <= d <= 31.

(** Each command leaves the files as they are or saves the loaded table
    with one field of the sender's record assigned. *)
Definition assigns (field : str) (ev : event) (x : str) (fs fs' : files) : Prop :=
  exists all_user_info,
    py_contains (sender_id ev) (load_user_info fs) = Ok true /\
    py_setitem2 (load_user_info fs) (sender_id ev) field (VStr x)
    = Ok all_user_info /\
    fs' = save_user_info rt all_user_info fs.

(** The replies that report a failure. *)
Inductive error_reply : message -> Prop :=
| err_not_registered :
    error_reply not_registered
| err_birthday_format e :
    error_reply (WithError (u "生日格式不正确，请使用 YYYY-MM-DD 格式: ") e)
| err_gender :
    error_reply (Plain (u "性别必须是: " ++ join (u ", ") valid_genders))
| err_failed text e :
    error_reply (WithError text e).

(** C2 as it was stated: seen from a day of 2024, the birthday 2000-02-01
    gives 24 strictly after February 1 and less on or before it. *)
Definition age_24_strictly_after_feb_1 : Prop :=
  forall m d,
    if tuple_ltb (2, 1) (m, d)
    then calculate_age rt (in_2024 m d) feb_1_2000 = 24
    else calculate_age rt (in_2024 m d) feb_1_2000 < 24.


(** C7 as it was stated: every stored birthday is the sentinel or an ISO
    date. *)
Definition parsed_birthday_is_iso : Prop :=
  forall stranger_info b,
    parse_birthday rt stranger_info = Ok b -> b = unknown \/ iso_date b = true.

Definition accepted_birthday_is_iso : Prop :=
  forall ev b fs,
    snd (update_birthday rt ev b fs) <> fs -> iso_date b = true.

(** ** Further notions *)

(** The day [a] is not later than the day [b]. *)
Definition date_leb (a b : date) : bool :=
  (year a <? year b)
  || ((year a =? year b) && negb (tuple_ltb (month b, day b) (month a, day a))).

(** The same day one year later. *)
Definition a_year_later (a : date) : date :=
  {| year := year a + 1; month := month a; day := day a |}.

(** The fields [get_qq_user_info] starts from. *)
Definition base_record (ev : event) (qq_number : str) (update_user_info : bool)
  : dict :=
  [(u "qq_number", VStr qq_number); (u "timestamp", VInt (timestamp ev))]
    ++ (if update_user_info then [(u "nickname", VStr (sender_name ev))] else []).

(** The texts a gender is stored as. *)
Definition gender_texts : list str := [u "男"; u "女"; u "未知"].

(** The same message, sent outside of any group. *)
Definition in_private (ev : event) : event :=
  {| platform_name := platform_name ev;
     aiocqhttp_event := aiocqhttp_event ev;
     sender_id := sender_id ev;
     sender_name := sender_name ev;
     group_id := [];
     timestamp := timestamp ev;
     now := now ev;
     now_iso := now_iso ev;
     stranger_info_reply := stranger_info_reply ev;
     group_member_info_reply := group_member_info_reply ev |}.

(** The table [d] after the assignment [d[id][field] = x], where [r] is
    the record of [id]. *)
Definition assigned (d : dict) (id : str) (r : dict) (field x : str) : value :=
  VDict (dict_set id (VDict (dict_set field (VStr x) r)) d).

(** The files after that table was saved. *)
Definition edited (fs : files) (d : dict) (id : str) (r : dict) (field x : str)
  : files :=
  save_user_info rt (assigned d id r field x) fs.

(** [d.get(key, default)] on a dict. *)
Definition get_or (key : str) (default : value) (d : dict) : value :=
  match dict_get key d with
  | Some v => v
  | None => default
  end.

(** [user_info.get(key, '未知')] on a record. *)
Definition field_or_unknown (key : str) (r : dict) : value :=
  match dict_get key r with
  | Some v => v
  | None => VStr unknown
  end.

(** The parts of a prompt: the two that identify the user, the gender
    part, which is absent for the sentinel, and the birthday part. *)
Definition identity_parts (d : dict) : list str :=
  [u "用户QQ号: " ++ py_str rt (field_or_unknown (u "qq_number") d);
   u "昵称: " ++ py_str rt (field_or_unknown (u "nickname") d)].

Definition gender_parts (d : dict) : list str :=
  if negb (eq_str (get_or (u "gender") VNone d) unknown)
  then [u "性别: " ++ py_str rt (get_or (u "gender") VNone d)]
  else [].

Definition birthday_part (d : dict) : str :=
  u "生日: " ++ py_str rt (field_or_unknown (u "birthday") d).

(** An action that leaves a part of the world as it was, also when it
    raises. *)
Definition leaves {A B} (part : world -> B) (m : action A) : Prop :=
  forall w, part (snd (m w)) = part w.

Definition the_request (w : world) : request := snd w.
Definition the_files (w : world) : files := fst w.
Definition the_group_file (w : world) : file := group_info_file (fst w).

(** An object that is not a dict. *)
Definition not_a_dict (v : value) : Prop := forall d, v <> VDict d.

(** Two events that differ at most in the sender's name, the time stamp
    and what the platform answers. *)
Definition same_message (ev ev' : event) : Prop :=
  platform_name ev' = platform_name ev /\
  sender_id ev' = sender_id ev /\
  group_id ev' = group_id ev /\
  now ev' = now ev /\
  now_iso ev' = now_iso ev.

(** [req.system_prompt or ""] *)
Definition original_prompt (req : request) : value :=
  if truthy rt (system_prompt req) then system_prompt req else VStr [].

(** The table the hook works on: the loaded one, or the loaded one with
    the record of the new sender. *)
Definition table_of_hook (ev : event) (fs : files) (table : value) : Prop :=
  table = load_user_info fs \/
  py_setitem (load_user_info fs) (sender_id ev)
    (VDict (get_qq_user_info rt ev (sender_id ev) true)) = Ok table.

(** The record of the sender the hook goes on with: the stored one, or
    the one built for a new sender. *)
Definition sender_record (ev : event) (d : dict) : value :=
  match dict_get (sender_id ev) d with
  | Some v => v
  | None => VDict (get_qq_user_info rt ev (sender_id ev) true)
  end.

(** The table the hook goes on with. *)
Definition table_with_sender (ev : event) (d : dict) : dict :=
  match dict_get (sender_id ev) d with
  | Some _ => d
  | None =>
    dict_set (sender_id ev) (VDict (get_qq_user_info rt ev (sender_id ev) true)) d
  end.

(** The entry of the group file for a sender with record [r]. *)
Definition group_record (ev : event) (r : dict) : value :=
  VDict [(u "qq_number", VStr (sender_id ev));
         (u "group_id", VStr (group_id ev));
         (u "group_role", get_or (u "group_role") (VStr (u "member")) r);
         (u "group_title", get_or (u "group_title") (VStr no_title) r);
         (u "nickname", field_or_unknown (u "nickname") r);
         (u "timestamp", VStr (now_iso ev))].

(** The group table the hook saves: the loaded table [g] with the entry
    of the sender, whose record is [r], assigned among the [members] of
    the group. *)
Definition group_table (ev : event) (g members r : dict) : value :=
  VDict (dict_set (group_id ev)
           (VDict (dict_set (sender_id ev) (group_record ev r) members)) g).

(** The members recorded for a group so far. *)
Definition members_of (gid : str) (g : dict) : option dict :=
  match dict_get gid g with
  | None => Some []
  | Some (VDict members) => Some members
  | Some _ => None
  end.

(** Every non-empty nickname stored in the table can stand in a
    placeholder: printed, it is a non-empty text without ']'. *)
Definition writable_nicknames (t : dict) : Prop :=
  forall id r v,
    dict_get id t = Some (VDict r) ->
    dict_get (u "nickname") r = Some v ->
    truthy rt v = true ->
    py_str rt v <> [] /\
    forallb (fun c => negb (c =? 93)%N) (py_str rt v) = true.

(** The record stored under an id in the persisted user-info table. *)
Definition record_of (id : str) (fs : files) : option value :=
  match load_user_info fs with
  | VDict d => dict_get id d
  | _ => None
  end.

(** The sender of the message an operation handles. *)
Definition sender_of (o : operation) : str :=
  match o with
  | OnLlmRequest ev _ => sender_id ev
  | UpdateNickname ev _ => sender_id ev
  | UpdateBirthday ev _ => sender_id ev
  | UpdateGender ev _ => sender_id ev
  end.

(** Every string of the object, the keys of its dicts included, and the
    text of every float can be encoded in UTF-8: none holds a surrogate
    code point. *)
Fixpoint storable (v : value) : bool :=
  match v with
  | VStr s => encodable s
  | VFloat x => encodable (float_json rt x)
  | VList xs => forallb storable xs
  | VDict kvs => forallb (fun kv => encodable (fst kv) && storable (snd kv)) kvs
  | _ => true
  end.

(** The texts an operation brings can be encoded: the id of the sender and
    the record built for a new sender, or the new value of a command. *)
Definition writable (o : operation) : bool :=
  match o with
  | OnLlmRequest ev _ =>
    encodable (sender_id ev)
    && storable (VDict (get_qq_user_info rt ev (sender_id ev) true))
  | UpdateNickname _ x | UpdateBirthday _ x | UpdateGender _ x => encodable x
  end.

(** The text a file has taken from a sequence of pieces. *)
Definition written (chunks : list str) : str := fst (write_all chunks).

(** The statement proved for every term that cannot be written whole:
    what the file has taken of it is not a JSON term. *)
Definition unread (v : value) : Prop :=
  readable v -> storable v = false ->
  forall level fuel,
    scan_once fuel (skip_ws (written (iterencode rt level v))) = None.

(** * Properties *)

(** ** Strings and dictionaries *)

Lemma str_eqb_refl (s : str) : str_eqb s s = true.
Proof.
  induction s as [|c s IH]; simpl; [reflexivity|].
  now rewrite N.eqb_refl.
Qed.

Lemma str_eqb_eq (a b : str) : str_eqb a b = true <-> a = b.
Proof.
  split.
  - revert b. induction a as [|x a IH]; intros [|y b]; simpl; try discriminate; auto.
    intros H. apply andb_true_iff in H as [Hx Hs].
    apply N.eqb_eq in Hx. f_equal; auto.
  - intros ->. apply str_eqb_refl.
Qed.

Lemma str_eqb_neq (a b : str) : str_eqb a b = false <-> a <> b.
Proof.
  rewrite <- str_eqb_eq. destruct (str_eqb a b); split; congruence.
Qed.

(** ** Age computation *)

Lemma unknown_not_three_fields y m d : ~ three_integer_fields unknown y m d.
Proof.
  intros (p0 & p1 & p2 & Hs & _). vm_compute in Hs. discriminate.
Qed.

Lemma calculate_age_malformed today b :
  (b = unknown \/ ~ exists y m d, three_integer_fields b y m d) ->
  calculate_age rt today (VStr b) = 0.
Proof.
  intros [-> | Hno].
  - unfold calculate_age. cbn [eq_str]. now rewrite str_eqb_refl.
  - unfold calculate_age. cbn [eq_str].
    destruct (str_eqb b unknown); [reflexivity|].
    cbn [py_split]. cbn [bind].
    destruct (split dash b) as [|p0 [|p1 [|p2 [|p3 ps]]]] eqn:Hs; try reflexivity.
    destruct (py_int rt p0) as [y|] eqn:H0; [|reflexivity].
    destruct (py_int rt p1) as [m|] eqn:H1; [|reflexivity].
    destruct (py_int rt p2) as [d|] eqn:H2; [|reflexivity].
    exfalso. apply Hno. exists y, m, d, p0, p1, p2. auto.
Qed.

Lemma calculate_age_wellformed today b y m d :
  three_integer_fields b y m d ->
  calculate_age rt today (VStr b)
  = year today - y - (if tuple_ltb (month today, day today) (m, d) then 1 else 0).
Proof.
  intros Hf.
  assert (Hne : str_eqb b unknown = false).
  { apply str_eqb_neq. intros ->. exact (unknown_not_three_fields _ _ _ Hf). }
  destruct Hf as (p0 & p1 & p2 & Hs & H0 & H1 & H2).
  unfold calculate_age. cbn [eq_str]. rewrite Hne.
  cbn [py_split]. cbn [bind]. rewrite Hs, H0. cbn [bind]. rewrite H1. cbn [bind].
  rewrite H2. cbn [bind try_except].
  destruct (tuple_ltb _ _); lia.
Qed.

Lemma has_age_part_app a b :
  has_age_part (a ++ b) = has_age_part a || has_age_part b.
Proof. apply existsb_app. Qed.

Lemma other_label_cons c s ps :
  (c =? 24180)%N = false -> has_age_part ((c :: s) :: ps) = has_age_part ps.
Proof.
  intros Hc. unfold has_age_part. cbn [existsb].
  change age_label with (24180%N :: [40836; 58; 32]%N).
  cbn [strip_prefix]. rewrite N.eqb_sym, Hc. reflexivity.
Qed.

Lemma group_parts_no_age user_info parts :
  group_parts rt user_info = Ok parts -> has_age_part parts = false.
Proof.
  unfold group_parts. intros H.
  destruct (py_get user_info (u "group_role") VNone) as [role|]; [|discriminate].
  cbn [bind] in H.
  destruct (truthy rt role).
  - destruct (get_group_role_text role) as [t|]; [|discriminate].
    cbn [bind] in H.
    destruct (py_get user_info (u "group_title") (VStr [])) as [title|]; [|discriminate].
    cbn [bind] in H. injection H as <-.
    destruct (truthy rt title && negb (eq_str title no_title)); reflexivity.
  - cbn [bind] in H.
    destruct (py_get user_info (u "group_title") (VStr [])) as [title|]; [|discriminate].
    cbn [bind] in H. injection H as <-.
    destruct (truthy rt title && negb (eq_str title no_title)); reflexivity.
Qed.

Lemma prompt_parts_age today user_info is_group parts birthday :
  py_get user_info (u "birthday") (VStr unknown) = Ok birthday ->
  prompt_parts rt today user_info is_group = Ok parts ->
  has_age_part parts = has_age_part (age_part rt today birthday).
Proof.
  unfold prompt_parts. intros Hb H.
  destruct (py_get user_info (u "qq_number") (VStr unknown)) as [qq|]; [|discriminate].
  cbn [bind] in H.
  destruct (py_get user_info (u "nickname") (VStr unknown)) as [nick|]; [|discriminate].
  cbn [bind] in H.
  destruct (py_get user_info (u "gender") VNone) as [gender|]; [|discriminate].
  cbn [bind] in H. rewrite Hb in H. cbn [bind] in H.
  destruct (if is_group then group_parts rt user_info else Ok []) as [group|] eqn:Hg;
    [|discriminate].
  cbn [bind] in H. injection H as <-.
  assert (Hgrp : has_age_part group = false).
  { destruct is_group.
    - eapply group_parts_no_age; eauto.
    - injection Hg as <-. reflexivity. }
  destruct (negb (eq_str gender unknown));
    repeat (rewrite has_age_part_app || rewrite other_label_cons by reflexivity);
    rewrite Hgrp; cbn [has_age_part existsb orb]; apply orb_false_r.
Qed.

(** C1. A birthday that is the sentinel or does not split on '-' into
    exactly three integer fields has age 0 and contributes no age part to
    the formatted prompt; any other birthday has age
    [current_year - birth_year], less one exactly when
    [(current_month, current_day) < (birth_month, birth_day)]. *)
Theorem calculate_age_policy (today : date) (b : str) :
  ((b = unknown \/ ~ exists y m d, three_integer_fields b y m d) ->
     calculate_age rt today (VStr b) = 0 /\
     forall user_info is_group parts,
       dict_get (u "birthday") user_info = Some (VStr b) ->
       prompt_parts rt today (VDict user_info) is_group = Ok parts ->
       has_age_part parts = false /\
       format_user_info_for_prompt rt today (VDict user_info) is_group
       = Ok (join (u "，") parts)) /\
  (forall y m d, three_integer_fields b y m d ->
     calculate_age rt today (VStr b)
     = year today - y
       - (if tuple_ltb (month today, day today) (m, d) then 1 else 0)).
Proof.
  split.
  - intros Hbad. pose proof (calculate_age_malformed today b Hbad) as H0.
    split; [exact H0|].
    intros user_info is_group parts Hget Hparts. split.
    + rewrite (prompt_parts_age today (VDict user_info) is_group parts (VStr b)); auto.
      * unfold age_part. rewrite H0. now destruct (negb _).
      * simpl. now rewrite Hget.
    + unfold format_user_info_for_prompt. now rewrite Hparts.
  - intros y m d. apply calculate_age_wellformed.
Qed.

(** C2 (amended). In both variants, birthday "2000-01-01" seen from
    2024-06-01 gives 24; the birthday 2000-02-01 seen from a day of 2024
    gives 24 on and after February 1 and 23 before it. *)
Theorem calculate_age_examples :
  calculate_age rt (in_2024 6 1) (VStr (u "2000-01-01")) = 24 /\
  Old.calculate_age rt (in_2024 6 1) (VStr (u "2000-01-01")) = 24 /\
  forall m d,
    calculate_age rt (in_2024 m d) feb_1_2000
    = (if tuple_ltb (m, d) (2, 1) then 23 else 24) /\
    Old.calculate_age rt (in_2024 m d) feb_1_2000
    = (if tuple_ltb (m, d) (2, 1) then 23 else 24).
Proof.
  split; [reflexivity|]. split; [reflexivity|].
  intros m d. change (Old.calculate_age rt) with (calculate_age rt).
  unfold feb_1_2000.
  rewrite (calculate_age_wellformed (in_2024 m d) (u "2000-02-01") 2000 2 1).
  - cbn [year month day in_2024]. destruct (tuple_ltb _ _); split; reflexivity.
  - exists (u "2000"), (u "02"), (u "01"). repeat split; reflexivity.
Qed.

(** C4. The three helpers shared by the two variants agree on every
    input. *)
Theorem helpers_agree :
  (forall today birthday,
     Old.calculate_age rt today birthday = calculate_age rt today birthday) /\
  (forall stranger_info,
     Old.parse_birthday rt stranger_info = parse_birthday rt stranger_info) /\
  (forall gender, Old.get_gender_text gender = get_gender_text gender).
Proof. repeat split. Qed.

(** ** Placeholder matching *)

Lemma strip_prefix_app (p r : str) : strip_prefix p (p ++ r) = Some r.
Proof.
  induction p as [|x p IH]; simpl; [reflexivity|].
  now rewrite N.eqb_refl.
Qed.

Lemma strip_prefix_some (p s r : str) : strip_prefix p s = Some r -> s = p ++ r.
Proof.
  revert s. induction p as [|x p IH]; intros s H; simpl in H.
  - now injection H as ->.
  - destruct s as [|y s]; [discriminate|].
    destruct (x =? y)%N eqn:E; [|discriminate].
    apply N.eqb_eq in E. subst y. simpl. f_equal. auto.
Qed.

Lemma plus_sound {R} a (k : str -> str -> option R) s x :
  plus rt a k s = Some x ->
  exists cap rest,
    cap <> [] /\ s = cap ++ rest /\ forallb (class_match rt a) cap = true /\
    k cap rest = Some x.
Proof.
  revert k. induction s as [|c s IH]; intros k H; simpl in H; [discriminate|].
  destruct (class_match rt a c) eqn:Hc; [|discriminate].
  destruct (plus rt a (fun cap rest => k (c :: cap) rest) s) as [y|] eqn:Hp.
  - injection H as ->.
    apply IH in Hp as (cap & rest & Hne & -> & Hall & Hk).
    exists (c :: cap), rest. repeat split; auto; try discriminate.
    simpl. now rewrite Hc.
  - exists [c], s. repeat split; auto; try discriminate.
    simpl. now rewrite Hc.
Qed.

(** A run that cannot be extended is the greedy choice. *)
Lemma plus_greedy {R} a (k : str -> str -> option R) cap rest x :
  cap <> [] ->
  forallb (class_match rt a) cap = true ->
  match rest with [] => True | c :: _ => class_match rt a c = false end ->
  k cap rest = Some x ->
  plus rt a k (cap ++ rest) = Some x.
Proof.
  intros Hne Hall Hstop. revert k.
  induction cap as [|c cap IH]; intros k Hk; [congruence|].
  simpl in Hall. apply andb_true_iff in Hall as [Hc Hall].
  simpl. rewrite Hc.
  destruct cap as [|c' cap].
  - simpl.
    assert (Hnone : forall k', plus rt a k' rest = @None R).
    { intros k'. destruct rest as [|d rest]; simpl; [reflexivity|]. now rewrite Hstop. }
    now rewrite Hnone.
  - rewrite (IH ltac:(discriminate) Hall (fun cap0 rest0 => k (c :: cap0) rest0) Hk).
    reflexivity.
Qed.

Lemma comma_not_decimal : is_decimal rt 44%N = false.
Proof. reflexivity. Qed.

Lemma match_placeholder_complete id nick rest :
  valid_placeholder id nick ->
  match_items rt placeholder_pattern (placeholder id nick ++ rest)
  = Some ([id; nick], rest).
Proof.
  intros (Hid & Hdig & Hnick & Hnb).
  unfold placeholder_pattern, placeholder. cbn [match_items].
  rewrite <- !app_assoc. rewrite strip_prefix_app.
  apply plus_greedy; auto.
  - reflexivity.
  - rewrite strip_prefix_app.
    rewrite (plus_greedy (Except 93%N) _ nick (u "]" ++ rest) ([nick], rest)); auto.
    reflexivity.
Qed.

Lemma match_placeholder_sound s caps rest :
  match_items rt placeholder_pattern s = Some (caps, rest) ->
  exists id nick,
    caps = [id; nick] /\ valid_placeholder id nick /\
    s = placeholder id nick ++ rest.
Proof.
  unfold placeholder_pattern. cbn [match_items]. intros H.
  destruct (strip_prefix (u "[User ID: ") s) as [s1|] eqn:H1; [|discriminate].
  apply strip_prefix_some in H1. subst s.
  apply plus_sound in H as (id & r1 & Hid & -> & Hdig & H).
  destruct (strip_prefix (u ", Nickname: ") r1) as [s2|] eqn:H2; [|discriminate].
  apply strip_prefix_some in H2. subst r1.
  destruct (plus rt (Except 93%N) _ s2) as [[caps2 r2]|] eqn:H3; [|discriminate].
  injection H as <- <-.
  apply plus_sound in H3 as (nick & r3 & Hnick & -> & Hnb & H3).
  destruct (strip_prefix (u "]") r3) as [s4|] eqn:H4; [|discriminate].
  apply strip_prefix_some in H4. subst r3.
  injection H3 as <- <-.
  exists id, nick. repeat split; auto.
  unfold placeholder. now rewrite <- !app_assoc.
Qed.

Lemma tokenized_concat s segs : tokenized s segs -> s = concat (map render segs).
Proof.
  induction 1; simpl; congruence.
Qed.

Lemma placeholder_length id nick :
  (0 < List.length (placeholder id nick))%nat.
Proof. unfold placeholder. rewrite length_app. simpl. lia. Qed.

Lemma tokenized_total s : exists segs, tokenized s segs.
Proof.
  remember (List.length s) as n eqn:Hn. revert s Hn.
  induction n as [n IH] using lt_wf_ind. intros s Hn.
  destruct (match_items rt placeholder_pattern s) as [[caps rest]|] eqn:Hm.
  - apply match_placeholder_sound in Hm as (id & nick & -> & Hv & ->).
    destruct (IH (List.length rest)) with (s := rest) as [segs Hsegs]; auto.
    { subst n. rewrite length_app. pose proof (placeholder_length id nick). lia. }
    exists (Token id nick :: segs). now constructor.
  - destruct s as [|c s].
    + exists []. constructor.
    + destruct (IH (List.length s)) with (s := s) as [segs Hsegs]; auto.
      { subst n. simpl. lia. }
      exists (Gap c :: segs). constructor; auto.
      intros (id & nick & rest & Hv & Heq).
      rewrite Heq, (match_placeholder_complete id nick rest Hv) in Hm. discriminate.
Qed.

Lemma sub_loop_tokenized repl f s segs :
  tokenized s segs ->
  (forall id nick, In (Token id nick) segs ->
     repl (placeholder id nick) [id; nick] = Ok (f id nick)) ->
  forall fuel, (List.length s < fuel)%nat ->
  sub_loop rt fuel placeholder_pattern repl s
  = Ok (concat (map (substituted f) segs)).
Proof.
  induction 1 as [|c s segs Hno Htok IH|id nick rest segs Hv Htok IH];
    intros Hrepl fuel Hfuel.
  - destruct fuel; [simpl in Hfuel; lia|]. reflexivity.
  - destruct fuel; [simpl in Hfuel; lia|]. cbn [sub_loop].
    destruct (match_items rt placeholder_pattern (c :: s)) as [[caps rest]|] eqn:Hm.
    + exfalso. apply Hno.
      apply match_placeholder_sound in Hm as (id & nick & _ & Hv & Heq).
      now exists id, nick, rest.
    + rewrite IH.
      * reflexivity.
      * intros id nick Hin. apply Hrepl. now right.
      * simpl in Hfuel. lia.
  - destruct fuel; [simpl in Hfuel; lia|]. cbn [sub_loop].
    rewrite (match_placeholder_complete id nick rest Hv).
    rewrite length_app, Nat.add_sub, firstn_app, Nat.sub_diag, firstn_all.
    cbn [firstn]. rewrite app_nil_r.
    rewrite Hrepl by now left. cbn [bind].
    pose proof (placeholder_length id nick) as Hlen.
    destruct (List.length (placeholder id nick)) as [|n] eqn:Hn; [lia|].
    rewrite IH.
    + reflexivity.
    + intros id' nick' Hin. apply Hrepl. now right.
    + rewrite length_app, Hn in Hfuel. lia.
Qed.

Lemma re_sub_tokenized repl f s segs :
  tokenized s segs ->
  (forall id nick, In (Token id nick) segs ->
     repl (placeholder id nick) [id; nick] = Ok (f id nick)) ->
  re_sub rt placeholder_pattern repl s = Ok (concat (map (substituted f) segs)).
Proof.
  intros Htok Hrepl. unfold re_sub. apply sub_loop_tokenized; auto.
Qed.

(** More fuel than [re_sub] gives itself never changes the result. *)
Lemma sub_loop_fuel p repl fuel :
  forall s, (List.length s < fuel)%nat ->
            sub_loop rt (S fuel) p repl s = sub_loop rt fuel p repl s.
Proof.
  induction fuel as [|fuel IH]; intros s Hlen; [lia|].
  change (sub_loop rt (S (S fuel)) p repl s) with
    (match match_items rt p s with
     | Some (caps, rest) =>
       let n := (List.length s - List.length rest)%nat in
       r <- repl (firstn n s) caps ;;
       match n, s with
       | O, c :: s' => out <- sub_loop rt (S fuel) p repl s' ;; Ok (r ++ c :: out)
       | O, [] => Ok r
       | _, _ => out <- sub_loop rt (S fuel) p repl rest ;; Ok (r ++ out)
       end
     | None =>
       match s with
       | [] => Ok []
       | c :: s' => out <- sub_loop rt (S fuel) p repl s' ;; Ok (c :: out)
       end
     end).
  change (sub_loop rt (S fuel) p repl s) with
    (match match_items rt p s with
     | Some (caps, rest) =>
       let n := (List.length s - List.length rest)%nat in
       r <- repl (firstn n s) caps ;;
       match n, s with
       | O, c :: s' => out <- sub_loop rt fuel p repl s' ;; Ok (r ++ c :: out)
       | O, [] => Ok r
       | _, _ => out <- sub_loop rt fuel p repl rest ;; Ok (r ++ out)
       end
     | None =>
       match s with
       | [] => Ok []
       | c :: s' => out <- sub_loop rt fuel p repl s' ;; Ok (c :: out)
       end
     end).
  destruct (match_items rt p s) as [[caps rest]|].
  - cbv zeta.
    destruct (repl (firstn (List.length s - List.length rest) s) caps) as [r|e];
      [|reflexivity].
    cbn [bind].
    destruct (List.length s - List.length rest)%nat as [|n] eqn:Hn.
    + destruct s as [|c s']; [reflexivity|].
      rewrite IH by (cbn [List.length] in Hlen; lia). reflexivity.
    + rewrite IH by lia. reflexivity.
  - destruct s as [|c s']; [reflexivity|].
    rewrite IH by (cbn [List.length] in Hlen; lia). reflexivity.
Qed.

(** ** Nickname rewriting *)

Lemma eq_str_true v s : eq_str v s = true <-> v = VStr s.
Proof.
  destruct v; simpl; try (split; [discriminate|intros H; discriminate H]).
  rewrite str_eqb_eq. split; [now intros ->|now intros [= ->]].
Qed.

Lemma update_segment_rewritten t g :
  records_are_dicts t -> rewritten t g (update_segment t g).
Proof.
  intros Hrec. destruct g as [c|id nick]; [constructor|].
  unfold update_segment, latest_nickname.
  destruct (dict_get id t) as [v|] eqn:Hid; [|now constructor].
  destruct (Hrec id v Hid) as [r ->].
  destruct (dict_get (u "nickname") r) as [v|] eqn:Hn;
    [|now apply rw_no_nickname with r].
  destruct (eq_str v nick) eqn:He.
  - apply eq_str_true in He. subst v. now apply rw_same with r.
  - destruct (truthy rt v) eqn:Ht.
    + apply rw_new with r; auto.
      intros Hv. apply eq_str_true in Hv. congruence.
    + now apply rw_empty_nickname with r v.
Qed.

Lemma replace_callback_cases t id nick whole :
  records_are_dicts t ->
  replace_callback rt (VDict t) whole [id; nick] = Ok whole
    /\ latest_nickname t id nick = nick
  \/ replace_callback rt (VDict t) whole [id; nick]
     = Ok (placeholder id (latest_nickname t id nick)).
Proof.
  intros Hrec.
  unfold replace_callback, latest_nickname. cbn [nth py_get bind].
  destruct (dict_get id t) as [v|] eqn:Hid; [|now left].
  destruct (Hrec id v Hid) as [r ->].
  destruct r as [|kv r]; [now left|].
  cbn [truthy py_get bind].
  destruct (dict_get (u "nickname") (kv :: r)) as [v|] eqn:Hn.
  - destruct (eq_str v nick); [now left|].
    destruct (truthy rt v); [now right|now left].
  - destruct (eq_str (VStr []) nick); [now left|].
    cbn [truthy]. now left.
Qed.

Lemma replace_callback_dict t id nick :
  records_are_dicts t ->
  replace_callback rt (VDict t) (placeholder id nick) [id; nick]
  = Ok (placeholder id (latest_nickname t id nick)).
Proof.
  intros Hrec.
  destruct (replace_callback_cases t id nick (placeholder id nick) Hrec)
    as [[H1 H2]|H]; [|exact H].
  now rewrite H2.
Qed.

Lemma replace_tokenized t s segs :
  records_are_dicts t ->
  tokenized s segs ->
  replace_nickname_in_context rt (VDict t) (VStr s)
  = VStr (concat (map render (map (update_segment t) segs))).
Proof.
  intros Hrec Htok.
  assert (Hsub : re_sub rt placeholder_pattern (replace_callback rt (VDict t)) s
                 = Ok (concat (map render (map (update_segment t) segs)))).
  { rewrite (re_sub_tokenized _
               (fun id nick => placeholder id (latest_nickname t id nick)) s segs Htok).
    - f_equal. f_equal. rewrite map_map. apply map_ext. now intros [c|id nick].
    - intros id nick _. now apply replace_callback_dict. }
  unfold replace_nickname_in_context.
  destruct (negb (truthy rt (VDict t)) || negb (truthy rt (VStr s))) eqn:Hskip.
  - (* an empty table or an empty text: nothing is looked up *)
    f_equal. rewrite (tokenized_concat s segs Htok) at 1.
    f_equal. f_equal. symmetry.
    rewrite <- (map_id segs) at 2. apply map_ext_in.
    intros [c|id nick] Hin; [reflexivity|]. cbn [update_segment].
    destruct t as [|kv t]; [reflexivity|].
    destruct s as [|c s]; [|discriminate Hskip].
    exfalso. inversion Htok; subst. contradiction Hin.
  - now rewrite Hsub.
Qed.

(** C3 (amended). The text is cut from left to right into placeholders
    [[User ID: digits, Nickname: text-without-]]] and the characters
    between them.  A placeholder keeps its id and gets the nickname stored
    in the table under that id when that nickname is non-empty and differs;
    it is unchanged when there is no record, when the stored nickname is the
    same, and when the stored nickname is absent or empty.  The characters
    between placeholders are unchanged. *)
Theorem replace_nickname_in_context_spec (t : dict) (s : str) :
  records_are_dicts t ->
  exists segs segs' : list segment,
    tokenized s segs /\
    Forall2 (rewritten t) segs segs' /\
    replace_nickname_in_context rt (VDict t) (VStr s)
    = VStr (concat (map render segs')).
Proof.
  intros Hrec.
  destruct (tokenized_total s) as [segs Htok].
  exists segs, (map (update_segment t) segs). repeat split; auto.
  - clear Htok. induction segs as [|g segs IH]; constructor; auto.
    now apply update_segment_rewritten.
  - now apply replace_tokenized.
Qed.

(** C9. An empty table or an empty text gives the text back; and a
    placeholder whose record stores no nickname, or the empty one, is
    returned as it was matched, so a text all of whose records are of this
    kind is unchanged. *)
Theorem replace_nickname_edge_cases :
  (forall table pre_text,
     truthy rt table = false ->
     replace_nickname_in_context rt table pre_text = pre_text) /\
  (forall table, replace_nickname_in_context rt table (VStr []) = VStr []) /\
  (forall t id nick r whole,
     dict_get id t = Some (VDict r) ->
     dict_get (u "nickname") r = None \/ dict_get (u "nickname") r = Some (VStr []) ->
     replace_callback rt (VDict t) whole [id; nick] = Ok whole) /\
  (forall t s,
     (forall id v, dict_get id t = Some v ->
        exists r, v = VDict r /\
          (dict_get (u "nickname") r = None \/
           dict_get (u "nickname") r = Some (VStr []))) ->
     replace_nickname_in_context rt (VDict t) (VStr s) = VStr s).
Proof.
  repeat split.
  - intros table pre_text Hempty. unfold replace_nickname_in_context.
    now rewrite Hempty.
  - intros table. unfold replace_nickname_in_context. cbn [truthy negb].
    now rewrite orb_true_r.
  - intros t id nick r whole Hid Hnick.
    unfold replace_callback. cbn [nth py_get bind]. rewrite Hid.
    destruct r as [|kv r]; [reflexivity|]. cbn [truthy py_get bind].
    destruct Hnick as [-> | ->].
    + destruct (eq_str (VStr []) nick); reflexivity.
    + destruct (eq_str (VStr []) nick); reflexivity.
  - intros t s Hall.
    assert (Hrec : records_are_dicts t).
    { intros id v Hid. destruct (Hall id v Hid) as (r & -> & _). now exists r. }
    destruct (tokenized_total s) as [segs Htok].
    rewrite (replace_tokenized t s segs Hrec Htok). f_equal.
    etransitivity; [|symmetry; apply (tokenized_concat s segs Htok)].
    f_equal. f_equal.
    rewrite <- (map_id segs) at 2. apply map_ext.
    intros [c|id nick]; [reflexivity|]. cbn [update_segment]. f_equal.
    unfold latest_nickname.
    destruct (dict_get id t) as [v|] eqn:Hid; [|reflexivity].
    destruct (Hall id v Hid) as (r & -> & [-> | ->]); [reflexivity|].
    destruct (eq_str (VStr []) nick); reflexivity.
Qed.

(** *** Strings *)

Lemma below_32 (Q : N -> Prop) :
  (forall n : nat, (n < 32)%nat -> Q (N.of_nat n)) ->
  forall c, (c < 32)%N -> Q c.
Proof.
  intros H c Hc. rewrite <- (N2Nat.id c). apply H. lia.
Qed.

Lemma scan_string_escape c tail :
  scan_string (escape_char c ++ tail) = push c (scan_string tail).
Proof.
  destruct (N.ltb_spec c 32) as [Hlt|Hge].
  - revert c Hlt tail. apply (below_32 (fun c => forall tail, _)).
    intros n Hn tail.
    do 32 (destruct n as [|n]; [reflexivity|]). lia.
  - unfold escape_char.
    destruct (N.eqb_spec c 34) as [->|H34]; [reflexivity|].
    destruct (N.eqb_spec c 92) as [->|H92]; [reflexivity|].
    destruct (N.eqb_spec c 10); [lia|].
    destruct (N.eqb_spec c 13); [lia|].
    destruct (N.eqb_spec c 9); [lia|].
    destruct (N.eqb_spec c 8); [lia|].
    destruct (N.eqb_spec c 12); [lia|].
    destruct (N.ltb_spec c 32); [lia|].
    change ([c] ++ tail) with (c :: tail). cbn [scan_string].
    destruct (N.eqb_spec c 34); [congruence|].
    destruct (N.eqb_spec c 92); [congruence|].
    destruct (N.leb_spec c 31); [lia|]. reflexivity.
Qed.

Lemma scan_string_encoded s rest :
  scan_string (flat_map escape_char s ++ 34%N :: rest) = Some (s, rest).
Proof.
  induction s as [|c s IH]; [reflexivity|].
  cbn [flat_map]. rewrite <- app_assoc, scan_string_escape, IH. reflexivity.
Qed.

Lemma delimited_cases rest :
  delimited rest = true ->
  rest = [] \/ exists r, rest = 44%N :: r \/ rest = 10%N :: r.
Proof.
  destruct rest as [|c r]; [now left|]. simpl. intros H. right. exists r.
  apply orb_true_iff in H as [H|H]; apply N.eqb_eq in H; subst; auto.
Qed.

Lemma uint_of_chars d : uint_of_digits (digit_values (chars_of_uint d)) = d.
Proof.
  unfold uint_of_digits, digit_values.
  induction d; simpl; congruence.
Qed.

Lemma take_digits_uint d rest :
  delimited rest = true ->
  take_digits (chars_of_uint d ++ rest) = (chars_of_uint d, rest).
Proof.
  intros Hrest. induction d; simpl; rewrite ?IHd; try reflexivity.
  apply delimited_cases in Hrest as [->|[r [->| ->]]]; reflexivity.
Qed.

Lemma scan_fraction_delimited rest :
  delimited rest = true -> scan_fraction rest = ([], rest).
Proof.
  intros H. apply delimited_cases in H as [->|[r [->| ->]]]; try reflexivity;
    destruct r; reflexivity.
Qed.

Lemma scan_exponent_delimited rest :
  delimited rest = true -> scan_exponent rest = ([], rest).
Proof.
  intros H. apply delimited_cases in H as [->|[r [->| ->]]]; reflexivity.
Qed.

Lemma nzhead_not_D0 d d' : nzhead d <> D0 d'.
Proof. induction d; simpl; auto; discriminate. Qed.

Lemma to_uint_normal n : normal (N.to_uint n).
Proof.
  assert (H : unorm (N.to_uint n) = N.to_uint n).
  { rewrite <- DecimalN.Unsigned.to_of, DecimalN.Unsigned.of_to. reflexivity. }
  unfold normal. revert H.
  destruct (N.to_uint n) as [|d|d|d|d|d|d|d|d|d|d]; intros H; auto;
    try (vm_compute in H; discriminate H).
  left. unfold unorm in H. destruct (nzhead (D0 d)) eqn:E; try congruence.
  exfalso. exact (nzhead_not_D0 _ _ E).
Qed.

Lemma scan_int_part_uint d rest :
  normal d -> delimited rest = true ->
  scan_int_part (chars_of_uint d ++ rest) = Some (chars_of_uint d, rest).
Proof.
  intros [->|Hd] Hrest; [reflexivity|].
  destruct d; simpl in Hd; try contradiction;
    cbn [chars_of_uint List.app]; unfold scan_int_part;
    rewrite take_digits_uint by assumption; reflexivity.
Qed.

Lemma scan_number_natural n rest :
  delimited rest = true ->
  scan_number (str_of_N n ++ rest) = Some (VInt (Z.of_N n), rest).
Proof.
  intros Hrest. unfold scan_number, str_of_N.
  pose proof (to_uint_normal n) as Hn.
  assert (Hsign : scan_sign (chars_of_uint (N.to_uint n) ++ rest)
                  = ([], chars_of_uint (N.to_uint n) ++ rest)).
  { destruct Hn as [->|Hn]; [reflexivity|].
    destruct (N.to_uint n); simpl in Hn; try contradiction; reflexivity. }
  rewrite Hsign, scan_int_part_uint, scan_fraction_delimited,
    scan_exponent_delimited by assumption.
  unfold N_of_digits. rewrite uint_of_chars, DecimalN.Unsigned.of_to. reflexivity.
Qed.

Lemma scan_number_negative n rest :
  delimited rest = true ->
  scan_number (45%N :: str_of_N n ++ rest) = Some (VInt (- Z.of_N n), rest).
Proof.
  intros Hrest. unfold scan_number, str_of_N. cbn [scan_sign N.eqb Pos.eqb].
  rewrite scan_int_part_uint, scan_fraction_delimited,
    scan_exponent_delimited by (auto using to_uint_normal).
  unfold N_of_digits. rewrite uint_of_chars, DecimalN.Unsigned.of_to. reflexivity.
Qed.

Lemma str_of_N_head n :
  exists c t, str_of_N n = c :: t /\ ascii_digit c = true.
Proof.
  unfold str_of_N. destruct (to_uint_normal n) as [->|Hn].
  - now exists 48%N, [].
  - destruct (N.to_uint n); simpl in Hn; try contradiction;
      eexists _, _; split; reflexivity.
Qed.

Lemma strip_prefix_head lit c s :
  match lit with
  | p :: _ => (p =? c)%N = false
  | [] => False
  end ->
  strip_prefix lit (c :: s) = None.
Proof.
  destruct lit as [|p ps]; [contradiction|]. simpl. now intros ->.
Qed.

Lemma digit_not c p :
  ascii_digit c = true -> ascii_digit p = false -> (p =? c)%N = false.
Proof.
  intros Hc Hp. destruct (N.eqb_spec p c); [congruence|reflexivity].
Qed.

Lemma scan_atom_number s :
  match s with
  | c :: _ => ascii_digit c = true \/
              exists c' r, s = 45%N :: c' :: r /\ ascii_digit c' = true
  | [] => False
  end ->
  scan_atom s = scan_number s.
Proof.
  destruct s as [|c s]; [contradiction|].
  intros [Hc | (c' & r & [= -> ->] & Hc')]; unfold scan_atom.
  - rewrite !strip_prefix_head by (apply (digit_not _ _ Hc); reflexivity).
    reflexivity.
  - rewrite !strip_prefix_head by reflexivity.
    change (u "-Infinity") with (45%N :: 73%N :: u "nfinity").
    cbn [strip_prefix]. change (45 =? 45)%N with true. cbv iota.
    now rewrite (digit_not c' 73%N Hc').
Qed.

Lemma scan_atom_int z rest :
  delimited rest = true ->
  scan_atom (str_of_Z z ++ rest) = Some (VInt z, rest).
Proof.
  intros Hrest. unfold str_of_Z. destruct (Z.ltb_spec z 0).
  - destruct (str_of_N_head (Z.abs_N z)) as (c & t & Ht & Hc).
    rewrite scan_atom_number.
    + cbn [List.app]. rewrite scan_number_negative by assumption.
      do 2 f_equal. f_equal. lia.
    + cbn [List.app]. right. rewrite Ht. cbn [List.app]. now exists c, (t ++ rest).
  - destruct (str_of_N_head (Z.to_N z)) as (c & t & Ht & Hc).
    rewrite scan_atom_number.
    + rewrite scan_number_natural by assumption. do 2 f_equal. f_equal. lia.
    + rewrite Ht. cbn [List.app]. now left.
Qed.

(** *** Terms *)

Lemma scan_once_S fuel c r :
  scan_once (S fuel) (c :: r) =
  if (c =? 34)%N then
    match scan_string r with
    | Some (t, rest) => Some (VStr t, rest)
    | None => None
    end
  else if (c =? 123)%N then
    match skip_ws r with
    | c1 :: r1 =>
      if (c1 =? 125)%N then Some (VDict [], r1)
      else parse_members fuel (c1 :: r1) []
    | [] => None
    end
  else if (c =? 91)%N then
    match skip_ws r with
    | c1 :: r1 =>
      if (c1 =? 93)%N then Some (VList [], r1)
      else parse_elements fuel (c1 :: r1) []
    | [] => None
    end
  else scan_atom (c :: r).
Proof. reflexivity. Qed.

Lemma parse_elements_S fuel s acc :
  parse_elements (S fuel) s acc =
  match scan_once fuel s with
  | None => None
  | Some (val, r1) =>
    match skip_ws r1 with
    | [] => None
    | c :: r2 =>
      if (c =? 93)%N then Some (VList (acc ++ [val]), r2)
      else if (c =? 44)%N then parse_elements fuel (skip_ws r2) (acc ++ [val])
      else None
    end
  end.
Proof. reflexivity. Qed.

Lemma parse_members_S fuel q r acc :
  parse_members (S fuel) (q :: r) acc =
  if (q =? 34)%N then
    match scan_string r with
    | None => None
    | Some (key, r1) =>
      match skip_ws r1 with
      | [] => None
      | colon :: r2 =>
        if (colon =? 58)%N then
          match scan_once fuel (skip_ws r2) with
          | None => None
          | Some (val, r3) =>
            match skip_ws r3 with
            | [] => None
            | c :: r4 =>
              if (c =? 125)%N then Some (VDict (dict_set key val acc), r4)
              else if (c =? 44)%N
                   then parse_members fuel (skip_ws r4) (dict_set key val acc)
                   else None
            end
          end
        else None
      end
    end
  else None.
Proof. reflexivity. Qed.

Lemma skip_ws_indent level s : skip_ws (newline_indent level ++ s) = skip_ws s.
Proof.
  unfold newline_indent. cbn [List.app skip_ws json_space].
  change ((10 =? 32) || (10 =? 9) || (10 =? 10) || (10 =? 13))%N with true.
  cbv iota. induction (2 * level)%nat as [|n IH]; [reflexivity|].
  cbn [repeat List.app skip_ws]. exact IH.
Qed.

Lemma skip_ws_start c s : json_space c = false -> skip_ws (c :: s) = c :: s.
Proof. intros H. cbn [skip_ws]. now rewrite H. Qed.

Lemma float_start x :
  readable_float x ->
  exists c t, float_json rt x = c :: t /\ term_start c = true.
Proof.
  intros Hx. specialize (Hx 0%nat [] eq_refl). rewrite app_nil_r in Hx.
  destruct (float_json rt x) as [|c t]; [discriminate Hx|].
  exists c, t. split; [reflexivity|].
  unfold term_start, json_space.
  destruct (N.eqb_spec c 32); [subst; discriminate Hx|].
  destruct (N.eqb_spec c 9); [subst; discriminate Hx|].
  destruct (N.eqb_spec c 10); [subst; discriminate Hx|].
  destruct (N.eqb_spec c 13); [subst; discriminate Hx|].
  destruct (N.eqb_spec c 93); [subst; discriminate Hx|].
  destruct (N.eqb_spec c 125); [subst; discriminate Hx|].
  reflexivity.
Qed.

Lemma digit_start c : ascii_digit c = true -> term_start c = true.
Proof.
  unfold ascii_digit, term_start, json_space. intros H.
  apply andb_true_iff in H as [H1 H2].
  apply N.leb_le in H1, H2.
  repeat match goal with
         | |- context [(c =? ?k)%N] => destruct (N.eqb_spec c k); [lia|]
         end.
  reflexivity.
Qed.

Lemma encode_start level v :
  readable v ->
  exists c t, encode rt level v = c :: t /\ term_start c = true.
Proof.
  intros Hv. destruct v as [|[|]|z|x|s|[|x xs]|[|kv kvs]];
    try (eexists _, _; split; reflexivity).
  - cbn [encode]. unfold str_of_Z. destruct (z <? 0).
    + eexists _, _. split; reflexivity.
    + destruct (str_of_N_head (Z.to_N z)) as (c & t & -> & Hc).
      exists c, t. split; [reflexivity|]. now apply digit_start.
  - inversion Hv; subst. now apply float_start.
Qed.

Lemma readable_float_free v : float_free v = true -> readable v.
Proof.
  induction v using value_nested_ind; cbn [float_free]; intros Hf;
    try constructor; try discriminate.
  - rewrite forallb_forall in Hf. rewrite Forall_forall in *. auto.
  - rewrite forallb_forall in Hf. rewrite Forall_forall in *. auto.
Qed.

Lemma readable_all v : (forall x, readable_float x) -> readable v.
Proof.
  intros Hall. induction v using value_nested_ind; constructor; auto.
Qed.

Lemma join_cons sep (a : str) l :
  l <> [] -> join sep (a :: l) = a ++ sep ++ join sep l.
Proof. destruct l; [congruence|reflexivity]. Qed.

Lemma join_elements level x xs rest :
  join (u "," ++ newline_indent (S level)) (map (encode rt (S level)) (x :: xs))
    ++ newline_indent level ++ u "]" ++ rest
  = encode rt (S level) x ++ elements_tail level xs rest.
Proof.
  revert x. induction xs as [|y ys IH]; intros x.
  - reflexivity.
  - rewrite (map_cons _ x (y :: ys)), join_cons by discriminate.
    rewrite <- !app_assoc, IH. reflexivity.
Qed.

Lemma encode_list level x xs rest :
  encode rt level (VList (x :: xs)) ++ rest
  = 91%N :: newline_indent (S level) ++ encode rt (S level) x
      ++ elements_tail level xs rest.
Proof.
  cbn [encode]. rewrite <- join_elements.
  change (u "[") with [91%N]. cbn [List.app]. rewrite <- !app_assoc. reflexivity.
Qed.

Lemma join_members level kv kvs rest :
  join (u "," ++ newline_indent (S level))
       (map (fun '(k, x) => encode_basestring k ++ u ": " ++ encode rt (S level) x)
            (kv :: kvs))
    ++ newline_indent level ++ u "}" ++ rest
  = member_text level kv ++ members_tail level kvs rest.
Proof.
  assert (Hm : forall kv',
             (let '(k, x) := kv' in
              encode_basestring k ++ u ": " ++ encode rt (S level) x)
             = member_text level kv').
  { intros [k x]. unfold member_text, encode_basestring.
    cbn [List.app]. rewrite <- app_assoc. reflexivity. }
  revert kv. induction kvs as [|kv' kvs' IH]; intros kv.
  - cbn [map join members_tail]. rewrite Hm. reflexivity.
  - rewrite (map_cons _ kv (kv' :: kvs')), join_cons by discriminate.
    rewrite <- !app_assoc, IH, Hm. reflexivity.
Qed.

Lemma encode_dict level kv kvs rest :
  encode rt level (VDict (kv :: kvs)) ++ rest
  = 123%N :: newline_indent (S level) ++ member_text level kv
      ++ members_tail level kvs rest.
Proof.
  cbn [encode]. rewrite <- join_members.
  change (u "{") with [123%N]. cbn [List.app]. rewrite <- !app_assoc. reflexivity.
Qed.

Lemma newline_indent_length level : (0 < List.length (newline_indent level))%nat.
Proof. unfold newline_indent. simpl. lia. Qed.

Lemma elements_tail_delimited level xs rest :
  delimited (elements_tail level xs rest) = true.
Proof. destruct xs; reflexivity. Qed.

Lemma members_tail_delimited level kvs rest :
  delimited (members_tail level kvs rest) = true.
Proof. destruct kvs; reflexivity. Qed.

Lemma parse_elements_encode level rest xs :
  Forall readable xs -> Forall read_back xs ->
  forall x acc fuel,
    readable x -> read_back x ->
    (2 * List.length (encode rt (S level) x ++ elements_tail level xs rest) + 1
     < fuel)%nat ->
    parse_elements fuel (encode rt (S level) x ++ elements_tail level xs rest) acc
    = Some (VList (acc ++ canon x :: map canon xs), rest).
Proof.
  induction xs as [|y ys IH]; intros Hrd Hrb x acc fuel Hx Hbx Hfuel.
  - destruct fuel as [|fuel]; [lia|]. rewrite parse_elements_S.
    rewrite (Hbx (S level) (elements_tail level [] rest) fuel) by
      (auto using elements_tail_delimited; lia).
    cbn [elements_tail]. rewrite skip_ws_indent, skip_ws_start by reflexivity.
    reflexivity.
  - inversion Hrd as [|? ? Hy Hys]; subst. inversion Hrb as [|? ? Hby Hbys]; subst.
    destruct fuel as [|fuel]; [lia|]. rewrite parse_elements_S.
    rewrite (Hbx (S level) (elements_tail level (y :: ys) rest) fuel) by
      (auto using elements_tail_delimited; lia).
    cbn [elements_tail]. rewrite skip_ws_start by reflexivity.
    change (44 =? 93)%N with false. change (44 =? 44)%N with true. cbv iota.
    rewrite skip_ws_indent.
    destruct (encode_start (S level) y Hy) as (c & t & Hc & Hstart).
    rewrite Hc. cbn [List.app]. rewrite skip_ws_start.
    2:{ unfold term_start in Hstart. destruct (json_space c); [discriminate|reflexivity]. }
    change (c :: t ++ elements_tail level ys rest)
      with ((c :: t) ++ elements_tail level ys rest).
    rewrite <- Hc. rewrite IH; auto.
    + rewrite <- app_assoc. reflexivity.
    + cbn [elements_tail] in Hfuel. rewrite !length_app in Hfuel.
      cbn [List.length] in Hfuel. rewrite !length_app in Hfuel.
      rewrite length_app. lia.
Qed.

Lemma skip_ws_space s : skip_ws (32%N :: s) = skip_ws s.
Proof. reflexivity. Qed.

Lemma member_text_length level k x :
  (List.length (encode rt (S level) x) + 4 <= List.length (member_text level (k, x)))%nat.
Proof.
  unfold member_text. cbn [List.length]. rewrite length_app. cbn [List.length]. lia.
Qed.

Lemma parse_members_encode level rest kvs :
  Forall (fun kv => readable (snd kv)) kvs ->
  Forall (fun kv => read_back (snd kv)) kvs ->
  forall k x acc fuel,
    readable x -> read_back x ->
    (2 * List.length (member_text level (k, x) ++ members_tail level kvs rest) + 1
     < fuel)%nat ->
    parse_members fuel (member_text level (k, x) ++ members_tail level kvs rest) acc
    = Some (VDict (dict_update acc (map canon_member ((k, x) :: kvs))), rest).
Proof.
  induction kvs as [|[k' y] kvs IH]; intros Hrd Hrb k x acc fuel Hx Hbx Hfuel.
  - destruct fuel as [|fuel]; [lia|].
    pose proof (member_text_length level k x) as Hlen.
    rewrite length_app in Hfuel.
    unfold member_text. cbn [List.app]. rewrite parse_members_S.
    change (34 =? 34)%N with true. cbv iota.
    rewrite <- app_assoc. cbn [List.app]. rewrite scan_string_encoded.
    rewrite skip_ws_start by reflexivity.
    change (58 =? 58)%N with true. cbv iota.
    rewrite skip_ws_space.
    destruct (encode_start (S level) x Hx) as (c & t & Hc & Hstart).
    rewrite Hc. cbn [List.app]. rewrite skip_ws_start.
    2:{ unfold term_start in Hstart. destruct (json_space c); [discriminate|reflexivity]. }
    change (c :: t ++ members_tail level [] rest)
      with ((c :: t) ++ members_tail level [] rest).
    rewrite <- Hc.
    rewrite (Hbx (S level) (members_tail level [] rest) fuel) by
      (auto using members_tail_delimited; rewrite length_app; lia).
    cbn [members_tail]. rewrite skip_ws_indent, skip_ws_start by reflexivity.
    reflexivity.
  - inversion Hrd as [|? ? Hy Hys]; subst. inversion Hrb as [|? ? Hby Hbys]; subst.
    cbn [snd] in Hy, Hby.
    destruct fuel as [|fuel]; [lia|].
    pose proof (member_text_length level k x) as Hlen.
    rewrite length_app in Hfuel.
    unfold member_text at 1. cbn [List.app]. rewrite parse_members_S.
    change (34 =? 34)%N with true. cbv iota.
    rewrite <- app_assoc. cbn [List.app]. rewrite scan_string_encoded.
    rewrite skip_ws_start by reflexivity.
    change (58 =? 58)%N with true. cbv iota.
    rewrite skip_ws_space.
    destruct (encode_start (S level) x Hx) as (c & t & Hc & Hstart).
    rewrite Hc. cbn [List.app]. rewrite skip_ws_start.
    2:{ unfold term_start in Hstart. destruct (json_space c); [discriminate|reflexivity]. }
    change (c :: t ++ members_tail level ((k', y) :: kvs) rest)
      with ((c :: t) ++ members_tail level ((k', y) :: kvs) rest).
    rewrite <- Hc.
    rewrite (Hbx (S level) (members_tail level ((k', y) :: kvs) rest) fuel) by
      (auto using members_tail_delimited; rewrite length_app; lia).
    cbn [members_tail]. rewrite skip_ws_start by reflexivity.
    change (44 =? 125)%N with false. change (44 =? 44)%N with true. cbv iota.
    rewrite skip_ws_indent.
    assert (Hq : skip_ws (member_text level (k', y) ++ members_tail level kvs rest)
                 = member_text level (k', y) ++ members_tail level kvs rest).
    { unfold member_text. cbn [List.app]. now rewrite skip_ws_start. }
    rewrite Hq. rewrite IH; auto.
    cbn [members_tail] in Hfuel. cbn [List.length] in Hfuel.
    rewrite !length_app in Hfuel. rewrite length_app. lia.
Qed.

(** A term that was written is read back in canonical form, whatever
    follows it in the document. *)
Lemma scan_once_encode v : readable v -> read_back v.
Proof.
  induction v as [|b|z|x|s|xs IH|kvs IH] using value_nested_ind;
    intros Hv level rest fuel Hrest Hfuel;
    (destruct fuel as [|fuel]; [lia|]).
  - change (encode rt level VNone) with (u "null").
    change (u "null") with (110%N :: u "ull"). cbn [List.app].
    rewrite scan_once_S. reflexivity.
  - destruct b.
    + change (encode rt level (VBool true)) with (116%N :: u "rue").
      cbn [List.app]. rewrite scan_once_S. reflexivity.
    + change (encode rt level (VBool false)) with (102%N :: u "alse").
      cbn [List.app]. rewrite scan_once_S. reflexivity.
  - destruct (encode_start level (VInt z) Hv) as (c & t & Hc & Hstart).
    cbn [encode canon] in *.
    assert (Hatom : scan_once (S fuel) (str_of_Z z ++ rest)
                    = scan_atom (str_of_Z z ++ rest)).
    { rewrite Hc. cbn [List.app]. rewrite scan_once_S.
      unfold str_of_Z in Hc. destruct (z <? 0).
      - injection Hc as <- _. reflexivity.
      - destruct (str_of_N_head (Z.to_N z)) as (c' & t' & Ht & Hd).
        rewrite Ht in Hc. injection Hc as <- _.
        unfold ascii_digit in Hd. apply andb_true_iff in Hd as [H1 H2].
        apply N.leb_le in H1, H2.
        repeat match goal with
               | |- context [(c' =? ?k)%N] => destruct (N.eqb_spec c' k); [lia|]
               end.
        reflexivity. }
    rewrite Hatom. now apply scan_atom_int.
  - inversion Hv as [| | |? Hx| | |]; subst. cbn [encode canon]. now apply Hx.
  - cbn [encode canon]. unfold encode_basestring. cbn [List.app].
    rewrite scan_once_S. change (34 =? 34)%N with true. cbv iota.
    rewrite <- app_assoc. cbn [List.app]. now rewrite scan_string_encoded.
  - inversion Hv as [| | | | |? Hxs|]; subst.
    destruct xs as [|x xs].
    + change (encode rt level (VList [])) with [91%N; 93%N]. cbn [List.app].
      rewrite scan_once_S. reflexivity.
    + inversion Hxs as [|? ? Hx Hxs']; subst. inversion IH as [|? ? IHx IHxs]; subst.
      rewrite encode_list in *. rewrite scan_once_S.
      change (91 =? 34)%N with false. change (91 =? 123)%N with false.
      change (91 =? 91)%N with true. cbv iota.
      rewrite skip_ws_indent.
      destruct (encode_start (S level) x Hx) as (c & t & Hc & Hstart).
      rewrite Hc. cbn [List.app]. rewrite skip_ws_start.
      2:{ unfold term_start in Hstart. destruct (json_space c); [discriminate|reflexivity]. }
      assert (H93 : (c =? 93)%N = false).
      { unfold term_start in Hstart. destruct (c =? 93)%N; [|reflexivity].
        rewrite andb_false_r in Hstart. discriminate. }
      rewrite H93.
      change (c :: t ++ elements_tail level xs rest)
        with ((c :: t) ++ elements_tail level xs rest).
      rewrite <- Hc.
      rewrite (parse_elements_encode level rest xs); auto.
      * rewrite Forall_forall in *. auto.
      * cbn [List.length] in Hfuel. rewrite length_app in Hfuel.
        pose proof (newline_indent_length (S level)). lia.
  - inversion Hv as [| | | | | |? Hkvs]; subst.
    destruct kvs as [|[k x] kvs].
    + change (encode rt level (VDict [])) with [123%N; 125%N]. cbn [List.app].
      rewrite scan_once_S. reflexivity.
    + inversion Hkvs as [|? ? Hx Hkvs']; subst. inversion IH as [|? ? IHx IHkvs]; subst.
      cbn [snd] in Hx, IHx.
      rewrite encode_dict in *. rewrite scan_once_S.
      change (123 =? 34)%N with false. change (123 =? 123)%N with true. cbv iota.
      rewrite skip_ws_indent.
      assert (Hq : forall tail, skip_ws (member_text level (k, x) ++ tail)
                   = member_text level (k, x) ++ tail).
      { intros tail. unfold member_text. cbn [List.app]. now rewrite skip_ws_start. }
      rewrite Hq.
      assert (Hhd : exists r, member_text level (k, x) ++ members_tail level kvs rest
                              = 34%N :: r).
      { unfold member_text. cbn [List.app]. eauto. }
      destruct Hhd as [r Hr].
      assert (Hloop :
        parse_members fuel (member_text level (k, x) ++ members_tail level kvs rest) []
        = Some (canon (VDict ((k, x) :: kvs)), rest)).
      { rewrite (parse_members_encode level rest kvs); auto.
        * rewrite Forall_forall in *. auto.
        * cbn [List.length] in Hfuel. rewrite length_app in Hfuel.
          pose proof (newline_indent_length (S level)). lia. }
      rewrite Hr in *. cbv beta iota. change (34 =? 125)%N with false. cbv iota.
      exact Hloop.
Qed.

Lemma json_loads_dumps v :
  readable v -> json_loads (json_dumps rt v) = Ok (canon v).
Proof.
  intros Hv. unfold json_loads, json_dumps.
  destruct (encode_start 0 v Hv) as (c & t & Hc & Hstart).
  assert (Hskip : skip_ws (encode rt 0 v) = encode rt 0 v).
  { rewrite Hc. apply skip_ws_start. unfold term_start in Hstart.
    destruct (json_space c); [discriminate|reflexivity]. }
  rewrite Hskip.
  pose proof (scan_once_encode v Hv 0%nat [] (S (2 * List.length (encode rt 0 v)))
                eq_refl) as H.
  rewrite app_nil_r in H. rewrite H by lia. reflexivity.
Qed.

(** *** Dictionaries *)

Lemma existsb_str_eqb k ks : existsb (str_eqb k) ks = true <-> In k ks.
Proof.
  rewrite existsb_exists. split.
  - intros (x & Hin & He). apply str_eqb_eq in He. now subst.
  - intros Hin. exists k. split; [assumption|apply str_eqb_refl].
Qed.

Lemma distinct_NoDup ks : distinct ks = true <-> NoDup ks.
Proof.
  induction ks as [|k ks IH]; cbn [distinct].
  - split; [constructor|reflexivity].
  - rewrite andb_true_iff, negb_true_iff, IH. split.
    + intros [Hk Hks]. constructor; [|assumption].
      rewrite <- existsb_str_eqb. congruence.
    + intros H. inversion H as [|? ? Hk Hks]; subst. split; [|assumption].
      destruct (existsb (str_eqb k) ks) eqn:E; [|reflexivity].
      apply existsb_str_eqb in E. contradiction.
Qed.

Lemma dict_set_fresh {V} k (v : V) d :
  ~ In k (keys d) -> dict_set k v d = d ++ [(k, v)].
Proof.
  induction d as [|[k' v'] d IH]; cbn [dict_set keys map fst List.app]; intros Hk.
  - reflexivity.
  - destruct (str_eqb k k') eqn:E.
    + apply str_eqb_eq in E. subst. exfalso. apply Hk. now left.
    + f_equal. apply IH. intros Hin. apply Hk. now right.
Qed.

Lemma keys_dict_set {V} k (v : V) d k' :
  In k' (keys (dict_set k v d)) <-> k' = k \/ In k' (keys d).
Proof.
  induction d as [|[k0 v0] d IH]; cbn [dict_set keys map fst In].
  - split; [intros [<-|[]]; auto|intros [->|[]]; auto].
  - destruct (str_eqb k k0) eqn:E; cbn [map fst In].
    + apply str_eqb_eq in E. subst. intuition (subst; auto).
    + fold (keys (dict_set k v d)). fold (keys d). rewrite IH.
      intuition (subst; auto).
Qed.


Lemma dict_update_distinct {V} (e d : list (str * V)) :
  NoDup (keys (d ++ e)) -> dict_update d e = d ++ e.
Proof.
  unfold dict_update. revert d.
  induction e as [|[k v] e IH]; intros d Hnd; cbn [fold_left fst snd].
  - now rewrite app_nil_r.
  - assert (Hk : ~ In k (keys d)).
    { unfold keys in *. rewrite map_app in Hnd. cbn [map fst] in Hnd.
      apply NoDup_remove_2 in Hnd. intros Hin. apply Hnd.
      apply in_or_app. now left. }
    rewrite (dict_set_fresh k v d Hk), IH.
    + now rewrite <- app_assoc.
    + now rewrite <- app_assoc.
Qed.

(** An object without floats, whose dicts have distinct keys, is its own
    canonical form. *)
Lemma canon_well_formed v :
  well_formed v = true -> float_free v = true -> canon v = v.
Proof.
  induction v as [|b|z|x|s|xs IH|kvs IH] using value_nested_ind;
    cbn [well_formed float_free canon]; intros Hwf Hff; try reflexivity;
    try discriminate.
  - f_equal. rewrite <- (map_id xs) at 2. apply map_ext_in. intros x Hin.
    rewrite forallb_forall in Hwf, Hff. rewrite Forall_forall in IH. auto.
  - apply andb_true_iff in Hwf as [Hd Hwf].
    assert (Hmap : map (fun '(k, x) => (k, canon x)) kvs = kvs).
    { rewrite <- (map_id kvs) at 2. apply map_ext_in. intros [k x] Hin.
      rewrite forallb_forall in Hwf, Hff. rewrite Forall_forall in IH.
      f_equal. apply (IH (k, x) Hin); [apply (Hwf (k, x) Hin)|apply (Hff (k, x) Hin)]. }
    rewrite Hmap. f_equal. apply (dict_update_distinct kvs []).
    apply distinct_NoDup. exact Hd.
Qed.

(** *** The writer *)

Lemma encodable_app a b : encodable (a ++ b) = encodable a && encodable b.
Proof. apply forallb_app. Qed.

Lemma newline_indent_encodable level : encodable (newline_indent level) = true.
Proof.
  unfold newline_indent. change (encodable (10%N :: ?s)) with (encodable s).
  induction (2 * level)%nat as [|n IH]; [reflexivity|exact IH].
Qed.

Lemma chars_of_uint_encodable d : encodable (chars_of_uint d) = true.
Proof. induction d; [reflexivity|exact IHd ..]. Qed.

Lemma str_of_Z_encodable z : encodable (str_of_Z z) = true.
Proof.
  unfold str_of_Z, str_of_N. destruct (z <? 0); apply chars_of_uint_encodable.
Qed.

Lemma escape_char_encodable c : encodable (escape_char c) = negb (surrogate c).
Proof.
  destruct (N.ltb_spec c 32) as [Hlt|Hge].
  - revert c Hlt. apply below_32. intros n Hn.
    do 32 (destruct n as [|n]; [reflexivity|]). lia.
  - unfold escape_char.
    destruct (N.eqb_spec c 34) as [->|H34]; [reflexivity|].
    destruct (N.eqb_spec c 92) as [->|H92]; [reflexivity|].
    destruct (N.eqb_spec c 10); [lia|].
    destruct (N.eqb_spec c 13); [lia|].
    destruct (N.eqb_spec c 9); [lia|].
    destruct (N.eqb_spec c 8); [lia|].
    destruct (N.eqb_spec c 12); [lia|].
    destruct (N.ltb_spec c 32); [lia|].
    cbn [encodable forallb]. apply andb_true_r.
Qed.

Lemma encode_basestring_encodable s :
  encodable (encode_basestring s) = encodable s.
Proof.
  unfold encode_basestring. change (encodable (34%N :: ?t)) with (encodable t).
  rewrite encodable_app, andb_true_r.
  induction s as [|c s IH]; [reflexivity|].
  cbn [flat_map]. rewrite encodable_app, escape_char_encodable, IH. reflexivity.
Qed.

(** The pieces of a term that is no container: its text. *)
Lemma iterencode_simple level v :
  match v with VList _ | VDict _ => False | _ => True end ->
  iterencode rt level v = [encode rt level v].
Proof. destruct v; try contradiction; reflexivity. Qed.

Lemma concat_list_pieces (pieces : value -> list str) (text : value -> str) sep l :
  Forall (fun x => concat (pieces x) = text x) l ->
  forall buf,
    l <> [] ->
    concat (list_pieces pieces text sep buf l) = buf ++ join sep (map text l).
Proof.
  induction l as [|x l IH]; intros Hl buf Hne; [congruence|].
  inversion Hl as [|? ? Hx Hl']; subst.
  assert (Hhead : concat (match x with
                          | VList _ | VDict _ => buf :: pieces x
                          | _ => [buf ++ text x]
                          end) = buf ++ text x).
  { destruct x; cbn [concat]; rewrite ?app_nil_r, ?Hx; reflexivity. }
  cbn [list_pieces]. rewrite concat_app, Hhead.
  destruct l as [|y l'].
  - cbn [list_pieces concat map join]. now rewrite app_nil_r.
  - rewrite IH by (auto; discriminate).
    rewrite (map_cons text x (y :: l')), join_cons by discriminate.
    now rewrite <- !app_assoc.
Qed.

Lemma concat_dict_pieces (pieces : value -> list str) (text : value -> str) sep l :
  Forall (fun kv => concat (pieces (snd kv)) = text (snd kv)) l ->
  forall first,
    l <> [] ->
    concat (dict_pieces pieces sep first l)
    = (if first then [] else sep)
        ++ join sep (map (fun '(k, x) => encode_basestring k ++ u ": " ++ text x) l).
Proof.
  induction l as [|[k x] l IH]; intros Hl first Hne; [congruence|].
  inversion Hl as [|? ? Hx Hl']; subst. cbn [snd] in Hx.
  cbn [dict_pieces]. rewrite concat_app. cbn [concat]. rewrite concat_app, Hx.
  assert (Hfirst : forall t : str,
            concat (if first then [] else [sep]) ++ t
            = (if first then [] else sep) ++ t).
  { intros t. destruct first; cbn [concat]; now rewrite ?app_nil_r. }
  rewrite Hfirst. f_equal.
  destruct l as [|kv l'].
  - cbn [dict_pieces concat map join]. now rewrite app_nil_r.
  - rewrite IH by (auto; discriminate).
    rewrite (map_cons _ (k, x) (kv :: l')), join_cons by discriminate.
    now rewrite <- !app_assoc.
Qed.

(** The pieces put together are the text of [json.dumps]. *)
Lemma concat_iterencode v : forall level, concat (iterencode rt level v) = encode rt level v.
Proof.
  induction v as [|b|z|x|s|xs IH|kvs IH] using value_nested_ind; intros level;
    try (cbn [iterencode concat]; apply app_nil_r).
  - destruct xs as [|x xs]; [reflexivity|].
    cbn [iterencode]. rewrite concat_app, concat_list_pieces.
    + cbn [encode concat]. rewrite <- !app_assoc, app_nil_r. reflexivity.
    + rewrite Forall_forall in *. auto.
    + discriminate.
  - destruct kvs as [|kv kvs]; [reflexivity|].
    cbn [iterencode concat]. rewrite concat_app, (concat_dict_pieces _ (encode rt (S level))).
    + change ([] ++ ?t) with t. cbn [encode concat].
      rewrite app_nil_r. reflexivity.
    + rewrite Forall_forall in *. intros kv' Hin. apply (IH kv' Hin).
    + discriminate.
Qed.

Lemma encodable_list_pieces (pieces : value -> list str) (text : value -> str) sep l :
  Forall (fun x => forallb encodable (pieces x) = storable x) l ->
  (forall x, match x with VList _ | VDict _ => False | _ => True end ->
             pieces x = [text x]) ->
  encodable sep = true ->
  forall buf,
    encodable buf = true ->
    forallb encodable (list_pieces pieces text sep buf l) = forallb storable l.
Proof.
  intros Hl Hsimple Hsep. induction Hl as [|x l Hx Hl IH]; intros buf Hbuf;
    [reflexivity|].
  cbn [list_pieces]. rewrite forallb_app.
  change (forallb storable (x :: l)) with (storable x && forallb storable l).
  f_equal; [|exact (IH sep Hsep)].
  destruct x;
    try (match type of Hx with
         | context [pieces ?y] => rewrite (Hsimple y I) in Hx
         end;
         cbn [forallb] in Hx |- *; rewrite encodable_app, Hbuf; exact Hx);
    cbn [forallb]; rewrite Hbuf; exact Hx.
Qed.

Lemma encodable_dict_pieces (pieces : value -> list str) sep l :
  Forall (fun kv => forallb encodable (pieces (snd kv)) = storable (snd kv)) l ->
  encodable sep = true ->
  forall first,
    forallb encodable (dict_pieces pieces sep first l)
    = forallb (fun kv => encodable (fst kv) && storable (snd kv)) l.
Proof.
  intros Hl Hsep. induction Hl as [|[k x] l Hx Hl IH]; intros first; [reflexivity|].
  cbn [snd] in Hx. cbn [dict_pieces].
  change (forallb (fun kv => encodable (fst kv) && storable (snd kv)) ((k, x) :: l))
    with (encodable k && storable x
          && forallb (fun kv => encodable (fst kv) && storable (snd kv)) l).
  rewrite forallb_app. cbn [forallb]. rewrite forallb_app.
  rewrite encode_basestring_encodable.
  assert (Hfirst : forallb encodable (if first then [] else [sep]) = true).
  { destruct first; cbn [forallb]; now rewrite ?Hsep. }
  etransitivity.
  { apply f_equal2; [exact Hfirst|]. apply f_equal. change (encodable (u ": ")) with true.
    cbn [andb]. apply f_equal2; [exact Hx|exact (IH false)]. }
  cbn [andb]. apply andb_assoc.
Qed.

(** Every piece can be encoded exactly when the object is storable. *)
Lemma encodable_iterencode v :
  forall level, forallb encodable (iterencode rt level v) = storable v.
Proof.
  induction v as [|b|z|x|s|xs IH|kvs IH] using value_nested_ind; intros level.
  - reflexivity.
  - destruct b; reflexivity.
  - cbn [iterencode encode forallb storable]. now rewrite str_of_Z_encodable.
  - cbn [iterencode encode forallb storable]. apply andb_true_r.
  - cbn [iterencode encode forallb storable].
    now rewrite encode_basestring_encodable, andb_true_r.
  - destruct xs as [|x xs]; [reflexivity|].
    cbn [iterencode]. rewrite forallb_app.
    rewrite (encodable_list_pieces _ (encode rt (S level))).
    + cbn [forallb storable]. rewrite newline_indent_encodable. cbn.
      now rewrite !andb_true_r.
    + rewrite Forall_forall in *. auto.
    + intros y Hy. now apply iterencode_simple.
    + rewrite encodable_app. now rewrite newline_indent_encodable.
    + rewrite encodable_app. now rewrite newline_indent_encodable.
  - destruct kvs as [|kv kvs]; [reflexivity|].
    cbn [iterencode forallb]. rewrite forallb_app, encodable_dict_pieces.
    + rewrite !newline_indent_encodable. cbn [forallb storable].
      rewrite newline_indent_encodable. cbn. now rewrite !andb_true_r.
    + rewrite Forall_forall in *. intros kv' Hin. apply (IH kv' Hin).
    + rewrite encodable_app. now rewrite newline_indent_encodable.
Qed.

Lemma write_all_complete chunks :
  forallb encodable chunks = true -> write_all chunks = (concat chunks, Ok tt).
Proof.
  induction chunks as [|c r IH]; cbn [forallb write_all concat]; [reflexivity|].
  intros H. apply andb_true_iff in H as [Hc Hr]. now rewrite Hc, (IH Hr).
Qed.

Lemma write_all_failed chunks :
  forallb encodable chunks = false ->
  snd (write_all chunks) = Raise UnicodeEncodeError.
Proof.
  induction chunks as [|c r IH]; cbn [forallb write_all]; [discriminate|].
  destruct (encodable c); cbn [andb]; [|reflexivity].
  intros H. specialize (IH H). now destruct (write_all r).
Qed.

(** A storable object is written whole, and only a storable one is. *)
Lemma json_dump_storable v :
  storable v = true -> json_dump rt v = (json_dumps rt v, Ok tt).
Proof.
  intros Hv. unfold json_dump, json_dumps.
  rewrite write_all_complete by now rewrite encodable_iterencode.
  now rewrite concat_iterencode.
Qed.

Lemma json_dump_raises v :
  storable v = false -> snd (json_dump rt v) = Raise UnicodeEncodeError.
Proof.
  intros Hv. apply write_all_failed. now rewrite encodable_iterencode.
Qed.

Lemma json_dump_ok v : snd (json_dump rt v) = Ok tt -> storable v = true.
Proof.
  intros H. destruct (storable v) eqn:Hv; [reflexivity|].
  rewrite (json_dump_raises v Hv) in H. discriminate H.
Qed.

(** *** The fuel of the reader is never exhausted *)

Lemma skip_ws_length s : (List.length (skip_ws s) <= List.length s)%nat.
Proof.
  induction s as [|c s IH]; cbn [skip_ws]; [lia|].
  destruct (json_space c); cbn [List.length]; lia.
Qed.

Lemma push_some c o t r :
  push c o = Some (t, r) -> exists t', o = Some (t', r).
Proof.
  destruct o as [[t' r']|]; cbn [push]; [|discriminate].
  intros [= _ <-]. now exists t'.
Qed.

Lemma scan_string_shorter n :
  forall s t r,
    (List.length s <= n)%nat ->
    scan_string s = Some (t, r) -> (List.length r < List.length s)%nat.
Proof.
  induction n as [|n IH]; intros s t r Hn H.
  - destruct s; [discriminate H|cbn [List.length] in Hn; lia].
  - destruct s as [|c s]; [discriminate H|].
    cbn [scan_string] in H. cbn [List.length] in *.
    assert (Hrec : forall c' s', (List.length s' <= n)%nat ->
                     push c' (scan_string s') = Some (t, r) ->
                     (List.length r < List.length s')%nat).
    { intros c' s' Hs' Hp. apply push_some in Hp as [t' Hp]. eapply IH; eauto. }
    repeat match type of H with
           | context [if ?b then _ else _] => destruct b
           | context [match ?x with _ => _ end] =>
             destruct x; cbn [List.length] in *
           end;
      try discriminate H;
      try (injection H as <- <-; lia);
      try (apply Hrec in H; cbn [List.length] in *; lia).
Qed.

Lemma take_digits_length s :
  (List.length (snd (take_digits s)) <= List.length s)%nat.
Proof.
  induction s as [|c s IH]; cbn [take_digits]; [cbn; lia|].
  destruct (ascii_digit c); [|cbn; lia].
  destruct (take_digits s) as [ds rest]. cbn [snd List.length] in *. lia.
Qed.

Lemma scan_number_shorter s v r :
  scan_number s = Some (v, r) -> (List.length r < List.length s)%nat.
Proof.
  unfold scan_number.
  assert (Hsign : (List.length (snd (scan_sign s)) <= List.length s)%nat).
  { unfold scan_sign. destruct s as [|c s]; [cbn; lia|].
    destruct (c =? 45)%N; cbn; lia. }
  destruct (scan_sign s) as [sign s1]. cbn [snd] in Hsign.
  assert (Hint : forall ip s2, scan_int_part s1 = Some (ip, s2) ->
                   (List.length s2 < List.length s1)%nat).
  { unfold scan_int_part. destruct s1 as [|c s1']; [discriminate|].
    intros ip s2. pose proof (take_digits_length s1') as Ht.
    destruct ((49 <=? c)%N && (c <=? 57)%N).
    - destruct (take_digits s1') as [ds rest]. cbn [snd] in Ht.
      intros [= _ <-]. cbn [List.length]. lia.
    - destruct (c =? 48)%N; [|discriminate]. intros [= _ <-]. cbn. lia. }
  destruct (scan_int_part s1) as [[ip s2]|]; [|discriminate].
  specialize (Hint ip s2 eq_refl).
  assert (Hfrac : (List.length (snd (scan_fraction s2)) <= List.length s2)%nat).
  { unfold scan_fraction. destruct s2 as [|p [|d r3]]; try (cbn; lia).
    destruct ((p =? 46)%N && ascii_digit d); [|cbn; lia].
    pose proof (take_digits_length r3) as Ht.
    destruct (take_digits r3) as [ds rest]. cbn [snd List.length] in *. lia. }
  destruct (scan_fraction s2) as [frac s3]. cbn [snd] in Hfrac.
  assert (Hexp : (List.length (snd (scan_exponent s3)) <= List.length s3)%nat).
  { unfold scan_exponent. destruct s3 as [|e r4]; [cbn; lia|].
    destruct ((e =? 101)%N || (e =? 69)%N); [|cbn; lia].
    assert (Hsg : forall sg r', (match r4 with
                                 | g :: r' => if (g =? 45)%N || (g =? 43)%N
                                              then ([g], r') else ([], r4)
                                 | [] => ([], r4)
                                 end) = (sg, r') ->
                    (List.length r' <= List.length r4)%nat).
    { intros sg r'. destruct r4 as [|g r4']; [intros [= _ <-]; lia|].
      destruct ((g =? 45)%N || (g =? 43)%N); intros [= _ <-]; cbn; lia. }
    destruct (match r4 with
              | g :: r' => if (g =? 45)%N || (g =? 43)%N then ([g], r') else ([], r4)
              | [] => ([], r4)
              end) as [sg r'] eqn:E.
    specialize (Hsg sg r' eq_refl).
    pose proof (take_digits_length r') as Ht.
    destruct (take_digits r') as [[|d0 ds] rest]; cbn [snd List.length] in *; lia. }
  destruct (scan_exponent s3) as [expo s4]. cbn [snd] in Hexp.
  destruct frac, expo; intros [= _ <-]; lia.
Qed.

Lemma scan_atom_shorter s v r :
  scan_atom s = Some (v, r) -> (List.length r < List.length s)%nat.
Proof.
  unfold scan_atom.
  repeat match goal with
         | |- context [strip_prefix ?lit s] =>
           let E := fresh "E" in
           destruct (strip_prefix lit s) eqn:E;
             [apply strip_prefix_some in E; intros [= _ <-]; subst s;
              rewrite length_app; cbn; lia|]
         end.
  apply scan_number_shorter.
Qed.

Lemma scan_shorter fuel :
  (forall s v r, scan_once fuel s = Some (v, r) ->
                 (List.length r < List.length s)%nat) /\
  (forall s acc v r, parse_members fuel s acc = Some (v, r) ->
                     (List.length r < List.length s)%nat) /\
  (forall s acc v r, parse_elements fuel s acc = Some (v, r) ->
                     (List.length r < List.length s)%nat).
Proof.
  induction fuel as [|fuel (IHo & IHm & IHe)];
    [repeat split; intros; discriminate|].
  split; [|split].
  - intros [|c s] v r; [discriminate|]. rewrite scan_once_S.
    pose proof (skip_ws_length s) as Hws.
    destruct (c =? 34)%N.
    { destruct (scan_string s) as [[t rest]|] eqn:E; [|discriminate].
      intros [= _ <-]. apply (scan_string_shorter _ _ _ _ (le_n _)) in E.
      cbn [List.length]. lia. }
    destruct (c =? 123)%N.
    { destruct (skip_ws s) as [|c1 r1]; [discriminate|].
      destruct (c1 =? 125)%N.
      - intros [= _ <-]. cbn [List.length] in *. lia.
      - intros H. apply IHm in H. cbn [List.length] in *. lia. }
    destruct (c =? 91)%N.
    { destruct (skip_ws s) as [|c1 r1]; [discriminate|].
      destruct (c1 =? 93)%N.
      - intros [= _ <-]. cbn [List.length] in *. lia.
      - intros H. apply IHe in H. cbn [List.length] in *. lia. }
    apply scan_atom_shorter.
  - intros [|q s] acc v r; [discriminate|]. rewrite parse_members_S.
    destruct (q =? 34)%N; [|discriminate].
    destruct (scan_string s) as [[key r1]|] eqn:E; [|discriminate].
    apply (scan_string_shorter _ _ _ _ (le_n _)) in E.
    pose proof (skip_ws_length r1) as Hw1.
    destruct (skip_ws r1) as [|colon r2]; [discriminate|].
    destruct (colon =? 58)%N; [|discriminate].
    pose proof (skip_ws_length r2) as Hw2.
    destruct (scan_once fuel (skip_ws r2)) as [[val r3]|] eqn:Ev; [|discriminate].
    apply IHo in Ev.
    pose proof (skip_ws_length r3) as Hw3.
    destruct (skip_ws r3) as [|c r4]; [discriminate|].
    pose proof (skip_ws_length r4) as Hw4.
    destruct (c =? 125)%N.
    + intros [= _ <-]. cbn [List.length] in *. lia.
    + destruct (c =? 44)%N; [|discriminate].
      intros H. apply IHm in H. cbn [List.length] in *. lia.
  - intros s acc v r. rewrite parse_elements_S.
    destruct (scan_once fuel s) as [[val r1]|] eqn:Ev; [|discriminate].
    apply IHo in Ev.
    pose proof (skip_ws_length r1) as Hw1.
    destruct (skip_ws r1) as [|c r2]; [discriminate|].
    pose proof (skip_ws_length r2) as Hw2.
    destruct (c =? 93)%N.
    + intros [= _ <-]. cbn [List.length] in *. lia.
    + destruct (c =? 44)%N; [|discriminate].
      intros H. apply IHe in H. cbn [List.length] in *. lia.
Qed.

Lemma scan_fuel_step fuel :
  (forall s, (2 * List.length s < fuel)%nat ->
             scan_once (S fuel) s = scan_once fuel s) /\
  (forall s acc, (2 * List.length s + 1 < fuel)%nat ->
                 parse_members (S fuel) s acc = parse_members fuel s acc) /\
  (forall s acc, (2 * List.length s + 1 < fuel)%nat ->
                 parse_elements (S fuel) s acc = parse_elements fuel s acc).
Proof.
  induction fuel as [|fuel (IHo & IHm & IHe)]; [repeat split; intros; lia|].
  split; [|split].
  - intros [|c s] Hlen; [reflexivity|]. rewrite !scan_once_S.
    pose proof (skip_ws_length s) as Hws. cbn [List.length] in Hlen.
    destruct (c =? 34)%N; [reflexivity|].
    destruct (c =? 123)%N.
    { destruct (skip_ws s) as [|c1 r1]; [reflexivity|].
      destruct (c1 =? 125)%N; [reflexivity|]. apply IHm. lia. }
    destruct (c =? 91)%N; [|reflexivity].
    destruct (skip_ws s) as [|c1 r1]; [reflexivity|].
    destruct (c1 =? 93)%N; [reflexivity|]. apply IHe. lia.
  - intros [|q s] acc Hlen; [reflexivity|]. rewrite !parse_members_S.
    cbn [List.length] in Hlen.
    destruct (q =? 34)%N; [|reflexivity].
    destruct (scan_string s) as [[key r1]|] eqn:E; [|reflexivity].
    apply (scan_string_shorter _ _ _ _ (le_n _)) in E.
    pose proof (skip_ws_length r1) as Hw1.
    destruct (skip_ws r1) as [|colon r2]; [reflexivity|].
    destruct (colon =? 58)%N; [|reflexivity].
    pose proof (skip_ws_length r2) as Hw2. cbn [List.length] in Hw1.
    rewrite IHo by lia.
    destruct (scan_once fuel (skip_ws r2)) as [[val r3]|] eqn:Ev; [|reflexivity].
    apply (proj1 (scan_shorter fuel)) in Ev.
    pose proof (skip_ws_length r3) as Hw3.
    destruct (skip_ws r3) as [|c r4]; [reflexivity|].
    pose proof (skip_ws_length r4) as Hw4. cbn [List.length] in Hw3.
    destruct (c =? 125)%N; [reflexivity|].
    destruct (c =? 44)%N; [|reflexivity]. apply IHm. lia.
  - intros s acc Hlen. rewrite !parse_elements_S.
    rewrite IHo by lia.
    destruct (scan_once fuel s) as [[val r1]|] eqn:Ev; [|reflexivity].
    apply (proj1 (scan_shorter fuel)) in Ev.
    pose proof (skip_ws_length r1) as Hw1.
    destruct (skip_ws r1) as [|c r2]; [reflexivity|].
    pose proof (skip_ws_length r2) as Hw2. cbn [List.length] in Hw1.
    destruct (c =? 93)%N; [reflexivity|].
    destruct (c =? 44)%N; [|reflexivity]. apply IHe. lia.
Qed.

(** More fuel than [json_loads] gives itself never changes what is read:
    a failure of the reader is a malformed text, not a lack of fuel. *)
Lemma scan_once_fuel s fuel :
  (2 * List.length s < fuel)%nat ->
  scan_once fuel s = scan_once (S (2 * List.length s)) s.
Proof.
  intros Hlen.
  replace fuel with (S (2 * List.length s) + (fuel - S (2 * List.length s)))%nat by lia.
  induction (fuel - S (2 * List.length s))%nat as [|k IH].
  - now rewrite Nat.add_0_r.
  - rewrite Nat.add_succ_r, (proj1 (scan_fuel_step _)) by lia. exact IH.
Qed.

(** ** The persisted table *)

Lemma load_after_save v fs :
  readable v -> storable v = true ->
  load_user_info (save_user_info rt v fs) = canon v.
Proof.
  intros Hv Hs. unfold load_user_info, save_user_info, load_json.
  cbn [user_info_file]. rewrite json_dump_storable by assumption.
  cbn [fst]. now rewrite json_loads_dumps.
Qed.

Lemma same_user_file_refl fs : same_user_file fs fs.
Proof. split; reflexivity. Qed.

Lemma same_user_file_trans a b c :
  same_user_file a b -> same_user_file b c -> same_user_file a c.
Proof. intros [H1 H2] [H3 H4]. split; congruence. Qed.

Lemma same_user_file_ids fs fs' :
  same_user_file fs fs' -> user_ids fs' = user_ids fs.
Proof.
  intros [H _]. unfold user_ids, load_user_info. now rewrite H.
Qed.

Lemma keeps_unit {A} (a : A) : keeps_user_file (unit_action a).
Proof. intros w. apply same_user_file_refl. Qed.

Lemma keeps_lift {A} (r : res A) : keeps_user_file (lift r).
Proof. intros w. apply same_user_file_refl. Qed.

Lemma keeps_bind {A B} (m : action A) (k : A -> action B) :
  keeps_user_file m -> (forall a, keeps_user_file (k a)) ->
  keeps_user_file (bind_action m k).
Proof.
  intros Hm Hk w. unfold bind_action. specialize (Hm w).
  destruct (m w) as [[a|e] w'] eqn:E; cbn [fst snd] in *; [|exact Hm].
  eapply same_user_file_trans; [exact Hm|apply Hk].
Qed.

Lemma keeps_save_group v : keeps_user_file (save_group_info_action rt v).
Proof. intros w. split; reflexivity. Qed.

Lemma keeps_get_request : keeps_user_file get_request.
Proof. intros w. apply same_user_file_refl. Qed.

Lemma keeps_read_context : keeps_user_file read_context.
Proof.
  intros w. unfold read_context. destruct (context (snd w));
    apply same_user_file_refl.
Qed.

Lemma keeps_set_context c : keeps_user_file (set_context c).
Proof. intros w. apply same_user_file_refl. Qed.

Lemma keeps_set_system_prompt p : keeps_user_file (set_system_prompt p).
Proof. intros w. apply same_user_file_refl. Qed.

Lemma keeps_record_group_member ev all_user_info all_group_info :
  keeps_user_file (record_group_member rt ev all_user_info all_group_info).
Proof.
  unfold record_group_member.
  repeat (apply keeps_bind; [apply keeps_lift|intros ?]).
  apply keeps_save_group.
Qed.

Lemma keeps_enrich_request ev all_user_info is_group :
  keeps_user_file (enrich_request rt ev all_user_info is_group).
Proof.
  unfold enrich_request.
  apply keeps_bind; [apply keeps_lift|intros user_info].
  apply keeps_bind; [apply keeps_lift|intros user_prompt].
  apply keeps_bind; [apply keeps_read_context|intros old_context].
  apply keeps_bind; [apply keeps_set_context|intros _].
  destruct (truthy rt (VStr user_prompt)); [|apply keeps_unit].
  apply keeps_bind; [apply keeps_get_request|intros req'].
  apply keeps_bind; [apply keeps_lift|intros user_info'].
  apply keeps_bind; [apply keeps_lift|intros nickname].
  apply keeps_set_system_prompt.
Qed.

(** What [record_user] does: nothing, or one assignment that is saved. *)
Lemma record_user_outcome ev all_user_info w :
  snd (record_user rt ev all_user_info w) = w \/
  exists v,
    py_contains (sender_id ev) all_user_info = Ok false /\
    py_setitem all_user_info (sender_id ev)
      (VDict (get_qq_user_info rt ev (sender_id ev) true)) = Ok v /\
    record_user rt ev all_user_info w
    = (Ok v, (save_user_info rt v (fst w), snd w)).
Proof.
  unfold record_user, bind_action, lift.
  destruct (py_contains (sender_id ev) all_user_info) as [[|]|e] eqn:Hc;
    cbn [negb]; try (now left).
  destruct (py_setitem all_user_info (sender_id ev) _) as [v|e] eqn:Hs;
    [|now left].
  right. exists v. repeat split; reflexivity.
Qed.

(** The user-info file after the hook: untouched, or holding the loaded
    table extended by the sender's record. *)
Lemma hook_user_file ev w :
  same_user_file (fst w) (fst (on_llm_request_hook rt ev w)) \/
  exists v,
    platform_name ev = aiocqhttp /\
    py_contains (sender_id ev) (load_user_info (fst w)) = Ok false /\
    py_setitem (load_user_info (fst w)) (sender_id ev)
      (VDict (get_qq_user_info rt ev (sender_id ev) true)) = Ok v /\
    same_user_file (save_user_info rt v (fst w)) (fst (on_llm_request_hook rt ev w)).
Proof.
  destruct (str_eqb (platform_name ev) aiocqhttp) eqn:Hp.
  2:{ left. unfold on_llm_request_hook, attempt. rewrite Hp.
      apply same_user_file_refl. }
  set (tail := fun all_user_info : value =>
         bind_action
           (if truthy rt (VStr (group_id ev))
            then record_group_member rt ev all_user_info (load_group_info (fst w))
            else unit_action tt)
           (fun _ => enrich_request rt ev all_user_info
                       (truthy rt (VStr (group_id ev))))).
  assert (Htail : forall a, keeps_user_file (tail a)).
  { intros a. unfold tail. apply keeps_bind.
    - destruct (truthy rt (VStr (group_id ev)));
        [apply keeps_record_group_member|apply keeps_unit].
    - intros _. apply keeps_enrich_request. }
  assert (Hhook :
    on_llm_request_hook rt ev w
    = snd (let (r, w') := record_user rt ev (load_user_info (fst w)) w in
           match r with
           | Ok a => tail a w'
           | Raise e => (Raise e, w')
           end)).
  { unfold on_llm_request_hook, attempt. rewrite Hp. reflexivity. }
  rewrite Hhook. clear Hhook.
  apply str_eqb_eq in Hp.
  destruct (record_user_outcome ev (load_user_info (fst w)) w)
    as [Hsame | (v & Hc & Hs & Hrec)].
  - left.
    destruct (record_user rt ev (load_user_info (fst w)) w) as [[a|e] w'] eqn:E;
      cbn [snd] in Hsame; subst w'.
    + apply Htail.
    + apply same_user_file_refl.
  - right. exists v. repeat split; auto; rewrite Hrec;
      apply (Htail v (save_user_info rt v (fst w), snd w)).
Qed.

(** ** Tables that can be written *)

Lemma digits_encodable ds : forallb ascii_digit ds = true -> encodable ds = true.
Proof.
  induction ds as [|c ds IH]; cbn [forallb encodable]; [reflexivity|].
  intros H. apply andb_true_iff in H as [Hc Hds].
  fold (encodable ds). rewrite (IH Hds), andb_true_r.
  unfold ascii_digit in Hc. apply andb_true_iff in Hc as [H1 H2].
  apply N.leb_le in H1, H2. unfold surrogate.
  destruct (N.leb_spec 55296 c); [lia|reflexivity].
Qed.

Lemma take_digits_digits s : forallb ascii_digit (fst (take_digits s)) = true.
Proof.
  induction s as [|c s IH]; cbn [take_digits]; [reflexivity|].
  destruct (ascii_digit c) eqn:Hc; [|reflexivity].
  destruct (take_digits s) as [ds rest]. cbn [fst forallb] in *.
  now rewrite Hc, IH.
Qed.

Lemma scan_sign_encodable s : encodable (fst (scan_sign s)) = true.
Proof.
  unfold scan_sign. destruct s as [|c r]; [reflexivity|].
  now destruct (c =? 45)%N.
Qed.

Lemma scan_int_part_encodable s ip r :
  scan_int_part s = Some (ip, r) -> encodable ip = true.
Proof.
  unfold scan_int_part. destruct s as [|c s]; [discriminate|].
  pose proof (take_digits_digits s) as Hds.
  destruct ((49 <=? c)%N && (c <=? 57)%N) eqn:Hc.
  - destruct (take_digits s) as [ds rest]. intros [= <- _].
    apply digits_encodable. cbn [forallb fst] in *. rewrite Hds, andb_true_r.
    apply andb_true_iff in Hc as [H1 H2]. apply N.leb_le in H1, H2.
    unfold ascii_digit. apply andb_true_iff. split; apply N.leb_le; lia.
  - destruct (N.eqb_spec c 48) as [->|]; [|discriminate].
    now intros [= <- _].
Qed.

Lemma scan_fraction_encodable s : encodable (fst (scan_fraction s)) = true.
Proof.
  unfold scan_fraction. destruct s as [|p [|d r]]; try reflexivity.
  destruct (N.eqb_spec p 46) as [->|]; [|reflexivity].
  destruct (ascii_digit d) eqn:Hd; [|reflexivity]. cbn [andb].
  pose proof (take_digits_digits r) as Hds.
  destruct (take_digits r) as [ds rest]. cbn [fst] in *.
  change (encodable (46%N :: d :: ds)) with (encodable (d :: ds)).
  apply digits_encodable. cbn [forallb]. now rewrite Hd, Hds.
Qed.

Lemma scan_exponent_encodable s : encodable (fst (scan_exponent s)) = true.
Proof.
  unfold scan_exponent. destruct s as [|e r]; [reflexivity|].
  destruct ((e =? 101)%N || (e =? 69)%N) eqn:He; [|reflexivity].
  assert (Hsur : surrogate e = false).
  { apply orb_true_iff in He as [H|H]; apply N.eqb_eq in H; now subst. }
  assert (Hgoal : forall sg r',
            encodable sg = true ->
            encodable (fst (match take_digits r' with
                            | ([], _) => ([], e :: r)
                            | (ds, rest) => (e :: sg ++ ds, rest)
                            end)) = true).
  { intros sg r' Hsg. pose proof (take_digits_digits r') as Hds.
    destruct (take_digits r') as [[|d ds] rest]; [reflexivity|].
    cbn [fst] in *. cbn [encodable forallb]. rewrite Hsur. cbn [negb andb].
    fold (encodable (sg ++ d :: ds)). rewrite encodable_app, Hsg.
    now apply digits_encodable. }
  destruct r as [|g r0]; [now apply Hgoal|].
  destruct ((g =? 45)%N || (g =? 43)%N) eqn:Hg; [|now apply Hgoal].
  apply Hgoal. apply orb_true_iff in Hg as [H|H]; apply N.eqb_eq in H; now subst.
Qed.

Lemma scan_number_float s x r :
  scan_number s = Some (VFloat x, r) -> encodable x = true.
Proof.
  unfold scan_number.
  pose proof (scan_sign_encodable s) as Hsign.
  destruct (scan_sign s) as [sign s1].
  destruct (scan_int_part s1) as [[ip s2]|] eqn:Eip; [|discriminate].
  apply scan_int_part_encodable in Eip.
  pose proof (scan_fraction_encodable s2) as Hfrac.
  destruct (scan_fraction s2) as [frac s3].
  pose proof (scan_exponent_encodable s3) as Hexpo.
  destruct (scan_exponent s3) as [expo s4]. cbn [fst] in *.
  assert (Hall : encodable (sign ++ ip ++ frac ++ expo) = true).
  { now rewrite !encodable_app, Hsign, Eip, Hfrac, Hexpo. }
  destruct frac, expo; intros [= <- _]; try discriminate; exact Hall.
Qed.

Lemma scan_atom_float s x r :
  scan_atom s = Some (VFloat x, r) -> encodable x = true.
Proof.
  unfold scan_atom.
  repeat match goal with
         | |- match strip_prefix ?lit s with _ => _ end = _ -> _ =>
           destruct (strip_prefix lit s);
             [intros [= <- _]; try discriminate; reflexivity|]
         end.
  apply scan_number_float.
Qed.

(** The text of a readable float is a numeral, and can be encoded. *)
Lemma readable_float_encodable x :
  readable_float x -> encodable (float_json rt x) = true.
Proof.
  intros Hx. specialize (Hx 0%nat [] eq_refl). rewrite app_nil_r in Hx.
  destruct (float_json rt x) as [|c t] eqn:Et; [discriminate Hx|].
  rewrite scan_once_S in Hx.
  destruct (c =? 34)%N.
  { destruct (scan_string t) as [[? ?]|]; discriminate Hx. }
  destruct (c =? 123)%N.
  { destruct (skip_ws t) as [|c1 r1]; [discriminate Hx|].
    destruct (c1 =? 125)%N; discriminate Hx. }
  destruct (c =? 91)%N.
  { destruct (skip_ws t) as [|c1 r1]; [discriminate Hx|].
    destruct (c1 =? 93)%N; discriminate Hx. }
  now apply scan_atom_float in Hx.
Qed.

Lemma dict_get_storable k v d :
  storable (VDict d) = true -> dict_get k d = Some v ->
  encodable k = true /\ storable v = true.
Proof.
  cbn [storable]. induction d as [|[k' v'] d IH]; cbn [dict_get forallb fst snd];
    [discriminate|].
  intros H. apply andb_true_iff in H as [Hkv Hd].
  destruct (str_eqb k k') eqn:E.
  - apply str_eqb_eq in E. subst k'. intros [= <-].
    now apply andb_true_iff in Hkv.
  - now apply IH.
Qed.

Lemma dict_set_storable k v d :
  storable (VDict d) = true -> encodable k = true -> storable v = true ->
  storable (VDict (dict_set k v d)) = true.
Proof.
  cbn [storable]. intros Hd Hk Hv.
  induction d as [|[k' v'] d IH]; cbn [dict_set forallb fst snd] in *.
  - now rewrite Hk, Hv.
  - apply andb_true_iff in Hd as [Hkv Hd].
    apply andb_true_iff in Hkv as [Hk' Hv'].
    destruct (str_eqb k k'); cbn [forallb fst snd].
    + now rewrite Hk', Hv, Hd.
    + now rewrite Hk', Hv', IH.
Qed.



(** A table without floats whose strings can be encoded is written whole
    and read back as it was. *)
Lemma saved_table_read_back v fs :
  well_formed v = true -> float_free v = true -> storable v = true ->
  load_user_info (save_user_info rt v fs) = v.
Proof.
  intros Hwf Hff Hs. rewrite load_after_save; auto using readable_float_free.
  now apply canon_well_formed.
Qed.

(** ** A file that was cut off *)

Lemma written_cons c r :
  written (c :: r) = if encodable c then c ++ written r else [].
Proof.
  unfold written. cbn [write_all]. destruct (encodable c); [|reflexivity].
  now destruct (write_all r).
Qed.

Lemma written_app a b :
  written (a ++ b)
  = if forallb encodable a then concat a ++ written b else written a.
Proof.
  induction a as [|c a IH]; cbn [List.app forallb concat]; [reflexivity|].
  rewrite !written_cons. destruct (encodable c); cbn [andb]; [|reflexivity].
  rewrite IH. destruct (forallb encodable a); [now rewrite app_assoc|reflexivity].
Qed.

(** More fuel never changes a result of the reader. *)
Lemma scan_fuel_mono fuel :
  (forall s r, scan_once fuel s = Some r -> scan_once (S fuel) s = Some r) /\
  (forall s acc r, parse_members fuel s acc = Some r ->
                   parse_members (S fuel) s acc = Some r) /\
  (forall s acc r, parse_elements fuel s acc = Some r ->
                   parse_elements (S fuel) s acc = Some r).
Proof.
  induction fuel as [|fuel (IHo & IHm & IHe)];
    [repeat split; intros; discriminate|].
  split; [|split].
  - intros [|c s] r; [discriminate|].
    rewrite (scan_once_S (S fuel)), (scan_once_S fuel).
    destruct (c =? 34)%N; [auto|].
    destruct (c =? 123)%N.
    { destruct (skip_ws s) as [|c1 r1]; [auto|].
      destruct (c1 =? 125)%N; [auto|]. apply IHm. }
    destruct (c =? 91)%N; [|auto].
    destruct (skip_ws s) as [|c1 r1]; [auto|].
    destruct (c1 =? 93)%N; [auto|]. apply IHe.
  - intros [|q s] acc r; [discriminate|].
    rewrite (parse_members_S (S fuel)), (parse_members_S fuel).
    destruct (q =? 34)%N; [|auto].
    destruct (scan_string s) as [[key r1]|]; [|auto].
    destruct (skip_ws r1) as [|colon r2]; [auto|].
    destruct (colon =? 58)%N; [|auto].
    destruct (scan_once fuel (skip_ws r2)) as [[val r3]|] eqn:Ev; [|discriminate].
    rewrite (IHo _ _ Ev).
    destruct (skip_ws r3) as [|c r4]; [auto|].
    destruct (c =? 125)%N; [auto|].
    destruct (c =? 44)%N; [|auto]. apply IHm.
  - intros s acc r.
    rewrite (parse_elements_S (S fuel)), (parse_elements_S fuel).
    destruct (scan_once fuel s) as [[val r1]|] eqn:Ev; [|discriminate].
    rewrite (IHo _ _ Ev).
    destruct (skip_ws r1) as [|c r2]; [auto|].
    destruct (c =? 93)%N; [auto|].
    destruct (c =? 44)%N; [|auto]. apply IHe.
Qed.

Lemma scan_once_more k fuel s r :
  scan_once fuel s = Some r -> scan_once (k + fuel) s = Some r.
Proof.
  intros H. induction k as [|k IH]; [exact H|].
  cbn [Nat.add]. now apply scan_fuel_mono.
Qed.

(** With any fuel, a term that was written whole is read back as it
    should be, or not at all. *)
Lemma read_back_any v level rest fuel :
  readable v -> delimited rest = true ->
  scan_once fuel (encode rt level v ++ rest) = None \/
  scan_once fuel (encode rt level v ++ rest) = Some (canon v, rest).
Proof.
  intros Hv Hrest.
  destruct (scan_once fuel (encode rt level v ++ rest)) as [r|] eqn:E;
    [right|now left].
  pose proof (scan_once_more (S (2 * List.length (encode rt level v ++ rest)))
                fuel _ _ E) as Hbig.
  rewrite (scan_once_encode v Hv level rest) in Hbig by (assumption || lia).
  congruence.
Qed.

Lemma scan_once_nil fuel : scan_once fuel [] = None.
Proof. now destruct fuel. Qed.

Lemma parse_members_nil fuel acc : parse_members fuel [] acc = None.
Proof. now destruct fuel. Qed.

Lemma not_space_start c : term_start c = true -> json_space c = false.
Proof. unfold term_start. now destruct (json_space c). Qed.

Lemma skip_ws_encode level v rest :
  readable v -> skip_ws (encode rt level v ++ rest) = encode rt level v ++ rest.
Proof.
  intros Hv. destruct (encode_start level v Hv) as (c & t & -> & Hc).
  cbn [List.app]. now rewrite skip_ws_start by now apply not_space_start.
Qed.

Lemma bracket_encodable level :
  encodable (u "[" ++ newline_indent (S level)) = true.
Proof. rewrite encodable_app. now rewrite newline_indent_encodable. Qed.

Lemma separator_encodable level :
  encodable (u "," ++ newline_indent (S level)) = true.
Proof. rewrite encodable_app. now rewrite newline_indent_encodable. Qed.

(** In a list [json.dump] hands an element that is no container over in
    one piece with what stands in front of it. *)
Lemma written_list_pieces level sep buf y l tail :
  encodable buf = true ->
  written (list_pieces (iterencode rt (S level)) (encode rt (S level)) sep buf (y :: l)
             ++ tail)
  = if storable y then
      buf ++ encode rt (S level) y
        ++ written (list_pieces (iterencode rt (S level)) (encode rt (S level))
                      sep sep l ++ tail)
    else match y with
         | VList _ | VDict _ => buf ++ written (iterencode rt (S level) y)
         | _ => []
         end.
Proof.
  intros Hbuf. cbn [list_pieces]. rewrite <- app_assoc.
  pose proof (encodable_iterencode y (S level)) as Hy.
  pose proof (concat_iterencode y (S level)) as Hc.
  destruct y;
    try (rewrite iterencode_simple in Hy by exact I; cbn [forallb] in Hy;
         rewrite andb_true_r in Hy;
         cbn [List.app]; rewrite written_cons, encodable_app, Hbuf, Hy;
         cbn [andb];
         match goal with
         | |- context [storable ?v] => destruct (storable v)
         end; [now rewrite <- app_assoc|reflexivity]);
    cbn [List.app]; rewrite written_cons, Hbuf, written_app, Hy, Hc;
    match goal with
    | |- context [storable ?v] => destruct (storable v)
    end; reflexivity.
Qed.

(** What the file has taken of a term starts like a term, if it has
    taken anything. *)
Lemma written_start level v :
  readable v ->
  match written (iterencode rt level v) with
  | [] => True
  | c :: _ => term_start c = true
  end.
Proof.
  intros Hv.
  assert (Hsimple : match v with VList _ | VDict _ => False | _ => True end ->
                    match written (iterencode rt level v) with
                    | [] => True
                    | c :: _ => term_start c = true
                    end).
  { intros Hs. rewrite iterencode_simple by assumption.
    rewrite written_cons. destruct (encodable (encode rt level v)); [|exact I].
    destruct (encode_start level v Hv) as (c & t & -> & Hc). exact Hc. }
  destruct v as [|b|z|x|s|[|y ys]|[|[k x] kvs]]; try (apply Hsimple; exact I);
    try reflexivity.
  - cbn [iterencode]. rewrite written_list_pieces by apply bracket_encodable.
    destruct (storable y); [reflexivity|]. now destruct y.
  - cbn [iterencode]. rewrite written_cons. reflexivity.
Qed.

Lemma skip_ws_written level v :
  readable v ->
  skip_ws (written (iterencode rt level v)) = written (iterencode rt level v).
Proof.
  intros Hv. pose proof (written_start level v Hv) as H.
  destruct (written (iterencode rt level v)) as [|c t]; [reflexivity|].
  now apply skip_ws_start, not_space_start.
Qed.

Lemma dict_pieces_next (pieces : value -> list str) sep kv l :
  dict_pieces pieces sep false (kv :: l) = sep :: dict_pieces pieces sep true (kv :: l).
Proof. now destruct kv. Qed.

(** The members of a dict, from the first key on. *)
Lemma written_members level sep k x l tail :
  written (dict_pieces (iterencode rt (S level)) sep true ((k, x) :: l) ++ tail)
  = if encodable k then
      34%N :: flat_map escape_char k ++ 34%N :: 58%N :: 32%N
        :: (if storable x then
              encode rt (S level) x
                ++ written (dict_pieces (iterencode rt (S level)) sep false l ++ tail)
            else written (iterencode rt (S level) x))
    else [].
Proof.
  cbn [dict_pieces]. change ([] ++ ?t) with t. cbn [List.app].
  rewrite written_cons, encode_basestring_encodable.
  destruct (encodable k); [|reflexivity].
  rewrite written_cons. change (encodable (u ": ")) with true. cbv iota.
  rewrite <- app_assoc, written_app, encodable_iterencode, concat_iterencode.
  unfold encode_basestring. cbn [List.app]. rewrite <- app_assoc.
  reflexivity.
Qed.

Lemma members_unread level tail l :
  Forall (fun kv => readable (snd kv)) l ->
  Forall (fun kv => unread (snd kv)) l ->
  forallb (fun kv => encodable (fst kv) && storable (snd kv)) l = false ->
  forall acc fuel,
    parse_members fuel
      (written (dict_pieces (iterencode rt (S level))
                  (u "," ++ newline_indent (S level)) true l ++ tail)) acc
    = None.
Proof.
  induction l as [|[k x] l IH]; intros Hrd Hun Hbad acc fuel; [discriminate Hbad|].
  inversion Hrd as [|? ? Hx Hrd']; subst. inversion Hun as [|? ? Hux Hun']; subst.
  cbn [snd] in Hx, Hux. cbn [forallb fst snd] in Hbad.
  destruct fuel as [|fuel]; [reflexivity|].
  rewrite written_members.
  destruct (encodable k); [|reflexivity]. cbn [andb] in Hbad.
  rewrite parse_members_S. change (34 =? 34)%N with true. cbv iota.
  rewrite scan_string_encoded, skip_ws_start by reflexivity.
  change (58 =? 58)%N with true. cbv iota. rewrite skip_ws_space.
  destruct (storable x) eqn:Hsx.
  2:{ now rewrite (Hux Hx Hsx). }
  cbn [andb] in Hbad. rewrite skip_ws_encode by assumption.
  destruct l as [|kv l]; [discriminate Hbad|].
  rewrite dict_pieces_next. cbn [List.app]. rewrite written_cons.
  rewrite separator_encodable.
  change (u ",") with [44%N]. cbn [List.app].
  match goal with
  | |- context [scan_once fuel (?t ++ ?rest)] =>
    destruct (read_back_any x (S level) rest fuel Hx eq_refl) as [-> | ->]
  end; [reflexivity|].
  rewrite skip_ws_start by reflexivity.
  change (44 =? 125)%N with false. change (44 =? 44)%N with true. cbv iota.
  rewrite skip_ws_indent.
  assert (Hskip : forall s, match s with [] => True | c :: _ => c = 34%N end ->
                            skip_ws s = s).
  { intros [|c s] Hs; [reflexivity|]. subst c. reflexivity. }
  rewrite Hskip.
  - now apply IH.
  - destruct kv as [k' x']. rewrite written_members.
    now destruct (encodable k').
Qed.

Lemma elements_unread level tail l :
  Forall readable l ->
  Forall unread l ->
  forall x acc fuel,
    readable x -> unread x ->
    forallb storable (x :: l) = false ->
    parse_elements fuel
      (skip_ws
         (if storable x then
            encode rt (S level) x
              ++ written (list_pieces (iterencode rt (S level)) (encode rt (S level))
                            (u "," ++ newline_indent (S level))
                            (u "," ++ newline_indent (S level)) l ++ tail)
          else written (iterencode rt (S level) x))) acc
    = None.
Proof.
  induction l as [|y l IH]; intros Hrd Hun x acc fuel Hx Hux Hbad;
    (destruct fuel as [|fuel]; [reflexivity|]); rewrite parse_elements_S;
    cbn [forallb] in Hbad; destruct (storable x) eqn:Hsx;
    try (now rewrite (Hux Hx Hsx)); cbn [andb] in Hbad; [discriminate Hbad|].
  inversion Hrd as [|? ? Hy Hrd']; subst. inversion Hun as [|? ? Huy Hun']; subst.
  rewrite skip_ws_encode by assumption.
  rewrite written_list_pieces by apply separator_encodable.
  assert (Hrest :
    forall rest,
      rest = [] \/
      rest = 44%N :: newline_indent (S level)
               ++ (if storable y then
                     encode rt (S level) y
                       ++ written (list_pieces (iterencode rt (S level))
                                     (encode rt (S level))
                                     (u "," ++ newline_indent (S level))
                                     (u "," ++ newline_indent (S level)) l ++ tail)
                   else written (iterencode rt (S level) y)) ->
      match scan_once fuel (encode rt (S level) x ++ rest) with
      | Some (val, r1) =>
        match skip_ws r1 with
        | [] => None
        | c :: r2 =>
          if (c =? 93)%N then Some (VList (acc ++ [val]), r2)
          else if (c =? 44)%N
               then parse_elements fuel (skip_ws r2) (acc ++ [val])
               else None
        end
      | None => None
      end = None).
  { intros rest Hcases.
    assert (Hd : delimited rest = true) by (destruct Hcases as [->| ->]; reflexivity).
    destruct (read_back_any x (S level) rest fuel Hx Hd) as [-> | ->];
      [reflexivity|].
    destruct Hcases as [->| ->]; [reflexivity|].
    rewrite skip_ws_start by reflexivity.
    change (44 =? 93)%N with false. change (44 =? 44)%N with true. cbv iota.
    rewrite skip_ws_indent. now apply IH. }
  apply Hrest. change (u ",") with [44%N]. cbn [List.app].
  destruct (storable y); [now right|].
  destruct y; auto.
Qed.

(** What the file has taken of a term that could not be written whole is
    not a JSON term. *)
Lemma cut_off_unread v : unread v.
Proof.
  induction v as [|b|z|x|s|xs IH|kvs IH] using value_nested_ind;
    intros Hv Hbad level fuel; try discriminate Hbad.
  - inversion Hv as [| | |? Hx| | |]; subst.
    cbn [storable] in Hbad. rewrite (readable_float_encodable x Hx) in Hbad.
    discriminate Hbad.
  - cbn [iterencode encode]. rewrite written_cons, encode_basestring_encodable.
    cbn [storable] in Hbad. rewrite Hbad. apply scan_once_nil.
  - inversion Hv as [| | | | |? Hxs|]; subst.
    destruct xs as [|x xs]; [discriminate Hbad|].
    inversion Hxs as [|? ? Hx Hxs']; subst. inversion IH as [|? ? IHx IHxs]; subst.
    pose proof (elements_unread level [newline_indent level; u "]"] xs Hxs' IHxs
                  x [] (Nat.pred fuel) Hx IHx Hbad) as Hloop.
    pose proof (written_start (S level) x Hx) as Hstart.
    cbn [iterencode]. rewrite written_list_pieces by apply bracket_encodable.
    assert (Hgoal :
      forall body,
        parse_elements (Nat.pred fuel) (skip_ws body) [] = None ->
        match body with [] => True | c :: _ => term_start c = true end ->
        scan_once fuel (skip_ws ((u "[" ++ newline_indent (S level)) ++ body)) = None).
    { intros body Hparse Hhead. change (u "[") with [91%N]. cbn [List.app].
      rewrite skip_ws_start by reflexivity.
      destruct fuel as [|fuel']; [reflexivity|]. cbn [Nat.pred] in Hparse.
      rewrite scan_once_S.
      change (91 =? 34)%N with false. change (91 =? 123)%N with false.
      change (91 =? 91)%N with true. cbv iota. rewrite skip_ws_indent.
      destruct body as [|c t]; [reflexivity|].
      rewrite skip_ws_start in * by now apply not_space_start.
      unfold term_start in Hhead. destruct (c =? 93)%N; [|exact Hparse].
      rewrite andb_false_r in Hhead. discriminate Hhead. }
    destruct (storable x) eqn:Hsx.
    + apply Hgoal; [exact Hloop|].
      destruct (encode_start (S level) x Hx) as (c & t & -> & Hc). exact Hc.
    + destruct x; try apply scan_once_nil; now apply Hgoal.
  - inversion Hv as [| | | | | |? Hkvs]; subst.
    destruct kvs as [|[k x] kvs]; [discriminate Hbad|].
    pose proof (members_unread level [newline_indent level; u "}"] ((k, x) :: kvs)
                  Hkvs IH Hbad [] (Nat.pred fuel)) as Hloop.
    cbn [iterencode]. rewrite !written_cons. change (encodable (u "{")) with true.
    rewrite newline_indent_encodable. cbv iota.
    change (u "{") with [123%N]. cbn [List.app].
    rewrite skip_ws_start by reflexivity.
    destruct fuel as [|fuel']; [reflexivity|]. cbn [Nat.pred] in Hloop.
    rewrite scan_once_S.
    change (123 =? 34)%N with false. change (123 =? 123)%N with true. cbv iota.
    rewrite skip_ws_indent.
    pose proof (written_members level (u "," ++ newline_indent (S level)) k x kvs
                  [newline_indent level; u "}"]) as Htext.
    destruct (written (dict_pieces (iterencode rt (S level))
                         (u "," ++ newline_indent (S level)) true ((k, x) :: kvs)
                         ++ [newline_indent level; u "}"])) as [|c t];
      [reflexivity|].
    destruct (encodable k); [|discriminate Htext].
    injection Htext as -> _. rewrite skip_ws_start by reflexivity.
    change (34 =? 125)%N with false. cbv iota. exact Hloop.
Qed.

(** A table that cannot be written whole leaves a file that the reader
    rejects: it is loaded as the empty mapping. *)
Lemma json_loads_cut_off v :
  readable v -> storable v = false ->
  json_loads (fst (json_dump rt v)) = Raise ValueError.
Proof.
  intros Hv Hbad. unfold json_loads, json_dump.
  fold (written (iterencode rt 0 v)).
  now rewrite (cut_off_unread v Hv Hbad).
Qed.

Lemma load_after_failed_save v fs :
  readable v -> storable v = false ->
  load_user_info (save_user_info rt v fs) = VDict [].
Proof.
  intros Hv Hbad. unfold load_user_info, save_user_info, load_json.
  cbn [user_info_file]. now rewrite json_loads_cut_off.
Qed.

(** *** The edit commands *)

Lemma py_setitem2_dict o k1 k2 v o' :
  py_setitem2 o k1 k2 v = Ok o' ->
  exists d inner, o = VDict d /\ o' = VDict (dict_set k1 inner d).
Proof.
  unfold py_setitem2. destruct o as [| | | | | |d]; try discriminate.
  cbn [py_getitem]. destruct (dict_get k1 d) as [inner|]; [|discriminate].
  cbn [bind]. destruct (py_setitem inner k2 v) as [inner'|]; [|discriminate].
  cbn [bind py_setitem]. intros [= <-]. now exists d, inner'.
Qed.

Lemma validate_birthday_ok today b :
  validate_birthday rt today b = Ok tt <-> acceptable_birthday today b.
Proof.
  unfold validate_birthday, acceptable_birthday, three_integer_fields. split.
  - destruct (split dash b) as [|p0 [|p1 [|p2 [|p3 ps]]]]; try discriminate.
    destruct (py_int rt p0) as [y|] eqn:H0; [|discriminate].
    destruct (py_int rt p1) as [m|] eqn:H1; [|discriminate].
    destruct (py_int rt p2) as [d|] eqn:H2; [|discriminate]. cbn [bind].
    destruct ((1900 <=? y) && (y <=? year today)) eqn:Hy; [|discriminate].
    destruct ((1 <=? m) && (m <=? 12)) eqn:Hm; [|discriminate].
    destruct ((1 <=? d) && (d <=? 31)) eqn:Hd; [|discriminate].
    intros _. exists y, m, d.
    apply andb_true_iff in Hy as [? ?], Hm as [? ?], Hd as [? ?].
    split; [exists p0, p1, p2; auto|lia].
  - intros (y & m & d & (p0 & p1 & p2 & -> & -> & -> & ->) & Hy & Hm & Hd).
    cbn [bind].
    replace ((1900 <=? y) && (y <=? year today)) with true
      by (symmetry; apply andb_true_iff; split; apply Z.leb_le; lia).
    replace ((1 <=? m) && (m <=? 12)) with true
      by (symmetry; apply andb_true_iff; split; apply Z.leb_le; lia).
    replace ((1 <=? d) && (d <=? 31)) with true
      by (symmetry; apply andb_true_iff; split; apply Z.leb_le; lia).
    reflexivity.
Qed.

Lemma validate_birthday_unit today b u0 :
  validate_birthday rt today b = Ok u0 -> validate_birthday rt today b = Ok tt.
Proof. now destruct u0. Qed.

Lemma update_nickname_outcome ev x fs :
  snd (update_nickname rt ev x fs) = fs \/
  assigns (u "nickname") ev x fs (snd (update_nickname rt ev x fs)).
Proof.
  unfold update_nickname, assigns.
  destruct (py_contains (sender_id ev) (load_user_info fs)) as [[|]|e];
    cbn [bind negb try_except snd]; try (now left).
  destruct (py_getitem (load_user_info fs) (sender_id ev)) as [r|e];
    cbn [bind try_except snd]; [|now left].
  destruct (py_get r (u "nickname") (VStr [])) as [old|e];
    cbn [bind try_except snd]; [|now left].
  destruct (py_setitem2 (load_user_info fs) (sender_id ev) (u "nickname") (VStr x))
    as [all|e]; cbn [bind try_except snd]; [|now left].
  right. now exists all.
Qed.

Lemma update_birthday_outcome ev x fs :
  snd (update_birthday rt ev x fs) = fs \/
  acceptable_birthday (now ev) x /\
  assigns (u "birthday") ev x fs (snd (update_birthday rt ev x fs)).
Proof.
  unfold update_birthday, assigns.
  destruct (py_contains (sender_id ev) (load_user_info fs)) as [[|]|e];
    cbn [bind negb try_except snd]; try (now left).
  destruct (validate_birthday rt (now ev) x) as [u0|e] eqn:Hv;
    cbn [bind try_except snd]; [|now left].
  apply validate_birthday_unit, validate_birthday_ok in Hv.
  destruct (py_getitem (load_user_info fs) (sender_id ev)) as [r|e];
    cbn [bind try_except snd]; [|now left].
  destruct (py_get r (u "birthday") (VStr [])) as [old|e];
    cbn [bind try_except snd]; [|now left].
  destruct (py_setitem2 (load_user_info fs) (sender_id ev) (u "birthday") (VStr x))
    as [all|e]; cbn [bind try_except snd]; [|now left].
  right. split; [assumption|]. now exists all.
Qed.

Lemma update_gender_outcome ev x fs :
  snd (update_gender rt ev x fs) = fs \/
  In x valid_genders /\
  assigns (u "gender") ev x fs (snd (update_gender rt ev x fs)).
Proof.
  unfold update_gender, assigns.
  destruct (py_contains (sender_id ev) (load_user_info fs)) as [[|]|e];
    cbn [bind negb try_except snd]; try (now left).
  destruct (existsb (str_eqb x) valid_genders) eqn:Hg;
    cbn [bind negb try_except snd]; [|now left].
  apply existsb_str_eqb in Hg.
  destruct (py_getitem (load_user_info fs) (sender_id ev)) as [r|e];
    cbn [bind try_except snd]; [|now left].
  destruct (py_get r (u "gender") (VStr [])) as [old|e];
    cbn [bind try_except snd]; [|now left].
  destruct (py_setitem2 (load_user_info fs) (sender_id ev) (u "gender") (VStr x))
    as [all|e]; cbn [bind try_except snd]; [|now left].
  right. split; [assumption|]. now exists all.
Qed.

(** *** Ids *)

Lemma keys_canon_members kvs :
  keys (map (canon_member) kvs) = keys kvs.
Proof.
  unfold keys. rewrite map_map. apply map_ext. now intros [k x].
Qed.

Lemma same_user_file_load fs fs' :
  same_user_file fs fs' -> load_user_info fs' = load_user_info fs.
Proof. intros [H _]. unfold load_user_info. now rewrite H. Qed.


Lemma assigns_dict field ev x fs fs' :
  assigns field ev x fs fs' ->
  exists d r,
    load_user_info fs = VDict d /\
    dict_get (sender_id ev) d = Some (VDict r) /\
    fs' = edited fs d (sender_id ev) r field x.
Proof.
  intros (all & _ & Hset & ->). unfold py_setitem2 in Hset.
  destruct (load_user_info fs) as [| | | | | |d]; try discriminate.
  cbn [py_getitem] in Hset.
  destruct (dict_get (sender_id ev) d) as [inner|] eqn:Hr; [|discriminate].
  cbn [bind] in Hset. destruct inner as [| | | | | |r]; try discriminate.
  cbn [py_setitem bind] in Hset. injection Hset as <-.
  now exists d, r.
Qed.

Lemma assigned_storable d id r field x :
  storable (VDict d) = true -> dict_get id d = Some (VDict r) ->
  encodable field = true -> encodable x = true ->
  storable (assigned d id r field x) = true.
Proof.
  intros Hd Hr Hfield Hx.
  destruct (dict_get_storable id (VDict r) d Hd Hr) as [Hid Hrec].
  unfold assigned. apply dict_set_storable; [assumption|assumption|].
  now apply dict_set_storable.
Qed.



Lemma dict_mem_keys {V} k (d : list (str * V)) :
  dict_mem k d = true <-> In k (keys d).
Proof.
  unfold dict_mem. induction d as [|[k' v] d IH]; cbn [dict_get keys map fst In].
  - split; [discriminate|contradiction].
  - destruct (str_eqb k k') eqn:E.
    + apply str_eqb_eq in E. subst. split; auto.
    + apply str_eqb_neq in E. rewrite IH. unfold keys.
      split; [auto|intros [?|?]; [congruence|assumption]].
Qed.

Lemma record_user_dict ev d w :
  record_user rt ev (VDict d) w =
  if dict_mem (sender_id ev) d then (Ok (VDict d), w)
  else
    let v := VDict (dict_set (sender_id ev)
                      (VDict (get_qq_user_info rt ev (sender_id ev) true)) d) in
    (Ok v, (save_user_info rt v (fst w), snd w)).
Proof.
  unfold record_user, bind_action, lift. cbn [py_contains].
  destruct (dict_mem (sender_id ev) d); reflexivity.
Qed.

(** C5. The three defaults: [load_user_info] gives the empty mapping when
    the file is missing, cannot be read or does not parse;
    [parse_birthday] gives the sentinel when one of the three fields is
    absent or falsy; [calculate_age] gives 0 when the birthday cannot be
    split or one of its three fields is not an integer. *)
Theorem safe_defaults :
  (forall fs,
     user_info_file fs = Absent \/ user_info_file fs = Unreadable \/
     (exists text e, user_info_file fs = Content text /\ json_loads text = Raise e) ->
     load_user_info fs = VDict []) /\
  (forall stranger_info field,
     In field [u "birthday_year"; u "birthday_month"; u "birthday_day"] ->
     match dict_get field stranger_info with
     | None => True
     | Some v => truthy rt v = false
     end ->
     parse_birthday rt (VDict stranger_info) = Ok unknown) /\
  (forall today birthday,
     (exists e, py_split birthday dash = Raise e) \/
     (exists b p0 p1 p2 e,
        birthday = VStr b /\ split dash b = [p0; p1; p2] /\
        (py_int rt p0 = Raise e \/ py_int rt p1 = Raise e \/ py_int rt p2 = Raise e)) ->
     calculate_age rt today birthday = 0).
Proof.
  split; [|split].
  - intros fs [H|[H|(text & e & H & Hp)]]; unfold load_user_info, load_json;
      rewrite H; [reflexivity|reflexivity|]. now rewrite Hp.
  - intros d field Hin Hfield. unfold parse_birthday. cbn [py_get bind].
    destruct (dict_get (u "birthday_year") d) as [y|] eqn:Hy.
    2:{ reflexivity. }
    destruct (truthy rt y) eqn:Ty.
    2:{ cbn [bind]. rewrite Ty. cbn [bind]. now rewrite Ty. }
    cbn [bind].
    destruct (dict_get (u "birthday_month") d) as [m|] eqn:Hm.
    2:{ reflexivity. }
    destruct (truthy rt m) eqn:Tm.
    2:{ cbn [bind]. now rewrite Tm. }
    cbn [bind].
    destruct (dict_get (u "birthday_day") d) as [dd|] eqn:Hd.
    2:{ reflexivity. }
    destruct (truthy rt dd) eqn:Td.
    2:{ reflexivity. }
    exfalso.
    destruct Hin as [<-|[<-|[<-|[]]]].
    + rewrite Hy in Hfield. congruence.
    + rewrite Hm in Hfield. congruence.
    + rewrite Hd in Hfield. congruence.
  - intros today birthday [[e He]|(b & p0 & p1 & p2 & e & -> & Hs & Hint)];
      unfold calculate_age.
    + destruct (eq_str birthday unknown); [reflexivity|]. now rewrite He.
    + destruct (eq_str (VStr b) unknown); [reflexivity|].
      cbn [py_split bind]. rewrite Hs.
      destruct Hint as [H|[H|H]].
      * now rewrite H.
      * rewrite H. destruct (py_int rt p0); reflexivity.
      * rewrite H. destruct (py_int rt p0); [|reflexivity].
        destruct (py_int rt p1); reflexivity.
Qed.


(** C7 (amended). A birthday produced by [parse_birthday] is the sentinel
    or the three truthy platform fields, printed as they are and joined by
    '-'; and [update_birthday] changes the files only for an acceptable
    birthday, which it assigns to the sender's record and saves. *)
Theorem stored_birthdays :
  (forall stranger_info b,
     parse_birthday rt stranger_info = Ok b ->
     b = unknown \/
     exists fields y m d,
       stranger_info = VDict fields /\
       dict_get (u "birthday_year") fields = Some y /\ truthy rt y = true /\
       dict_get (u "birthday_month") fields = Some m /\ truthy rt m = true /\
       dict_get (u "birthday_day") fields = Some d /\ truthy rt d = true /\
       b = py_str rt y ++ u "-" ++ py_str rt m ++ u "-" ++ py_str rt d) /\
  (forall ev b fs,
     snd (update_birthday rt ev b fs) = fs \/
     acceptable_birthday (now ev) b /\
     assigns (u "birthday") ev b fs (snd (update_birthday rt ev b fs))).
Proof.
  split; [|apply update_birthday_outcome].
  intros si b. unfold parse_birthday.
  destruct si as [| | | | | |fields]; try discriminate.
  cbn [py_get py_getitem bind].
  destruct (dict_get (u "birthday_year") fields) as [y|] eqn:Hy.
  2:{ cbn [truthy bind]. intros [= <-]. now left. }
  destruct (truthy rt y) eqn:Ty.
  2:{ cbn [bind]. rewrite Ty. cbn [bind]. rewrite Ty. intros [= <-]. now left. }
  cbn [bind].
  destruct (dict_get (u "birthday_month") fields) as [m|] eqn:Hm.
  2:{ cbn [truthy bind]. intros [= <-]. now left. }
  destruct (truthy rt m) eqn:Tm.
  2:{ cbn [bind]. rewrite Tm. intros [= <-]. now left. }
  cbn [bind].
  destruct (dict_get (u "birthday_day") fields) as [d|] eqn:Hd.
  2:{ cbn [truthy]. intros [= <-]. now left. }
  destruct (truthy rt d) eqn:Td.
  2:{ intros [= <-]. now left. }
  cbn [bind]. intros [= <-]. right. exists fields, y, m, d. repeat split; auto.
Qed.

(** C8. A well-formed table without floats is loaded back as it was
    whenever saving it succeeds, that is, whenever [json.dump] writes it
    without raising. *)
Theorem save_load_round_trip (m : value) (fs : files) :
  well_formed m = true ->
  float_free m = true ->
  snd (json_dump rt m) = Ok tt ->
  load_user_info (save_user_info rt m fs) = m.
Proof.
  intros Hwf Hff Hsaved. apply json_dump_ok in Hsaved.
  rewrite load_after_save by (auto using readable_float_free).
  now apply canon_well_formed.
Qed.

(** C10. A command whose sender has no record in the loaded table, a
    birthday that is not acceptable and a gender that is not one of the two
    accepted values each produce one error reply and leave the files as
    they were, the user-info file unwritten. *)
Theorem edit_commands_atomic :
  (forall ev x fs,
     py_contains (sender_id ev) (load_user_info fs) = Ok false ->
     update_nickname rt ev x fs = ([not_registered], fs) /\
     update_birthday rt ev x fs = ([not_registered], fs) /\
     update_gender rt ev x fs = ([not_registered], fs)) /\
  (forall ev b fs,
     ~ acceptable_birthday (now ev) b ->
     exists reply,
       update_birthday rt ev b fs = ([reply], fs) /\ error_reply reply) /\
  (forall ev g fs,
     ~ In g valid_genders ->
     exists reply,
       update_gender rt ev g fs = ([reply], fs) /\ error_reply reply).
Proof.
  split; [|split].
  - intros ev x fs Hc. unfold update_nickname, update_birthday, update_gender.
    rewrite Hc. repeat split; reflexivity.
  - intros ev b fs Hbad. unfold update_birthday.
    destruct (py_contains (sender_id ev) (load_user_info fs)) as [[|]|e];
      cbn [bind negb try_except].
    + destruct (validate_birthday rt (now ev) b) as [u0|e] eqn:Hv.
      * exfalso. apply Hbad.
        now apply validate_birthday_unit, validate_birthday_ok in Hv.
      * eexists. split; [reflexivity|constructor].
    + eexists. split; [reflexivity|constructor].
    + eexists. split; [reflexivity|constructor].
  - intros ev g fs Hbad. unfold update_gender.
    destruct (py_contains (sender_id ev) (load_user_info fs)) as [[|]|e];
      cbn [bind negb try_except].
    + destruct (existsb (str_eqb g) valid_genders) eqn:Hg.
      * exfalso. apply Hbad. now apply existsb_str_eqb.
      * eexists. split; [reflexivity|constructor].
    + eexists. split; [reflexivity|constructor].
    + eexists. split; [reflexivity|constructor].
Qed.

(** ** More on ages *)

(** An age is constantly 0, or follows the birthday's three numbers. *)
Lemma calculate_age_form (b : value) :
  (forall today, calculate_age rt today b = 0) \/
  exists y m d,
    forall today,
      calculate_age rt today b
      = year today - y - (if tuple_ltb (month today, day today) (m, d) then 1 else 0).
Proof.
  destruct b as [| | | |s| |]; try (left; intros today; reflexivity).
  destruct (str_eqb s unknown) eqn:Hu.
  { left. intros today. unfold calculate_age. cbn [eq_str]. now rewrite Hu. }
  destruct (split dash s) as [|p0 [|p1 [|p2 [|p3 ps]]]] eqn:Hs;
    try (left; intros today; unfold calculate_age; cbn [eq_str py_split bind];
         now rewrite Hu, Hs).
  destruct (py_int rt p0) as [y|e0] eqn:H0.
  2:{ left. intros today. unfold calculate_age. cbn [eq_str py_split bind].
      now rewrite Hu, Hs, H0. }
  destruct (py_int rt p1) as [m|e1] eqn:H1.
  2:{ left. intros today. unfold calculate_age. cbn [eq_str py_split bind].
      now rewrite Hu, Hs, H0, H1. }
  destruct (py_int rt p2) as [d|e2] eqn:H2.
  2:{ left. intros today. unfold calculate_age. cbn [eq_str py_split bind].
      now rewrite Hu, Hs, H0, H1, H2. }
  right. exists y, m, d. intros today. apply calculate_age_wellformed.
  exists p0, p1, p2. auto.
Qed.

Lemma tuple_ltb_lt a1 a2 b1 b2 :
  tuple_ltb (a1, a2) (b1, b2) = true <-> a1 < b1 \/ a1 = b1 /\ a2 < b2.
Proof.
  unfold tuple_ltb. cbn [fst snd].
  rewrite orb_true_iff, andb_true_iff, !Z.ltb_lt, Z.eqb_eq. tauto.
Qed.

(** X1. The age never decreases as the days pass, and one year later it
    is exactly one more for a birthday of three integer fields. *)
Theorem age_grows_with_time (b : value) (today : date) :
  (forall later, date_leb today later = true ->
     calculate_age rt today b <= calculate_age rt later b) /\
  (forall s y m d,
     b = VStr s -> three_integer_fields s y m d ->
     calculate_age rt (a_year_later today) b = calculate_age rt today b + 1).
Proof.
  split.
  - intros later Hle.
    destruct (calculate_age_form b) as [H0|(y & m & d & H)].
    + rewrite !H0. lia.
    + rewrite !H.
      unfold date_leb in Hle.
      destruct (tuple_ltb (month today, day today) (m, d)) eqn:E1;
        destruct (tuple_ltb (month later, day later) (m, d)) eqn:E2;
        apply orb_true_iff in Hle as [Hy|Hy];
        rewrite ?andb_true_iff, ?negb_true_iff in Hy;
        try (apply Z.ltb_lt in Hy; lia);
        destruct Hy as [Hy Hmd]; apply Z.eqb_eq in Hy; try lia.
      exfalso.
      apply tuple_ltb_lt in E2.
      assert (E1' : ~ (month today < m \/ month today = m /\ day today < d)).
      { rewrite <- tuple_ltb_lt. congruence. }
      assert (Hmd' : ~ (month later < month today \/
                        month later = month today /\ day later < day today)).
      { rewrite <- tuple_ltb_lt. congruence. }
      lia.
  - intros s y m d -> Hf.
    rewrite !(calculate_age_wellformed _ s y m d Hf).
    cbn [a_year_later year month day]. lia.
Qed.

(** X2. A birthday that [update_birthday] stores is one [calculate_age]
    reads: seen from the day of the command its age lies between -1 and
    the current year minus 1900. *)
Theorem accepted_birthday_age (ev : event) (b : str) (fs : files) :
  snd (update_birthday rt ev b fs) <> fs ->
  exists y m d,
    three_integer_fields b y m d /\
    calculate_age rt (now ev) (VStr b)
    = year (now ev) - y
      - (if tuple_ltb (month (now ev), day (now ev)) (m, d) then 1 else 0) /\
    -1 <= calculate_age rt (now ev) (VStr b) <= year (now ev) - 1900.
Proof.
  intros Hchanged.
  destruct (update_birthday_outcome ev b fs) as [Hsame|[Hacc _]];
    [contradiction|].
  destruct Hacc as (y & m & d & Hf & Hy & _ & _).
  exists y, m, d. split; [assumption|].
  rewrite (calculate_age_wellformed _ b y m d Hf). split; [reflexivity|].
  destruct (tuple_ltb _ _); lia.
Qed.

(** *** From the platform's fields to an age *)

Lemma split_chunk sep (p r : str) :
  forallb (fun c => negb (c =? sep)%N) p = true ->
  split sep (p ++ sep :: r) = p :: split sep r.
Proof.
  induction p as [|c p IH]; intros Hp.
  - cbn [List.app split]. now rewrite N.eqb_refl.
  - cbn [forallb] in Hp. apply andb_true_iff in Hp as [Hc Hp].
    cbn [List.app split]. apply negb_true_iff in Hc. rewrite Hc.
    now rewrite (IH Hp).
Qed.

Lemma split_last sep (p : str) :
  forallb (fun c => negb (c =? sep)%N) p = true ->
  split sep p = [p].
Proof.
  induction p as [|c p IH]; intros Hp; [reflexivity|].
  cbn [forallb] in Hp. apply andb_true_iff in Hp as [Hc Hp].
  cbn [split]. apply negb_true_iff in Hc. rewrite Hc.
  now rewrite (IH Hp).
Qed.

Lemma numeral_without_dash d :
  forallb (fun c => negb (c =? dash)%N) (chars_of_uint d) = true.
Proof. induction d; simpl; auto. Qed.

Lemma scan_digits_numeral d :
  scan_digits rt AfterDigit (chars_of_uint d)
  = Some (digit_values (chars_of_uint d), []).
Proof.
  induction d; [reflexivity| ..];
    cbn [chars_of_uint digit_values map]; cbn [scan_digits];
    unfold digit_value; cbn [N.ltb N.compare Pos.compare Pos.compare_cont
                             N.leb andb];
    fold (digit_values (chars_of_uint d)); rewrite IHd; reflexivity.
Qed.

(** [int(str(n))] is [n]. *)
Lemma py_int_str_of_N n : py_int rt (str_of_N n) = Ok (Z.of_N n).
Proof.
  unfold str_of_N.
  assert (Hval : N_of_digits (digit_values (chars_of_uint (N.to_uint n))) = n).
  { unfold N_of_digits. now rewrite uint_of_chars, DecimalN.Unsigned.of_to. }
  pose proof (scan_digits_numeral (N.to_uint n)) as Hscan.
  assert (Hhead : match chars_of_uint (N.to_uint n) with
                  | c :: _ => ascii_digit c = true
                  | [] => False
                  end).
  { destruct (str_of_N_head n) as (c & t & Ht & Hc). unfold str_of_N in Ht.
    now rewrite Ht. }
  destruct (chars_of_uint (N.to_uint n)) as [|c t] eqn:Hchars; [contradiction|].
  assert (Hc : (48 <= c <= 57)%N).
  { unfold ascii_digit in Hhead. apply andb_true_iff in Hhead as [H1 H2].
    apply N.leb_le in H1, H2. lia. }
  unfold py_int. cbn [drop_space]. unfold is_space.
  replace (c <? 128)%N with true by (symmetry; apply N.ltb_lt; lia).
  replace (c =? 32)%N with false by (symmetry; apply N.eqb_neq; lia).
  replace (c <=? 13)%N with false by (symmetry; apply N.leb_gt; lia).
  rewrite andb_false_r. cbn [orb].
  replace (c =? 43)%N with false by (symmetry; apply N.eqb_neq; lia).
  replace (c =? dash)%N with false by (symmetry; apply N.eqb_neq; unfold dash; lia).
  cbn [scan_digits] in Hscan |- *.
  destruct (digit_value rt c) as [v|].
  - destruct (scan_digits rt AfterDigit t) as [[ds rest]|]; [|discriminate Hscan].
    assert (Hds : v :: ds = digit_values (c :: t)) by congruence.
    assert (Hrest : rest = []) by congruence.
    subst rest. cbn [drop_space]. now rewrite Hds, Hval.
  - exfalso. revert Hscan.
    replace (c =? underscore)%N with false
      by (symmetry; apply N.eqb_neq; unfold underscore; lia).
    discriminate.
Qed.

Lemma py_int_positive z : 0 < z -> py_int rt (str_of_Z z) = Ok z.
Proof.
  intros Hz. unfold str_of_Z.
  replace (z <? 0) with false by (symmetry; apply Z.ltb_ge; lia).
  rewrite py_int_str_of_N. f_equal. lia.
Qed.

Lemma positive_without_dash z :
  0 < z -> forallb (fun c => negb (c =? dash)%N) (str_of_Z z) = true.
Proof.
  intros Hz. unfold str_of_Z.
  replace (z <? 0) with false by (symmetry; apply Z.ltb_ge; lia).
  apply numeral_without_dash.
Qed.

(** X3. A birthday that [parse_birthday] builds from three positive
    integer fields is read back by [calculate_age] as these three
    numbers. *)
Theorem parsed_birthday_age (today : date) (fields : dict) (y m d : Z) :
  dict_get (u "birthday_year") fields = Some (VInt y) ->
  dict_get (u "birthday_month") fields = Some (VInt m) ->
  dict_get (u "birthday_day") fields = Some (VInt d) ->
  0 < y -> 0 < m -> 0 < d ->
  exists b,
    parse_birthday rt (VDict fields) = Ok b /\
    three_integer_fields b y m d /\
    calculate_age rt today (VStr b)
    = year today - y - (if tuple_ltb (month today, day today) (m, d) then 1 else 0).
Proof.
  intros Hy Hm Hd Py Pm Pd.
  exists (str_of_Z y ++ u "-" ++ str_of_Z m ++ u "-" ++ str_of_Z d).
  assert (Hf : three_integer_fields
                 (str_of_Z y ++ u "-" ++ str_of_Z m ++ u "-" ++ str_of_Z d) y m d).
  { exists (str_of_Z y), (str_of_Z m), (str_of_Z d).
    repeat split; try (now apply py_int_positive).
    change (u "-") with [dash]. cbn [List.app].
    rewrite !split_chunk, split_last by now apply positive_without_dash.
    reflexivity. }
  repeat split; [|exact Hf|now apply calculate_age_wellformed].
  assert (Ty : (y =? 0) = false) by (apply Z.eqb_neq; lia).
  assert (Tm : (m =? 0) = false) by (apply Z.eqb_neq; lia).
  assert (Td : (d =? 0) = false) by (apply Z.eqb_neq; lia).
  unfold parse_birthday. cbn [py_get py_getitem bind].
  rewrite Hy. cbn [truthy bind]. rewrite Ty. cbn [negb bind].
  rewrite Hm. cbn [truthy bind]. rewrite Tm. cbn [negb bind].
  rewrite Hd. cbn [truthy bind]. rewrite Td. reflexivity.
Qed.

(** ** The record built for a new sender *)

Lemma gender_text_cases sex g :
  get_gender_text sex = Ok g -> In g gender_texts.
Proof.
  unfold get_gender_text, map_get.
  destruct (hashable sex); [|discriminate].
  intros [= <-].
  destruct sex as [| | | |s| |]; try (right; right; left; reflexivity).
  unfold gender_map. cbn [dict_get].
  destruct (str_eqb s (u "male")); [left; reflexivity|].
  destruct (str_eqb s (u "female")); [right; left; reflexivity|].
  destruct (str_eqb s (u "unknown")); right; right; left; reflexivity.
Qed.

(** X4. The record of [get_qq_user_info] is made of the fields it starts
    from, then the gender and the birthday or neither, then the group role
    and the group title or neither; the profile pair needs a platform
    event and [update_user_info], the group pair a platform event of a
    group chat, and a stored title is never empty. *)
Theorem get_qq_user_info_shape (ev : event) (qq_number : str) (upd : bool) :
  exists profile group,
    get_qq_user_info rt ev qq_number upd
    = base_record ev qq_number upd ++ profile ++ group /\
    (profile = [] \/
     exists g b,
       In g gender_texts /\
       profile = [(u "gender", VStr g); (u "birthday", VStr b)] /\
       upd = true /\ platform_name ev = aiocqhttp /\ aiocqhttp_event ev = true) /\
    (group = [] \/
     exists role title,
       truthy rt title = true /\
       group = [(u "group_role", role); (u "group_title", title)] /\
       group_id ev <> [] /\ platform_name ev = aiocqhttp /\
       aiocqhttp_event ev = true).
Proof.
  unfold get_qq_user_info.
  destruct (str_eqb (platform_name ev) aiocqhttp) eqn:Hp; cbn [negb].
  2:{ exists [], []. destruct upd; repeat split; auto. }
  apply str_eqb_eq in Hp.
  destruct (aiocqhttp_event ev) eqn:Ha; cbn [negb].
  2:{ exists [], []. destruct upd; repeat split; auto. }
  set (base := if upd
              then dict_set (u "nickname") (VStr (sender_name ev))
                     [(u "qq_number", VStr qq_number);
                      (u "timestamp", VInt (timestamp ev))]
              else [(u "qq_number", VStr qq_number);
                    (u "timestamp", VInt (timestamp ev))]).
  assert (Hbase : base = base_record ev qq_number upd).
  { unfold base, base_record. now destruct upd. }
  match goal with
  | |- exists profile group, match ?first with _ => _ end = _ /\ _ =>
    assert (Hfirst :
      match first with
      | Raise _ => True
      | Ok user_info =>
        exists profile,
          user_info = base_record ev qq_number upd ++ profile /\
          (profile = [] \/
           exists g b,
             In g gender_texts /\
             profile = [(u "gender", VStr g); (u "birthday", VStr b)] /\
             upd = true)
      end);
    [|destruct first as [user_info|e]]
  end.
  { destruct upd.
    - destruct (py_int rt qq_number); [|exact I]. cbn [bind].
      destruct (stranger_info_reply ev) as [stranger_info|]; [|exact I]. cbn [bind].
      destruct (parse_birthday rt stranger_info) as [birthday|]; [|exact I].
      cbn [bind].
      destruct (py_get stranger_info (u "sex") (VStr (u "unknown"))) as [sex|];
        [|exact I].
      cbn [bind].
      destruct (get_gender_text sex) as [gender|] eqn:Hg; [|exact I]. cbn [bind].
      exists [(u "gender", VStr gender); (u "birthday", VStr birthday)].
      split; [reflexivity|]. right. exists gender, birthday.
      repeat split. now apply gender_text_cases with sex.
    - exists []. split; [now rewrite app_nil_r|now left]. }
  2:{ exists [], []. rewrite Hbase, !app_nil_r. repeat split; auto. }
  destruct Hfirst as (profile & -> & Hprofile).
  assert (Hprofile' :
    profile = [] \/
    exists g b,
      In g gender_texts /\
      profile = [(u "gender", VStr g); (u "birthday", VStr b)] /\
      upd = true /\ platform_name ev = aiocqhttp /\ true = true).
  { destruct Hprofile as [->|(g & b & Hg & -> & ->)]; [now left|].
    right. exists g, b. repeat split; auto. }
  assert (Hnone : exists group,
            base_record ev qq_number upd ++ profile
            = base_record ev qq_number upd ++ profile ++ group /\
            (group = [] \/
             exists role title,
               truthy rt title = true /\
               group = [(u "group_role", role); (u "group_title", title)] /\
               group_id ev <> [] /\ platform_name ev = aiocqhttp /\ true = true)).
  { exists []. rewrite app_nil_r. auto. }
  destruct (truthy rt (VStr (group_id ev))) eqn:Hgroup.
  2:{ destruct Hnone as (group & Heq & Hgrp). exists profile, group. auto. }
  destruct (bind (py_int rt (group_id ev)) (fun _ => py_int rt qq_number)).
  2:{ destruct Hnone as (group & Heq & Hgrp). exists profile, group. auto. }
  destruct (group_member_info_reply ev) as [group_member_info|];
    cbn [bind try_except].
  2:{ destruct Hnone as (group & Heq & Hgrp). exists profile, group. auto. }
  destruct (py_get group_member_info (u "role") (VStr (u "member"))) as [role|];
    cbn [bind try_except].
  2:{ destruct Hnone as (group & Heq & Hgrp). exists profile, group. auto. }
  destruct (py_get group_member_info (u "title") (VStr [])) as [title|];
    cbn [bind try_except].
  2:{ destruct Hnone as (group & Heq & Hgrp). exists profile, group. auto. }
  exists profile,
    [(u "group_role", role);
     (u "group_title", if truthy rt title then title else VStr no_title)].
  split; [|split; [exact Hprofile'|]].
  - destruct Hprofile as [->|(g & b & _ & -> & Hupd)];
      [destruct upd|rewrite Hupd]; reflexivity.
  - right. eexists _, _. repeat split; auto.
    + destruct (truthy rt title) eqn:Ht; [exact Ht|reflexivity].
    + intros Hnil. rewrite Hnil in Hgroup. discriminate Hgroup.
Qed.

Lemma base_record_eq ev qq_number (upd : bool) :
  (if upd
   then dict_set (u "nickname") (VStr (sender_name ev))
          [(u "qq_number", VStr qq_number); (u "timestamp", VInt (timestamp ev))]
   else [(u "qq_number", VStr qq_number); (u "timestamp", VInt (timestamp ev))])
  = base_record ev qq_number upd.
Proof. now destruct upd. Qed.

Lemma failed_profile_lookup ev qq_number e :
  stranger_info_reply ev = Raise e ->
  get_qq_user_info rt ev qq_number true = base_record ev qq_number true.
Proof.
  intros Hreply. unfold get_qq_user_info.
  rewrite !(base_record_eq ev qq_number true), Hreply.
  destruct (negb (str_eqb (platform_name ev) aiocqhttp)); [reflexivity|].
  destruct (negb (aiocqhttp_event ev)); [reflexivity|].
  now destruct (py_int rt qq_number).
Qed.

(** X5. What the lookups lose when they fail: a sender id that is no
    integer, or a failed profile lookup, leaves only the fields the record
    starts from, also in a group chat; a failed group lookup leaves the
    record of the same message sent outside of a group, profile
    included. *)
Theorem lookup_failures (ev : event) (qq_number : str) :
  (forall upd e,
     py_int rt qq_number = Raise e ->
     get_qq_user_info rt ev qq_number upd = base_record ev qq_number upd) /\
  (forall e,
     stranger_info_reply ev = Raise e ->
     get_qq_user_info rt ev qq_number true = base_record ev qq_number true) /\
  (forall upd e,
     group_member_info_reply ev = Raise e ->
     get_qq_user_info rt ev qq_number upd
     = get_qq_user_info rt (in_private ev) qq_number upd).
Proof.
  split; [|split].
  - intros upd e Hint. unfold get_qq_user_info. rewrite !base_record_eq, Hint.
    destruct (negb (str_eqb (platform_name ev) aiocqhttp)); [reflexivity|].
    destruct (negb (aiocqhttp_event ev)); [reflexivity|].
    destruct upd; cbn [bind]; [reflexivity|].
    destruct (truthy rt (VStr (group_id ev))); [|reflexivity].
    now destruct (py_int rt (group_id ev)).
  - intros e. apply failed_profile_lookup.
  - intros upd e Hreply. unfold get_qq_user_info.
    cbn [in_private platform_name aiocqhttp_event sender_name timestamp
         stranger_info_reply group_member_info_reply group_id].
    rewrite Hreply.
    destruct (negb (str_eqb (platform_name ev) aiocqhttp)); [reflexivity|].
    destruct (negb (aiocqhttp_event ev)); [reflexivity|].
    match goal with
    | |- match ?first with _ => _ end = _ => destruct first as [user_info|]
    end; [|reflexivity].
    destruct (truthy rt (VStr (group_id ev))); [|reflexivity].
    now destruct (bind (py_int rt (group_id ev)) (fun _ => py_int rt qq_number)).
Qed.

(** ** Tables that were read from a file *)

Lemma dict_set_NoDup {V} k (v : V) d :
  NoDup (keys d) -> NoDup (keys (dict_set k v d)).
Proof.
  induction d as [|[k' v'] d IH]; cbn [dict_set keys map fst]; intros Hnd.
  - constructor; [intros []|constructor].
  - inversion Hnd as [|? ? Hk Hd]; subst.
    destruct (str_eqb k k') eqn:E; cbn [map fst].
    + now constructor.
    + apply str_eqb_neq in E. constructor.
      * fold (keys (dict_set k v d)). rewrite keys_dict_set.
        intros [->|Hin]; [congruence|contradiction].
      * now apply IH.
Qed.

Lemma dict_set_forallb {V} (P : str * V -> bool) k (v : V) d :
  (forall k', P (k', v) = true) ->
  forallb P d = true -> forallb P (dict_set k v d) = true.
Proof.
  intros Hv. induction d as [|[k' v'] d IH]; cbn [dict_set forallb]; intros Hd.
  - now rewrite Hv.
  - apply andb_true_iff in Hd as [Hkv Hd].
    destruct (str_eqb k k'); cbn [forallb].
    + now rewrite Hv, Hd.
    + now rewrite Hkv, IH.
Qed.

Lemma dict_set_well_formed k v d :
  well_formed (VDict d) = true -> well_formed v = true ->
  well_formed (VDict (dict_set k v d)) = true.
Proof.
  cbn [well_formed]. intros Hd Hv. apply andb_true_iff in Hd as [Hk Hd].
  apply andb_true_iff. split.
  - apply distinct_NoDup. apply (dict_set_NoDup k v d). now apply distinct_NoDup.
  - now apply dict_set_forallb.
Qed.

Lemma dict_set_float_free k v d :
  float_free (VDict d) = true -> float_free v = true ->
  float_free (VDict (dict_set k v d)) = true.
Proof.
  cbn [float_free]. intros Hd Hv. now apply dict_set_forallb.
Qed.

Lemma dict_get_forallb {V} (P : str * V -> bool) k (v : V) d :
  forallb P d = true -> dict_get k d = Some v -> exists k', P (k', v) = true.
Proof.
  induction d as [|[k' v'] d IH]; cbn [dict_get forallb]; [discriminate|].
  intros Hd. apply andb_true_iff in Hd as [Hkv Hd].
  destruct (str_eqb k k').
  - intros [= <-]. now exists k'.
  - now apply IH.
Qed.

Lemma dict_get_well_formed k v d :
  well_formed (VDict d) = true -> dict_get k d = Some v -> well_formed v = true.
Proof.
  cbn [well_formed]. intros Hd Hget. apply andb_true_iff in Hd as [_ Hd].
  now destruct (dict_get_forallb _ k v d Hd Hget) as [k' H].
Qed.

Lemma dict_get_float_free k v d :
  float_free (VDict d) = true -> dict_get k d = Some v -> float_free v = true.
Proof.
  cbn [float_free]. intros Hd Hget.
  now destruct (dict_get_forallb _ k v d Hd Hget) as [k' H].
Qed.

Lemma scan_number_flat s v r :
  scan_number s = Some (v, r) -> well_formed v = true.
Proof.
  unfold scan_number. destruct (scan_sign s) as [sign s1].
  destruct (scan_int_part s1) as [[ip s2]|]; [|discriminate].
  destruct (scan_fraction s2) as [frac s3].
  destruct (scan_exponent s3) as [expo s4].
  destruct frac, expo; intros [= <- _]; reflexivity.
Qed.

Lemma scan_atom_flat s v r :
  scan_atom s = Some (v, r) -> well_formed v = true.
Proof.
  unfold scan_atom.
  repeat match goal with
         | |- match strip_prefix ?lit s with _ => _ end = _ -> _ =>
           destruct (strip_prefix lit s); [intros [= <- _]; reflexivity|]
         end.
  apply scan_number_flat.
Qed.

(** The reader never builds a dict with one key twice. *)
Lemma scan_well_formed fuel :
  (forall s v r, scan_once fuel s = Some (v, r) -> well_formed v = true) /\
  (forall s acc v r,
     well_formed (VDict acc) = true ->
     parse_members fuel s acc = Some (v, r) -> well_formed v = true) /\
  (forall s acc v r,
     well_formed (VList acc) = true ->
     parse_elements fuel s acc = Some (v, r) -> well_formed v = true).
Proof.
  induction fuel as [|fuel (IHo & IHm & IHe)];
    [repeat split; intros; discriminate|].
  split; [|split].
  - intros [|c s] v r; [discriminate|]. rewrite scan_once_S.
    destruct (c =? 34)%N.
    { destruct (scan_string s) as [[t rest]|]; [|discriminate].
      intros [= <- _]. reflexivity. }
    destruct (c =? 123)%N.
    { destruct (skip_ws s) as [|c1 r1]; [discriminate|].
      destruct (c1 =? 125)%N.
      - intros [= <- _]. reflexivity.
      - apply IHm. reflexivity. }
    destruct (c =? 91)%N.
    { destruct (skip_ws s) as [|c1 r1]; [discriminate|].
      destruct (c1 =? 93)%N.
      - intros [= <- _]. reflexivity.
      - apply IHe. reflexivity. }
    apply scan_atom_flat.
  - intros [|q s] acc v r Hacc; [discriminate|]. rewrite parse_members_S.
    destruct (q =? 34)%N; [|discriminate].
    destruct (scan_string s) as [[key r1]|]; [|discriminate].
    destruct (skip_ws r1) as [|colon r2]; [discriminate|].
    destruct (colon =? 58)%N; [|discriminate].
    destruct (scan_once fuel (skip_ws r2)) as [[val r3]|] eqn:Ev; [|discriminate].
    apply IHo in Ev.
    pose proof (dict_set_well_formed key val acc Hacc Ev) as Hacc'.
    destruct (skip_ws r3) as [|c r4]; [discriminate|].
    destruct (c =? 125)%N.
    + now intros [= <- _].
    + destruct (c =? 44)%N; [|discriminate]. now apply IHm.
  - intros s acc v r Hacc. rewrite parse_elements_S.
    destruct (scan_once fuel s) as [[val r1]|] eqn:Ev; [|discriminate].
    apply IHo in Ev.
    assert (Hacc' : well_formed (VList (acc ++ [val])) = true).
    { cbn [well_formed] in *. rewrite forallb_app, Hacc. cbn [forallb].
      now rewrite Ev. }
    destruct (skip_ws r1) as [|c r2]; [discriminate|].
    destruct (c =? 93)%N.
    + now intros [= <- _].
    + destruct (c =? 44)%N; [|discriminate]. now apply IHe.
Qed.

Lemma load_json_well_formed f : well_formed (load_json f) = true.
Proof.
  unfold load_json. destruct f as [| |text]; try reflexivity.
  unfold json_loads.
  destruct (scan_once _ (skip_ws text)) as [[v rest]|] eqn:E; [|reflexivity].
  destruct (skip_ws rest); [|reflexivity].
  cbn [try_except]. exact (proj1 (scan_well_formed _) _ _ _ E).
Qed.

(** ** What the commands do when they succeed *)

Lemma loaded_well_formed fs : well_formed (load_user_info fs) = true.
Proof. apply load_json_well_formed. Qed.

Lemma assigned_well_formed d id r field x :
  well_formed (VDict d) = true -> dict_get id d = Some (VDict r) ->
  well_formed (assigned d id r field x) = true.
Proof.
  intros Hd Hr. unfold assigned. apply dict_set_well_formed; [assumption|].
  apply dict_set_well_formed; [|reflexivity].
  now apply dict_get_well_formed with id d.
Qed.

Lemma assigned_float_free d id r field x :
  float_free (VDict d) = true -> dict_get id d = Some (VDict r) ->
  float_free (assigned d id r field x) = true.
Proof.
  intros Hd Hr. unfold assigned. apply dict_set_float_free; [assumption|].
  apply dict_set_float_free; [|reflexivity].
  now apply dict_get_float_free with id d.
Qed.

Lemma py_setitem2_assigned d id r field x :
  dict_get id d = Some (VDict r) ->
  py_setitem2 (VDict d) id field (VStr x) = Ok (assigned d id r field x).
Proof.
  intros Hr. unfold py_setitem2. cbn [py_getitem]. now rewrite Hr.
Qed.

Lemma edited_read_back fs d id r field x :
  load_user_info fs = VDict d -> dict_get id d = Some (VDict r) ->
  float_free (VDict d) = true ->
  storable (assigned d id r field x) = true ->
  load_user_info (edited fs d id r field x) = assigned d id r field x.
Proof.
  intros Hload Hr Hff Hst. unfold edited. apply saved_table_read_back.
  - apply assigned_well_formed; [|assumption].
    rewrite <- Hload. apply loaded_well_formed.
  - now apply assigned_float_free.
  - exact Hst.
Qed.

Lemma edited_cut_off fs d id r field x :
  dict_get id d = Some (VDict r) ->
  float_free (VDict d) = true ->
  storable (assigned d id r field x) = false ->
  load_user_info (edited fs d id r field x) = VDict [].
Proof.
  intros Hr Hff Hst. unfold edited. apply load_after_failed_save; [|exact Hst].
  apply readable_float_free. now apply assigned_float_free.
Qed.

(** The table that is read back after an edit. *)
Lemma edited_loaded fs d id r field x :
  load_user_info fs = VDict d -> dict_get id d = Some (VDict r) ->
  float_free (VDict d) = true ->
  load_user_info (edited fs d id r field x)
  = if storable (assigned d id r field x) then assigned d id r field x
    else VDict [].
Proof.
  intros Hload Hr Hff.
  destruct (storable (assigned d id r field x)) eqn:Hst.
  - now apply edited_read_back.
  - now apply edited_cut_off.
Qed.

Lemma dict_get_mem {V} k (d : list (str * V)) v :
  dict_get k d = Some v -> dict_mem k d = true.
Proof. unfold dict_mem. now intros ->. Qed.

(** X6. A command of a sender whose record is a dict, in a table without
    floats, answers with its confirmation and saves the loaded table with
    that one field of that one record assigned.  When every string of
    this table can be encoded, the table read back from the file is
    exactly this table; when one cannot, the file is cut off and the empty
    table is read back, and the confirmation is sent all the same.
    [update_nickname] takes any text, [update_birthday] an acceptable
    birthday, [update_gender] one of the two accepted values. *)
Theorem edit_commands_effect (ev : event) (x : str) (fs : files) (d r : dict) :
  load_user_info fs = VDict d ->
  dict_get (sender_id ev) d = Some (VDict r) ->
  float_free (VDict d) = true ->
  (forall field,
     load_user_info (edited fs d (sender_id ev) r field x)
     = if storable (assigned d (sender_id ev) r field x)
       then assigned d (sender_id ev) r field x
       else VDict []) /\
  update_nickname rt ev x fs
  = ([Plain (u "已更新您的昵称: " ++ x)],
     edited fs d (sender_id ev) r (u "nickname") x) /\
  (acceptable_birthday (now ev) x ->
   update_birthday rt ev x fs
   = ([Plain (u "已更新您的生日: " ++ x)],
      edited fs d (sender_id ev) r (u "birthday") x)) /\
  (In x valid_genders ->
   update_gender rt ev x fs
   = ([Plain (u "已更新您的性别: " ++ x)],
      edited fs d (sender_id ev) r (u "gender") x)).
Proof.
  intros Hload Hr Hff.
  pose proof (dict_get_mem _ _ _ Hr) as Hmem.
  split; [intros field; now apply edited_loaded|].
  split; [|split].
  - unfold update_nickname. rewrite Hload. cbn [py_contains bind].
    rewrite Hmem. cbn [negb py_getitem]. rewrite Hr. cbn [bind py_get].
    now rewrite (py_setitem2_assigned d _ r).
  - intros Hacc. apply validate_birthday_ok in Hacc.
    unfold update_birthday. rewrite Hload. cbn [py_contains bind].
    rewrite Hmem. cbn [negb]. rewrite Hacc. cbn [py_getitem]. rewrite Hr.
    cbn [bind py_get].
    now rewrite (py_setitem2_assigned d _ r).
  - intros Hin. apply existsb_str_eqb in Hin.
    unfold update_gender. rewrite Hload. cbn [py_contains bind].
    rewrite Hmem. cbn [negb]. rewrite Hin. cbn [negb py_getitem]. rewrite Hr.
    cbn [bind py_get].
    now rewrite (py_setitem2_assigned d _ r).
Qed.

(** *** Sequences of edits *)

Lemma dict_get_set_same {V} k (v : V) d : dict_get k (dict_set k v d) = Some v.
Proof.
  induction d as [|[k' v'] d IH]; cbn [dict_set dict_get].
  - now rewrite str_eqb_refl.
  - destruct (str_eqb k k') eqn:E; cbn [dict_get]; now rewrite E.
Qed.

Lemma dict_get_set_other {V} k k' (v : V) d :
  k <> k' -> dict_get k (dict_set k' v d) = dict_get k d.
Proof.
  intros Hne. induction d as [|[k0 v0] d IH]; cbn [dict_set dict_get].
  - apply str_eqb_neq in Hne. now rewrite Hne.
  - destruct (str_eqb k' k0) eqn:E; cbn [dict_get].
    + apply str_eqb_eq in E. subst k0.
      apply str_eqb_neq in Hne. now rewrite Hne.
    + now rewrite IH.
Qed.

Lemma dict_set_twice {V} k (v v' : V) d :
  dict_set k v' (dict_set k v d) = dict_set k v' d.
Proof.
  induction d as [|[k0 v0] d IH]; cbn [dict_set].
  - now rewrite str_eqb_refl.
  - destruct (str_eqb k k0) eqn:E; cbn [dict_set]; rewrite E; [reflexivity|].
    now rewrite IH.
Qed.

Lemma dict_set_swap {V} k k' (v v' : V) d :
  k <> k' -> dict_mem k d = true -> dict_mem k' d = true ->
  dict_set k v (dict_set k' v' d) = dict_set k' v' (dict_set k v d).
Proof.
  intros Hne. unfold dict_mem.
  induction d as [|[k0 v0] d IH]; cbn [dict_get]; [discriminate|].
  intros Hk Hk'. cbn [dict_set].
  destruct (str_eqb k k0) eqn:E; destruct (str_eqb k' k0) eqn:E';
    cbn [dict_set]; rewrite ?E, ?E'; try reflexivity.
  - apply str_eqb_eq in E, E'. congruence.
  - f_equal. now apply IH.
Qed.

(** The files after [update_nickname], whatever the table holds. *)
Lemma update_nickname_files ev x fs :
  snd (update_nickname rt ev x fs)
  = match load_user_info fs with
    | VDict d =>
      match dict_get (sender_id ev) d with
      | Some (VDict r) => edited fs d (sender_id ev) r (u "nickname") x
      | _ => fs
      end
    | _ => fs
    end.
Proof.
  unfold update_nickname.
  destruct (load_user_info fs) as [| | | |s|xs|d]; try reflexivity.
  - cbn [py_contains bind]. now destruct (is_infix (sender_id ev) s).
  - cbn [py_contains bind].
    now destruct (existsb (fun x0 => eq_str x0 (sender_id ev)) xs).
  - cbn [py_contains bind]. unfold dict_mem.
    destruct (dict_get (sender_id ev) d) as [v|] eqn:Hv; cbn [negb];
      [|reflexivity].
    cbn [py_getitem]. rewrite Hv. cbn [bind].
    destruct v as [| | | | | |r]; try reflexivity.
    cbn [py_get bind]. now rewrite (py_setitem2_assigned d _ r).
Qed.

Lemma update_nickname_edited ev y fs d id r field x :
  load_user_info fs = VDict d -> dict_get id d = Some (VDict r) ->
  float_free (VDict d) = true ->
  storable (assigned d id r field x) = true ->
  snd (update_nickname rt ev y (edited fs d id r field x))
  = match dict_get (sender_id ev)
            (dict_set id (VDict (dict_set field (VStr x) r)) d) with
    | Some (VDict r') =>
      edited (edited fs d id r field x)
        (dict_set id (VDict (dict_set field (VStr x) r)) d)
        (sender_id ev) r' (u "nickname") y
    | _ => edited fs d id r field x
    end.
Proof.
  intros Hload Hr Hff Hst.
  rewrite update_nickname_files, (edited_read_back fs d id r) by assumption.
  reflexivity.
Qed.

(** X7. Nickname edits compose when the table and the new nicknames can
    be encoded: a later edit of the same sender leaves the file that edit
    alone would leave, and the edits of two different senders leave the
    same file in either order. *)
Theorem nickname_edits_compose (ev ev' : event) (x y : str) (fs : files) :
  float_free (load_user_info fs) = true ->
  storable (load_user_info fs) = true ->
  encodable x = true ->
  encodable y = true ->
  user_info_file (snd (update_nickname rt ev y (snd (update_nickname rt ev x fs))))
  = user_info_file (snd (update_nickname rt ev y fs)) /\
  (sender_id ev <> sender_id ev' ->
   user_info_file (snd (update_nickname rt ev' y (snd (update_nickname rt ev x fs))))
   = user_info_file (snd (update_nickname rt ev x (snd (update_nickname rt ev' y fs))))).
Proof.
  intros Hff Hst Hx Hy.
  destruct (load_user_info fs) as [| | | |s|xs|d] eqn:Hload;
    try (rewrite !(update_nickname_files _ _ fs), !Hload;
         rewrite !update_nickname_files, !Hload; split; reflexivity).
  assert (Hassigned : forall id r z,
            dict_get id d = Some (VDict r) -> encodable z = true ->
            storable (assigned d id r (u "nickname") z) = true).
  { intros id r z Hr Hz. now apply assigned_storable. }
  split.
  - rewrite (update_nickname_files ev x fs), Hload.
    destruct (dict_get (sender_id ev) d) as [v|] eqn:Hv; [|reflexivity].
    destruct v as [| | | | | |r]; try reflexivity.
    rewrite (update_nickname_edited ev y fs d _ r) by auto.
    rewrite dict_get_set_same.
    rewrite (update_nickname_files ev y fs), Hload, Hv.
    unfold edited, assigned. cbn [save_user_info user_info_file].
    now rewrite !dict_set_twice.
  - intros Hne.
    rewrite (update_nickname_files ev x fs), (update_nickname_files ev' y fs), Hload.
    destruct (dict_get (sender_id ev) d) as [v|] eqn:Hv;
      destruct (dict_get (sender_id ev') d) as [v'|] eqn:Hv';
      try destruct v as [| | | | | |r]; try destruct v' as [| | | | | |r'];
      rewrite ?(update_nickname_edited ev' y fs d _ r) by auto;
      rewrite ?(update_nickname_edited ev x fs d _ r') by auto;
      rewrite ?dict_get_set_other by congruence;
      rewrite ?update_nickname_files, ?Hload, ?Hv, ?Hv';
      try reflexivity.
    unfold edited, assigned. cbn [save_user_info user_info_file].
    do 4 f_equal. apply dict_set_swap; [congruence| |].
    + now apply dict_get_mem with (VDict r').
    + now apply dict_get_mem with (VDict r).
Qed.

(** *** The answers *)

Lemma update_birthday_reply ev x fs :
  List.length (fst (update_birthday rt ev x fs)) = 1%nat.
Proof.
  unfold update_birthday.
  destruct (py_contains (sender_id ev) (load_user_info fs)) as [[|]|e];
    cbn [bind negb try_except fst]; try reflexivity.
  destruct (validate_birthday rt (now ev) x) as [u0|e];
    cbn [bind try_except fst]; [|reflexivity].
  destruct (py_getitem (load_user_info fs) (sender_id ev)) as [r|e];
    cbn [bind try_except fst]; [|reflexivity].
  destruct (py_get r (u "birthday") (VStr [])) as [old|e];
    cbn [bind try_except fst]; [|reflexivity].
  now destruct (py_setitem2 (load_user_info fs) (sender_id ev) (u "birthday") (VStr x)).
Qed.

Lemma update_nickname_reply ev x fs :
  List.length (fst (update_nickname rt ev x fs)) = 1%nat.
Proof.
  unfold update_nickname.
  destruct (py_contains (sender_id ev) (load_user_info fs)) as [[|]|e];
    cbn [bind negb try_except fst]; try reflexivity.
  destruct (py_getitem (load_user_info fs) (sender_id ev)) as [r|e];
    cbn [bind try_except fst]; [|reflexivity].
  destruct (py_get r (u "nickname") (VStr [])) as [old|e];
    cbn [bind try_except fst]; [|reflexivity].
  now destruct (py_setitem2 (load_user_info fs) (sender_id ev) (u "nickname") (VStr x)).
Qed.

Lemma update_gender_reply ev x fs :
  List.length (fst (update_gender rt ev x fs)) = 1%nat.
Proof.
  unfold update_gender.
  destruct (py_contains (sender_id ev) (load_user_info fs)) as [[|]|e];
    cbn [bind negb try_except fst]; try reflexivity.
  destruct (existsb (str_eqb x) valid_genders);
    cbn [bind negb try_except fst]; [|reflexivity].
  destruct (py_getitem (load_user_info fs) (sender_id ev)) as [r|e];
    cbn [bind try_except fst]; [|reflexivity].
  destruct (py_get r (u "gender") (VStr [])) as [old|e];
    cbn [bind try_except fst]; [|reflexivity].
  now destruct (py_setitem2 (load_user_info fs) (sender_id ev) (u "gender") (VStr x)).
Qed.

(** The answer of [show_my_info] for a sender whose record is a dict. *)
Lemma show_my_info_record ev fs d r :
  load_user_info fs = VDict d ->
  dict_get (sender_id ev) d = Some (VDict r) ->
  show_my_info rt ev fs
  = [Plain (u "您的信息:" ++ line_break
              ++ u "QQ: " ++ py_str rt (field_or_unknown (u "qq_number") r)
              ++ line_break
              ++ u "昵称: " ++ py_str rt (field_or_unknown (u "nickname") r)
              ++ line_break
              ++ u "性别: " ++ py_str rt (field_or_unknown (u "gender") r)
              ++ line_break
              ++ u "生日: " ++ py_str rt (field_or_unknown (u "birthday") r)
              ++ info_age_line rt (now ev) (field_or_unknown (u "birthday") r))].
Proof.
  intros Hload Hr. unfold show_my_info. rewrite Hload.
  cbn [py_contains bind]. rewrite (dict_get_mem _ _ _ Hr).
  cbn [negb py_getitem]. rewrite Hr. cbn [bind]. unfold info_text.
  cbn [py_get bind try_except]. unfold field_or_unknown.
  now rewrite <- !app_assoc.
Qed.

(** X8. Every command answers with exactly one message, whatever the
    files hold; and [show_my_info] answers a sender without a record in
    the table with the request to send a message first. *)
Theorem commands_answer_once (ev : event) (x : str) (fs : files) :
  List.length (fst (update_nickname rt ev x fs)) = 1%nat /\
  List.length (fst (update_birthday rt ev x fs)) = 1%nat /\
  List.length (fst (update_gender rt ev x fs)) = 1%nat /\
  List.length (show_my_info rt ev fs) = 1%nat /\
  (py_contains (sender_id ev) (load_user_info fs) = Ok false ->
   show_my_info rt ev fs = [not_registered]).
Proof.
  split; [apply update_nickname_reply|].
  split; [apply update_birthday_reply|].
  split; [apply update_gender_reply|].
  unfold show_my_info.
  destruct (py_contains (sender_id ev) (load_user_info fs)) as [[|]|e];
    cbn [bind negb try_except]; try (split; [reflexivity|]);
    try discriminate; try reflexivity.
  split; [|discriminate].
  destruct (py_getitem (load_user_info fs) (sender_id ev)) as [r|e];
    cbn [bind try_except]; [|reflexivity].
  destruct (info_text rt r) as [text|e]; cbn [bind try_except]; [|reflexivity].
  now destruct (py_get r (u "birthday") (VStr unknown)).
Qed.

(** X9. After a nickname edit in a table without floats, [show_my_info]
    shows the new nickname and the other three fields of the record as
    they were, if every string of the edited table can be encoded; if one
    cannot, the file was cut off and [show_my_info] answers that the
    sender has no record. *)
Theorem my_info_after_edit (ev : event) (x : str) (fs : files) (d r : dict) :
  load_user_info fs = VDict d ->
  dict_get (sender_id ev) d = Some (VDict r) ->
  float_free (VDict d) = true ->
  show_my_info rt ev (snd (update_nickname rt ev x fs))
  = if storable (assigned d (sender_id ev) r (u "nickname") x) then
      [Plain (u "您的信息:" ++ line_break
                ++ u "QQ: " ++ py_str rt (field_or_unknown (u "qq_number") r)
                ++ line_break
                ++ u "昵称: " ++ x ++ line_break
                ++ u "性别: " ++ py_str rt (field_or_unknown (u "gender") r)
                ++ line_break
                ++ u "生日: " ++ py_str rt (field_or_unknown (u "birthday") r)
                ++ info_age_line rt (now ev) (field_or_unknown (u "birthday") r))]
    else [not_registered].
Proof.
  intros Hload Hr Hff.
  rewrite update_nickname_files, Hload, Hr.
  pose proof (edited_loaded fs d (sender_id ev) r (u "nickname") x Hload Hr Hff)
    as Hloaded.
  destruct (storable (assigned d (sender_id ev) r (u "nickname") x)).
  - rewrite (show_my_info_record ev _
               (dict_set (sender_id ev) (VDict (dict_set (u "nickname") (VStr x) r)) d)
               (dict_set (u "nickname") (VStr x) r)).
    + unfold field_or_unknown.
      rewrite dict_get_set_same.
      rewrite !(dict_get_set_other _ (u "nickname"))
        by (intros H; vm_compute in H; discriminate H).
      reflexivity.
    + exact Hloaded.
    + apply dict_get_set_same.
  - unfold show_my_info. now rewrite Hloaded.
Qed.

(** ** The prompt of a record *)

Lemma join_head sep (a : str) l : exists rest, join sep (a :: l) = a ++ rest.
Proof.
  destruct l as [|b l].
  - exists []. cbn [join]. now rewrite app_nil_r.
  - exists (sep ++ join sep (b :: l)). reflexivity.
Qed.

Lemma join_two sep (a b : str) l :
  exists rest, join sep (a :: b :: l) = a ++ sep ++ b ++ rest.
Proof.
  destruct (join_head sep b l) as [rest Hrest]. exists rest.
  rewrite join_cons by discriminate. now rewrite Hrest.
Qed.

(** The group parts of a dict record. *)
Lemma group_parts_record d :
  group_parts rt (VDict d)
  = match dict_get (u "group_role") d with
    | Some role =>
      if truthy rt role then
        if hashable role then
          t <- get_group_role_text role ;;
          Ok ([u "群身份: " ++ t]
                ++ (let group_title :=
                      match dict_get (u "group_title") d with
                      | Some v => v
                      | None => VStr []
                      end in
                    if truthy rt group_title && negb (eq_str group_title no_title)
                    then [u "群头衔: " ++ py_str rt group_title] else []))
        else Raise TypeError
      else
        Ok (let group_title :=
              match dict_get (u "group_title") d with
              | Some v => v
              | None => VStr []
              end in
            if truthy rt group_title && negb (eq_str group_title no_title)
            then [u "群头衔: " ++ py_str rt group_title] else [])
    | None =>
      Ok (let group_title :=
            match dict_get (u "group_title") d with
            | Some v => v
            | None => VStr []
            end in
          if truthy rt group_title && negb (eq_str group_title no_title)
          then [u "群头衔: " ++ py_str rt group_title] else [])
    end.
Proof.
  unfold group_parts. cbn [py_get bind].
  destruct (dict_get (u "group_role") d) as [role|]; [|reflexivity].
  destruct (truthy rt role); [|reflexivity].
  unfold get_group_role_text, map_get.
  destruct (hashable role); reflexivity.
Qed.

Lemma format_record_ok today d is_group :
  (is_group = false \/
   forall role, dict_get (u "group_role") d = Some role ->
                truthy rt role = true -> hashable role = true) ->
  exists rest,
    format_user_info_for_prompt rt today (VDict d) is_group
    = Ok (u "用户QQ号: " ++ py_str rt (field_or_unknown (u "qq_number") d)
            ++ u "，" ++ u "昵称: "
            ++ py_str rt (field_or_unknown (u "nickname") d) ++ rest).
Proof.
  intros Hrole.
  assert (Hgroup : exists group,
            (if is_group then group_parts rt (VDict d) else Ok []) = Ok group).
  { destruct is_group; [|now exists []].
    destruct Hrole as [Hrole|Hrole]; [discriminate|].
    rewrite group_parts_record.
    destruct (dict_get (u "group_role") d) as [role|]; [|eauto].
    destruct (truthy rt role) eqn:Ht; [|eauto].
    rewrite (Hrole role eq_refl Ht).
    unfold get_group_role_text, map_get. rewrite (Hrole role eq_refl Ht).
    cbn [bind]. eauto. }
  destruct Hgroup as [group Hgroup].
  unfold format_user_info_for_prompt, prompt_parts. cbn [py_get bind].
  rewrite Hgroup. cbn [bind]. unfold field_or_unknown.
  cbn [List.app].
  match goal with
  | |- exists rest, Ok (join ?sep (?a :: ?b :: ?l)) = _ =>
    destruct (join_two sep a b l) as [rest Hrest]; exists rest; f_equal;
    etransitivity; [exact Hrest|]
  end.
  now rewrite <- !app_assoc.
Qed.

(** X10. The prompt of a dict record starts with the QQ number part and
    the nickname part, so it is never empty; the only failure is a group
    role that is a non-empty list or dict, in a group chat. *)
Theorem prompt_of_a_record (today : date) (d : dict) (is_group : bool) :
  ((is_group = false \/
    forall role, dict_get (u "group_role") d = Some role ->
                 truthy rt role = true -> hashable role = true) ->
   exists rest,
     format_user_info_for_prompt rt today (VDict d) is_group
     = Ok (u "用户QQ号: " ++ py_str rt (field_or_unknown (u "qq_number") d)
             ++ u "，" ++ u "昵称: "
             ++ py_str rt (field_or_unknown (u "nickname") d) ++ rest)) /\
  (forall role,
     is_group = true -> dict_get (u "group_role") d = Some role ->
     truthy rt role = true -> hashable role = false ->
     format_user_info_for_prompt rt today (VDict d) is_group = Raise TypeError).
Proof.
  split; [apply format_record_ok|].
  intros role -> Hrole Ht Hh.
  unfold format_user_info_for_prompt, prompt_parts. cbn [py_get bind].
  rewrite group_parts_record, Hrole, Ht, Hh. reflexivity.
Qed.

(** X11. The prompt reads four fields of a record in a private chat and
    six in a group chat: two dict records that agree on them have the same
    prompt. *)
Theorem prompt_depends_on_fields (today : date) (d d' : dict) (is_group : bool) :
  (forall key,
     In key ([u "qq_number"; u "nickname"; u "gender"; u "birthday"]
               ++ (if is_group then [u "group_role"; u "group_title"] else [])) ->
     dict_get key d = dict_get key d') ->
  format_user_info_for_prompt rt today (VDict d) is_group
  = format_user_info_for_prompt rt today (VDict d') is_group.
Proof.
  intros Hsame.
  unfold format_user_info_for_prompt, prompt_parts. cbn [py_get bind].
  rewrite (Hsame (u "qq_number")), (Hsame (u "nickname")),
    (Hsame (u "gender")), (Hsame (u "birthday"))
    by (apply in_or_app; left; cbn [In]; tauto).
  destruct is_group; [|reflexivity].
  rewrite !group_parts_record.
  rewrite (Hsame (u "group_role")), (Hsame (u "group_title"))
    by (apply in_or_app; right; cbn [In]; tauto).
  reflexivity.
Qed.

(** X12. A sender whose profile lookup failed is recorded without gender
    and birthday, and the prompt of that record in a private chat names
    the gender [None] and the birthday unknown. *)
Theorem prompt_after_failed_lookup (today : date) (ev : event) (qq_number : str) e :
  stranger_info_reply ev = Raise e ->
  format_user_info_for_prompt rt today
    (VDict (get_qq_user_info rt ev qq_number true)) false
  = Ok (u "用户QQ号: " ++ qq_number ++ u "，" ++ u "昵称: " ++ sender_name ev
          ++ u "，" ++ u "性别: None" ++ u "，" ++ u "生日: 未知").
Proof.
  intros Hreply. rewrite (failed_profile_lookup ev qq_number e Hreply).
  unfold format_user_info_for_prompt, prompt_parts, base_record.
  cbn [List.app py_get dict_get].
  change (str_eqb (u "qq_number") (u "qq_number")) with true.
  change (str_eqb (u "nickname") (u "qq_number")) with false.
  change (str_eqb (u "nickname") (u "timestamp")) with false.
  change (str_eqb (u "nickname") (u "nickname")) with true.
  change (str_eqb (u "gender") (u "qq_number")) with false.
  change (str_eqb (u "gender") (u "timestamp")) with false.
  change (str_eqb (u "gender") (u "nickname")) with false.
  change (str_eqb (u "birthday") (u "qq_number")) with false.
  change (str_eqb (u "birthday") (u "timestamp")) with false.
  change (str_eqb (u "birthday") (u "nickname")) with false.
  cbn [bind eq_str negb py_str py_repr age_part].
  change (eq_str (VStr unknown) unknown) with true.
  cbn [negb List.app join]. now rewrite <- !app_assoc.
Qed.

(** ** The hook *)

Lemma leaves_unit {A B} (part : world -> B) (a : A) : leaves part (unit_action a).
Proof. intros w. reflexivity. Qed.

Lemma leaves_lift {A B} (part : world -> B) (r : res A) : leaves part (lift r).
Proof. intros w. reflexivity. Qed.

Lemma leaves_bind {A B C} (part : world -> C) (m : action A) (k : A -> action B) :
  leaves part m -> (forall a, leaves part (k a)) ->
  leaves part (bind_action m k).
Proof.
  intros Hm Hk w. unfold bind_action. specialize (Hm w).
  destruct (m w) as [[a|e] w'] eqn:E; cbn [fst snd] in *; [|exact Hm].
  now rewrite Hk.
Qed.

Lemma getitem_not_a_dict v k : not_a_dict v -> exists e, py_getitem v k = Raise e.
Proof.
  intros Hv. destruct v as [| | | | | |d]; try (now eexists).
  now destruct (Hv d).
Qed.

Lemma setitem_not_a_dict v k x : not_a_dict v -> exists e, py_setitem v k x = Raise e.
Proof.
  intros Hv. destruct v as [| | | | | |d]; try (now eexists).
  now destruct (Hv d).
Qed.

(** With a table that is not a dict, [record_user] saves nothing and hands
    the table on, if anything. *)
Lemma record_user_not_a_dict ev v w :
  not_a_dict v ->
  (exists e, record_user rt ev v w = (Raise e, w)) \/
  record_user rt ev v w = (Ok v, w).
Proof.
  intros Hv. unfold record_user, bind_action, lift.
  destruct (py_contains (sender_id ev) v) as [[|]|e]; cbn [negb]; eauto.
  destruct (setitem_not_a_dict v (sender_id ev)
              (VDict (get_qq_user_info rt ev (sender_id ev) true)) Hv) as [e ->].
  eauto.
Qed.

Lemma record_group_member_not_a_dict ev v g w :
  not_a_dict v -> snd (record_group_member rt ev v g w) = w.
Proof.
  intros Hv. unfold record_group_member, bind_action, lift.
  destruct (py_contains (group_id ev) g) as [known|]; [|reflexivity].
  destruct (if negb known then py_setitem g (group_id ev) (VDict []) else Ok g);
    [|reflexivity].
  now destruct (getitem_not_a_dict v (sender_id ev) Hv) as [e ->].
Qed.

Lemma enrich_request_not_a_dict ev v is_group w :
  not_a_dict v -> snd (enrich_request rt ev v is_group w) = w.
Proof.
  intros Hv. unfold enrich_request, bind_action, lift.
  now destruct (getitem_not_a_dict v (sender_id ev) Hv) as [e ->].
Qed.

Lemma hook_off_platform ev w :
  platform_name ev <> aiocqhttp -> on_llm_request_hook rt ev w = w.
Proof.
  intros Hp. apply str_eqb_neq in Hp.
  unfold on_llm_request_hook, attempt. now rewrite Hp.
Qed.

Lemma hook_not_a_dict ev w :
  not_a_dict (load_user_info (fst w)) -> on_llm_request_hook rt ev w = w.
Proof.
  intros Hv. unfold on_llm_request_hook, attempt.
  destruct (negb (str_eqb (platform_name ev) aiocqhttp)); [reflexivity|].
  unfold bind_action at 1 2 3.
  unfold load_user_info_action, load_group_info_action. cbn [fst snd].
  destruct (record_user_not_a_dict ev _ w Hv) as [[e ->]| ->]; [reflexivity|].
  unfold bind_action.
  destruct (truthy rt (VStr (group_id ev))).
  - pose proof (record_group_member_not_a_dict ev _ (load_group_info (fst w)) w Hv)
      as Hg.
    destruct (record_group_member rt ev _ _ w) as [[[]|e] w']; cbn [snd] in *;
      subst w'; [|reflexivity].
    now apply enrich_request_not_a_dict.
  - cbn [unit_action]. now apply enrich_request_not_a_dict.
Qed.

(** X13. When nothing happens: the hook leaves the files and the request
    as they are for a message of another platform, and also when the
    user-info file holds a JSON document that is not an object; such a file
    is never overwritten, neither by the hook nor by an edit command. *)
Theorem hook_without_effect :
  (forall ev w, platform_name ev <> aiocqhttp -> on_llm_request_hook rt ev w = w) /\
  (forall ev w,
     not_a_dict (load_user_info (fst w)) -> on_llm_request_hook rt ev w = w) /\
  (forall o fs, not_a_dict (load_user_info fs) -> step rt fs o = fs).
Proof.
  split; [exact hook_off_platform|]. split; [exact hook_not_a_dict|].
  intros o fs Hv.
  destruct o as [ev req|ev x|ev x|ev x]; cbn [step].
  - now rewrite hook_not_a_dict.
  - destruct (update_nickname_outcome ev x fs) as [H|H]; [exact H|].
    apply assigns_dict in H as (d & r & Hload & _). now destruct (Hv d).
  - destruct (update_birthday_outcome ev x fs) as [H|[_ H]]; [exact H|].
    apply assigns_dict in H as (d & r & Hload & _). now destruct (Hv d).
  - destruct (update_gender_outcome ev x fs) as [H|[_ H]]; [exact H|].
    apply assigns_dict in H as (d & r & Hload & _). now destruct (Hv d).
Qed.

(** *** A sender who has a record *)

Lemma record_group_member_same ev ev' a g :
  same_message ev ev' ->
  record_group_member rt ev' a g = record_group_member rt ev a g.
Proof.
  intros (_ & Hs & Hg & _ & Hiso). unfold record_group_member.
  now rewrite Hs, Hg, Hiso.
Qed.

Lemma enrich_request_same ev ev' a is_group :
  same_message ev ev' ->
  enrich_request rt ev' a is_group = enrich_request rt ev a is_group.
Proof.
  intros (_ & Hs & _ & Hnow & _). unfold enrich_request.
  now rewrite Hs, Hnow.
Qed.

(** The hook for a sender with a record in a dict table. *)
Lemma hook_known_sender ev w d :
  platform_name ev = aiocqhttp ->
  load_user_info (fst w) = VDict d ->
  dict_mem (sender_id ev) d = true ->
  on_llm_request_hook rt ev w
  = snd (bind_action
           (if truthy rt (VStr (group_id ev))
            then record_group_member rt ev (VDict d) (load_group_info (fst w))
            else unit_action tt)
           (fun _ => enrich_request rt ev (VDict d) (truthy rt (VStr (group_id ev))))
           w).
Proof.
  intros Hp Hload Hmem. unfold on_llm_request_hook, attempt.
  rewrite Hp, str_eqb_refl. cbn [negb].
  unfold bind_action at 1 2 3.
  unfold load_user_info_action, load_group_info_action. cbn [fst snd].
  rewrite Hload, record_user_dict, Hmem. reflexivity.
Qed.

(** X14. A sender who has a record is not looked up again: the hook
    leaves the user-info file as it is, and neither the sender's current
    name nor the answers of the platform change what it does. *)
Theorem known_sender_is_not_refreshed (ev ev' : event) (w : world) (d : dict) :
  load_user_info (fst w) = VDict d ->
  dict_mem (sender_id ev) d = true ->
  same_message ev ev' ->
  on_llm_request_hook rt ev' w = on_llm_request_hook rt ev w /\
  same_user_file (fst w) (fst (on_llm_request_hook rt ev w)).
Proof.
  intros Hload Hmem Hsame. split.
  - destruct (str_eqb (platform_name ev) aiocqhttp) eqn:Hp.
    + apply str_eqb_eq in Hp.
      pose proof Hsame as (Hp' & Hs & Hg & _).
      rewrite (hook_known_sender ev w d), (hook_known_sender ev' w d);
        try congruence.
      rewrite Hg, (record_group_member_same ev ev') by assumption.
      unfold bind_action.
      destruct (if truthy rt (VStr (group_id ev))
                then record_group_member rt ev (VDict d) (load_group_info (fst w))
                else unit_action tt) as [[[]|e] w']; [|reflexivity].
      now rewrite (enrich_request_same ev ev').
    + destruct Hsame as (Hp' & _).
      apply str_eqb_neq in Hp.
      rewrite !hook_off_platform; congruence.
  - destruct (hook_user_file ev w) as [H|(v & _ & Hc & _)]; [exact H|].
    rewrite Hload in Hc. cbn [py_contains] in Hc. congruence.
Qed.

(** *** The request after the hook *)

Lemma record_user_cases ev a w :
  (exists e, record_user rt ev a w = (Raise e, w)) \/
  record_user rt ev a w = (Ok a, w) \/
  exists v,
    py_contains (sender_id ev) a = Ok false /\
    py_setitem a (sender_id ev) (VDict (get_qq_user_info rt ev (sender_id ev) true))
    = Ok v /\
    record_user rt ev a w = (Ok v, (save_user_info rt v (fst w), snd w)).
Proof.
  unfold record_user, bind_action, lift.
  destruct (py_contains (sender_id ev) a) as [[|]|e] eqn:Hc; cbn [negb]; eauto.
  destruct (py_setitem a (sender_id ev) _) as [v|e] eqn:Hs; eauto.
  right. right. exists v. auto.
Qed.

Lemma record_group_member_request ev a g :
  leaves the_request (record_group_member rt ev a g).
Proof.
  unfold record_group_member.
  repeat (apply leaves_bind; [apply leaves_lift|intros ?]).
  intros w. reflexivity.
Qed.

Lemma group_branch_request ev a g :
  leaves the_request
    (if truthy rt (VStr (group_id ev)) then record_group_member rt ev a g
     else unit_action tt).
Proof.
  destruct (truthy rt (VStr (group_id ev)));
    [apply record_group_member_request|apply leaves_unit].
Qed.

(** What [enrich_request] does to the world: the files stay; the request
    stays, or its context is rewritten and its system prompt stays or gets
    the user's prompt in front. *)
Lemma enrich_request_effect ev table is_group w :
  fst (snd (enrich_request rt ev table is_group w)) = fst w /\
  (snd (snd (enrich_request rt ev table is_group w)) = snd w \/
   (exists c,
      context (snd w) = Some c /\
      context (snd (snd (enrich_request rt ev table is_group w)))
      = Some (replace_nickname_in_context rt table c)) /\
   (system_prompt (snd (snd (enrich_request rt ev table is_group w)))
    = system_prompt (snd w) \/
    exists text,
      system_prompt (snd (snd (enrich_request rt ev table is_group w)))
      = VStr (u "当前对话用户信息: " ++ text
                ++ py_str rt (original_prompt (snd w))))).
Proof.
  unfold enrich_request, bind_action, lift, get_request, read_context, set_context,
    set_system_prompt, unit_action.
  destruct (py_getitem table (sender_id ev)) as [user_info|]; [|auto].
  destruct (format_user_info_for_prompt rt (now ev) user_info is_group)
    as [user_prompt|]; [|auto].
  destruct (context (snd w)) as [c|] eqn:Hc; [|auto].
  cbn [fst snd context system_prompt].
  destruct (truthy rt (VStr user_prompt)); cbn [fst snd context system_prompt];
    [|split; [reflexivity|right; split; [now exists c|now left]]].
  destruct (py_get user_info (u "nickname") (VStr (u "用户"))) as [nickname|];
    cbn [fst snd context system_prompt];
    [|split; [reflexivity|right; split; [now exists c|now left]]].
  split; [reflexivity|]. right. split; [now exists c|]. right.
  exists (user_prompt ++ u "。请称呼用户为" ++ py_str rt nickname ++ u "。").
  unfold original_prompt. now rewrite <- !app_assoc.
Qed.

(** A request without a context attribute is left as it is. *)
Lemma enrich_request_no_context ev table is_group w :
  context (snd w) = None ->
  snd (snd (enrich_request rt ev table is_group w)) = snd w.
Proof.
  intros Hc.
  destruct (enrich_request_effect ev table is_group w) as [_ [H|[(c & Hsome & _) _]]];
    [exact H|congruence].
Qed.

(** The hook on the platform, cut after [record_user]. *)
Lemma hook_on_platform ev w :
  platform_name ev = aiocqhttp ->
  on_llm_request_hook rt ev w
  = match record_user rt ev (load_user_info (fst w)) w with
    | (Ok table, w1) =>
      snd (bind_action
             (if truthy rt (VStr (group_id ev))
              then record_group_member rt ev table (load_group_info (fst w))
              else unit_action tt)
             (fun _ => enrich_request rt ev table (truthy rt (VStr (group_id ev))))
             w1)
    | (Raise _, w1) => w1
    end.
Proof.
  intros Hp. unfold on_llm_request_hook, attempt.
  rewrite Hp, str_eqb_refl. cbn [negb].
  unfold bind_action at 1 2 3.
  unfold load_user_info_action, load_group_info_action. cbn [fst snd].
  now destruct (record_user rt ev (load_user_info (fst w)) w) as [[table|e] w1].
Qed.

(** X15. The request after the hook: it is as it was, or its context is
    the old one rewritten with the table the hook works on, and its system
    prompt is the old one or the old one with the user's prompt put in
    front: the hook never drops what the system prompt held. *)
Theorem hook_request (ev : event) (w : world) :
  snd (on_llm_request_hook rt ev w) = snd w \/
  (exists table c,
     table_of_hook ev (fst w) table /\
     context (snd w) = Some c /\
     context (snd (on_llm_request_hook rt ev w))
     = Some (replace_nickname_in_context rt table c)) /\
  (system_prompt (snd (on_llm_request_hook rt ev w)) = system_prompt (snd w) \/
   exists text,
     system_prompt (snd (on_llm_request_hook rt ev w))
     = VStr (u "当前对话用户信息: " ++ text ++ py_str rt (original_prompt (snd w)))).
Proof.
  destruct (str_eqb (platform_name ev) aiocqhttp) eqn:Hp.
  2:{ left. apply str_eqb_neq in Hp. now rewrite hook_off_platform. }
  apply str_eqb_eq in Hp. rewrite (hook_on_platform ev w Hp).
  assert (Htail : forall table w1,
            snd w1 = snd w ->
            table_of_hook ev (fst w) table ->
            let w2 := snd (bind_action
                             (if truthy rt (VStr (group_id ev))
                              then record_group_member rt ev table
                                     (load_group_info (fst w))
                              else unit_action tt)
                             (fun _ => enrich_request rt ev table
                                         (truthy rt (VStr (group_id ev)))) w1) in
            snd w2 = snd w \/
            (exists table0 c,
               table_of_hook ev (fst w) table0 /\
               context (snd w) = Some c /\
               context (snd w2) = Some (replace_nickname_in_context rt table0 c)) /\
            (system_prompt (snd w2) = system_prompt (snd w) \/
             exists text,
               system_prompt (snd w2)
               = VStr (u "当前对话用户信息: " ++ text
                         ++ py_str rt (original_prompt (snd w))))).
  { intros table w1 Hw1 Htable. cbv zeta. unfold bind_action.
    pose proof (group_branch_request ev table (load_group_info (fst w)) w1) as Hg.
    unfold the_request in Hg.
    destruct ((if truthy rt (VStr (group_id ev))
               then record_group_member rt ev table (load_group_info (fst w))
               else unit_action tt) w1) as [[[]|e] w2]; cbn [snd] in *.
    - destruct (enrich_request_effect ev table (truthy rt (VStr (group_id ev))) w2)
        as [_ [H|[(c & Hc & Hc') Hs]]].
      + left. congruence.
      + right. rewrite Hg, Hw1 in Hc, Hs. split; [now exists table, c|exact Hs].
    - left. congruence. }
  destruct (record_user_cases ev (load_user_info (fst w)) w)
    as [[e ->]|[->|(v & _ & Hset & ->)]].
  - now left.
  - exact (Htail (load_user_info (fst w)) w eq_refl (or_introl eq_refl)).
  - exact (Htail v (save_user_info rt v (fst w), snd w) eq_refl (or_intror Hset)).
Qed.

(** *** The group file *)

Lemma record_user_group_file ev a : leaves the_group_file (record_user rt ev a).
Proof.
  intros w.
  destruct (record_user_cases ev a w) as [[e ->]|[->|(v & _ & _ & ->)]];
    reflexivity.
Qed.

Lemma enrich_request_files ev table is_group :
  leaves the_files (enrich_request rt ev table is_group).
Proof. intros w. apply enrich_request_effect. Qed.

Lemma assigns_group_file field ev x fs fs' :
  assigns field ev x fs fs' -> group_info_file fs' = group_info_file fs.
Proof. now intros (all & _ & _ & ->). Qed.

(** X16. The group file is written by nothing but a hook call for a
    message of the platform in a group chat. *)
Theorem group_file_writers (fs : files) (o : operation) :
  group_info_file (step rt fs o) <> group_info_file fs ->
  exists ev req,
    o = OnLlmRequest ev req /\ platform_name ev = aiocqhttp /\ group_id ev <> [].
Proof.
  intros Hchanged. destruct o as [ev req|ev x|ev x|ev x]; cbn [step] in Hchanged.
  - exists ev, req. split; [reflexivity|].
    destruct (str_eqb (platform_name ev) aiocqhttp) eqn:Hp.
    2:{ apply str_eqb_neq in Hp. rewrite hook_off_platform in Hchanged by assumption.
        now destruct Hchanged. }
    apply str_eqb_eq in Hp. split; [assumption|].
    intros Hgid. apply Hchanged.
    rewrite (hook_on_platform ev (fs, req) Hp), Hgid. cbn [truthy].
    pose proof (record_user_group_file ev (load_user_info fs) (fs, req)) as Hrec.
    unfold the_group_file in Hrec. cbn [fst snd] in *.
    destruct (record_user rt ev (load_user_info fs) (fs, req)) as [[table|e] w1];
      cbn [snd] in Hrec; [|exact Hrec].
    rewrite <- Hrec. unfold bind_action, unit_action.
    pose proof (enrich_request_files ev table false w1) as Hfiles.
    unfold the_files in Hfiles. now rewrite Hfiles.
  - exfalso. apply Hchanged.
    destruct (update_nickname_outcome ev x fs) as [->|H]; [reflexivity|].
    now apply assigns_group_file in H.
  - exfalso. apply Hchanged.
    destruct (update_birthday_outcome ev x fs) as [->|[_ H]]; [reflexivity|].
    now apply assigns_group_file in H.
  - exfalso. apply Hchanged.
    destruct (update_gender_outcome ev x fs) as [->|[_ H]]; [reflexivity|].
    now apply assigns_group_file in H.
Qed.

Lemma record_user_table ev d w :
  exists w1,
    record_user rt ev (VDict d) w = (Ok (VDict (table_with_sender ev d)), w1) /\
    group_info_file (fst w1) = group_info_file (fst w) /\
    snd w1 = snd w /\
    dict_get (sender_id ev) (table_with_sender ev d) = Some (sender_record ev d).
Proof.
  rewrite record_user_dict. unfold dict_mem, table_with_sender, sender_record.
  destruct (dict_get (sender_id ev) d) as [v|] eqn:Hv.
  - exists w. auto.
  - eexists. split; [reflexivity|]. cbn [fst snd save_user_info group_info_file].
    repeat split. apply dict_get_set_same.
Qed.

Lemma hook_group_file ev fs req d g r members :
  platform_name ev = aiocqhttp ->
  group_id ev <> [] ->
  load_user_info fs = VDict d ->
  sender_record ev d = VDict r ->
  load_group_info fs = VDict g ->
  members_of (group_id ev) g = Some members ->
  exists fs',
    fst (on_llm_request_hook rt ev (fs, req))
    = save_group_info rt (group_table ev g members r) fs'.
Proof.
  intros Hp Hgid Hload Hr Hgroup Hmembers. unfold group_table.
  rewrite (hook_on_platform ev (fs, req) Hp). cbn [fst]. rewrite Hload, Hgroup.
  destruct (record_user_table ev d (fs, req)) as (w1 & -> & _ & _ & Hget).
  rewrite Hr in Hget.
  assert (Hgroup_chat : truthy rt (VStr (group_id ev)) = true).
  { destruct (group_id ev); [congruence|reflexivity]. }
  rewrite Hgroup_chat.
  set (entry := VDict (dict_set (sender_id ev) (group_record ev r) members)).
  assert (Hrecord :
    record_group_member rt ev (VDict (table_with_sender ev d)) (VDict g) w1
    = (Ok tt, (save_group_info rt (VDict (dict_set (group_id ev) entry g)) (fst w1),
               snd w1))).
  { unfold record_group_member, bind_action, lift, save_group_info_action.
    cbn [py_contains py_getitem py_get]. rewrite Hget.
    unfold members_of in Hmembers. unfold dict_mem, py_setitem2.
    destruct (dict_get (group_id ev) g) as [v|] eqn:Hv; cbn [negb py_setitem].
    - destruct v as [| | | | | |m]; try discriminate Hmembers.
      injection Hmembers as ->. cbn [py_getitem]. rewrite Hv.
      cbn [bind py_setitem]. reflexivity.
    - injection Hmembers as <-. cbn [py_getitem]. rewrite dict_get_set_same.
      cbn [py_get bind py_setitem]. rewrite dict_set_twice. reflexivity. }
  unfold bind_action at 1. rewrite Hrecord.
  pose proof (enrich_request_files ev (VDict (table_with_sender ev d)) true
                (save_group_info rt (VDict (dict_set (group_id ev) entry g)) (fst w1),
                 snd w1)) as Hfiles.
  unfold the_files in Hfiles. cbn [fst] in Hfiles. rewrite Hfiles.
  now exists (fst w1).
Qed.

(** X17. A hook call for a platform message in a group chat, with dict
    tables and a dict record of the sender, writes the group file with the
    loaded group table in which the sender's entry is assigned under the
    group, the entry holding role, title and nickname of the sender's
    record: the file takes what [json.dump] writes of this table, which is
    its whole JSON text when every string of the table can be encoded. *)
Theorem hook_group_record (ev : event) (fs : files) (req : request)
    (d g r members : dict) :
  platform_name ev = aiocqhttp ->
  group_id ev <> [] ->
  load_user_info fs = VDict d ->
  sender_record ev d = VDict r ->
  load_group_info fs = VDict g ->
  members_of (group_id ev) g = Some members ->
  group_info_file (fst (on_llm_request_hook rt ev (fs, req)))
  = Content (fst (json_dump rt (group_table ev g members r))) /\
  (storable (group_table ev g members r) = true ->
   group_info_file (fst (on_llm_request_hook rt ev (fs, req)))
   = Content (json_dumps rt (group_table ev g members r))).
Proof.
  intros Hp Hgid Hload Hr Hgroup Hmembers.
  destruct (hook_group_file ev fs req d g r members Hp Hgid Hload Hr Hgroup Hmembers)
    as [fs' ->].
  split; [reflexivity|]. intros Hst. cbn [save_group_info group_info_file].
  now rewrite json_dump_storable.
Qed.

(** *** The prompt in a private chat *)

Lemma truthy_app (a b : str) : a <> [] -> truthy rt (VStr (a ++ b)) = true.
Proof. destruct a; [congruence|reflexivity]. Qed.

(** [enrich_request] in a private chat, for a sender with a dict record
    and a request that has a context. *)
Lemma enrich_private ev t r w c :
  dict_get (sender_id ev) t = Some (VDict r) ->
  context (snd w) = Some c ->
  exists prompt,
    format_user_info_for_prompt rt (now ev) (VDict r) false = Ok prompt /\
    snd (snd (enrich_request rt ev (VDict t) false w))
    = {| context := Some (replace_nickname_in_context rt (VDict t) c);
         system_prompt :=
           VStr (u "当前对话用户信息: " ++ prompt ++ u "。请称呼用户为"
                   ++ py_str rt (get_or (u "nickname") (VStr (u "用户")) r)
                   ++ u "。" ++ py_str rt (original_prompt (snd w))) |}.
Proof.
  intros Hget Hc.
  destruct (format_record_ok (now ev) r false (or_introl eq_refl)) as [rest Hprompt].
  eexists. split; [exact Hprompt|].
  unfold enrich_request, bind_action, lift, get_request, read_context, set_context,
    set_system_prompt, unit_action.
  cbn [py_getitem]. rewrite Hget, Hprompt, Hc.
  rewrite truthy_app by (intros H; vm_compute in H; discriminate H).
  cbn [py_get fst snd context system_prompt].
  unfold original_prompt. reflexivity.
Qed.

(** The hook leaves a request without a context attribute as it is. *)
Lemma hook_no_context ev w :
  context (snd w) = None -> snd (on_llm_request_hook rt ev w) = snd w.
Proof.
  intros Hc.
  destruct (str_eqb (platform_name ev) aiocqhttp) eqn:Hp.
  2:{ apply str_eqb_neq in Hp. now rewrite hook_off_platform. }
  apply str_eqb_eq in Hp. rewrite (hook_on_platform ev w Hp).
  assert (Htail : forall table w1,
            snd w1 = snd w ->
            snd (snd (bind_action
                        (if truthy rt (VStr (group_id ev))
                         then record_group_member rt ev table
                                (load_group_info (fst w))
                         else unit_action tt)
                        (fun _ => enrich_request rt ev table
                                    (truthy rt (VStr (group_id ev)))) w1))
            = snd w).
  { intros table w1 Hw1. unfold bind_action.
    pose proof (group_branch_request ev table (load_group_info (fst w)) w1) as Hg.
    unfold the_request in Hg.
    destruct ((if truthy rt (VStr (group_id ev))
               then record_group_member rt ev table (load_group_info (fst w))
               else unit_action tt) w1) as [[[]|e] w2]; cbn [snd] in *;
      [|congruence].
    rewrite enrich_request_no_context; congruence. }
  destruct (record_user_cases ev (load_user_info (fst w)) w)
    as [[e ->]|[->|(v & _ & _ & ->)]].
  - reflexivity.
  - now apply Htail.
  - now apply Htail.
Qed.

(** X18. A hook call for a platform message in a private chat, with a
    dict table, a dict record of the sender and a request that has a
    context, enriches the request: the context is rewritten with the
    table, and the system prompt gets the prompt of the sender's record and
    the request to address the user by the stored nickname in front.  A
    request that has no context attribute is left as it is by every hook
    call, since reading the attribute raises. *)
Theorem private_chat_request :
  (forall ev fs req d r c,
     platform_name ev = aiocqhttp ->
     group_id ev = [] ->
     load_user_info fs = VDict d ->
     sender_record ev d = VDict r ->
     context req = Some c ->
     exists prompt,
       format_user_info_for_prompt rt (now ev) (VDict r) false = Ok prompt /\
       snd (on_llm_request_hook rt ev (fs, req))
       = {| context :=
              Some (replace_nickname_in_context rt (VDict (table_with_sender ev d)) c);
            system_prompt :=
              VStr (u "当前对话用户信息: " ++ prompt ++ u "。请称呼用户为"
                      ++ py_str rt (get_or (u "nickname") (VStr (u "用户")) r)
                      ++ u "。" ++ py_str rt (original_prompt req)) |}) /\
  (forall ev w,
     context (snd w) = None -> snd (on_llm_request_hook rt ev w) = snd w).
Proof.
  split; [|exact hook_no_context].
  intros ev fs req d r c Hp Hgid Hload Hr Hc.
  rewrite (hook_on_platform ev (fs, req) Hp). cbn [fst]. rewrite Hload, Hgid.
  destruct (record_user_table ev d (fs, req)) as (w1 & -> & _ & Hreq & Hget).
  rewrite Hr in Hget. cbn [truthy snd] in *.
  unfold bind_action at 1. cbn [unit_action].
  assert (Hc1 : context (snd w1) = Some c) by congruence.
  destruct (enrich_private ev (table_with_sender ev d) r w1 c Hget Hc1)
    as (prompt & Hprompt & Hrequest).
  exists prompt. split; [exact Hprompt|]. now rewrite Hrequest, Hreq.
Qed.

(** ** From an edit to the next request *)

Lemma placeholder_not_empty id nick : placeholder id nick <> [].
Proof. unfold placeholder. intros H. vm_compute in H. discriminate H. Qed.

(** One placeholder whose record stores the non-empty nickname [x]. *)
Lemma replace_one_placeholder t id old r x :
  valid_placeholder id old ->
  dict_get id t = Some (VDict r) ->
  dict_get (u "nickname") r = Some (VStr x) ->
  x <> [] ->
  replace_nickname_in_context rt (VDict t) (VStr (placeholder id old))
  = VStr (placeholder id x).
Proof.
  intros Hvalid Hid Hnick Hx.
  assert (Htok : tokenized (placeholder id old) [Token id old]).
  { rewrite <- (app_nil_r (placeholder id old)). constructor; [assumption|constructor]. }
  assert (Hsub : re_sub rt placeholder_pattern (replace_callback rt (VDict t))
                   (placeholder id old)
                 = Ok (placeholder id x)).
  { rewrite (re_sub_tokenized _ (fun _ _ => placeholder id x) _ _ Htok).
    - cbn [map substituted concat]. now rewrite app_nil_r.
    - intros id' nick' [[= <- <-]|[]].
      unfold replace_callback. cbn [nth py_get bind]. rewrite Hid.
      assert (Hr : truthy rt (VDict r) = true).
      { destruct r; [discriminate Hnick|reflexivity]. }
      rewrite Hr. cbn [py_get bind]. rewrite Hnick. cbn [eq_str].
      destruct (str_eqb x old) eqn:E.
      + apply str_eqb_eq in E. now subst.
      + cbn [truthy py_str]. destruct x; [congruence|reflexivity]. }
  unfold replace_nickname_in_context.
  assert (Ht : truthy rt (VDict t) = true).
  { destruct t; [discriminate Hid|reflexivity]. }
  assert (Hs : truthy rt (VStr (placeholder id old)) = true).
  { pose proof (placeholder_not_empty id old).
    cbn [truthy]. now destruct (placeholder id old). }
  rewrite Ht, Hs. cbn [negb orb]. now rewrite Hsub.
Qed.

(** X19. A nickname edit reaches the next request: for a sender with a
    dict record in a table without floats, when every string of the edited
    table can be encoded and the request has a context, the hook call for
    the sender's next private message writes the new nickname into the
    sender's placeholder of the context and into the request to address
    the user. *)
Theorem edited_nickname_reaches_request (ev : event) (x old : str) (fs : files)
    (req : request) (d r : dict) :
  platform_name ev = aiocqhttp ->
  group_id ev = [] ->
  load_user_info fs = VDict d ->
  dict_get (sender_id ev) d = Some (VDict r) ->
  float_free (VDict d) = true ->
  storable (assigned d (sender_id ev) r (u "nickname") x) = true ->
  valid_placeholder (sender_id ev) old ->
  x <> [] ->
  context req = Some (VStr (placeholder (sender_id ev) old)) ->
  exists prompt,
    snd (on_llm_request_hook rt ev (snd (update_nickname rt ev x fs), req))
    = {| context := Some (VStr (placeholder (sender_id ev) x));
         system_prompt :=
           VStr (u "当前对话用户信息: " ++ prompt ++ u "。请称呼用户为" ++ x
                   ++ u "。" ++ py_str rt (original_prompt req)) |}.
Proof.
  intros Hp Hgid Hload Hr Hff Hst Hvalid Hx Hcontext.
  rewrite update_nickname_files, Hload, Hr.
  set (r' := dict_set (u "nickname") (VStr x) r).
  set (d' := dict_set (sender_id ev) (VDict r') d).
  assert (Hload' : load_user_info (edited fs d (sender_id ev) r (u "nickname") x)
                   = VDict d').
  { now apply edited_read_back. }
  assert (Hget' : dict_get (sender_id ev) d' = Some (VDict r')).
  { apply dict_get_set_same. }
  assert (Hrecord : sender_record ev d' = VDict r').
  { unfold sender_record. now rewrite Hget'. }
  assert (Htable : table_with_sender ev d' = d').
  { unfold table_with_sender. now rewrite Hget'. }
  rewrite (hook_on_platform ev _ Hp). cbn [fst]. rewrite Hload', Hgid.
  destruct (record_user_table ev d' (edited fs d (sender_id ev) r (u "nickname") x, req))
    as (w1 & -> & _ & Hreq & Hget).
  rewrite Hrecord in Hget. rewrite Htable in *. cbn [truthy snd] in *.
  unfold bind_action at 1. cbn [unit_action].
  assert (Hc1 : context (snd w1) = Some (VStr (placeholder (sender_id ev) old)))
    by congruence.
  destruct (enrich_private ev d' r' w1 _ Hget Hc1) as (prompt & _ & ->).
  exists prompt. rewrite Hreq.
  assert (Hnick : dict_get (u "nickname") r' = Some (VStr x)).
  { apply dict_get_set_same. }
  unfold get_or. rewrite Hnick. cbn [py_str].
  now rewrite (replace_one_placeholder d' (sender_id ev) old r' x).
Qed.

(** ** Rewriting twice *)

Lemma latest_nickname_again t id nick :
  latest_nickname t id (latest_nickname t id nick) = latest_nickname t id nick.
Proof.
  unfold latest_nickname.
  destruct (dict_get id t) as [[| | | | | |r]|]; try reflexivity.
  destruct (dict_get (u "nickname") r) as [v|]; [|reflexivity].
  destruct (eq_str v nick) eqn:E1.
  - now rewrite E1.
  - destruct (truthy rt v) eqn:Ht.
    + destruct (eq_str v (py_str rt v)); reflexivity.
    + now rewrite E1.
Qed.

Lemma update_segment_again t g :
  update_segment t (update_segment t g) = update_segment t g.
Proof.
  destruct g as [c|id nick]; [reflexivity|].
  cbn [update_segment]. now rewrite latest_nickname_again.
Qed.

Lemma latest_nickname_valid t id nick :
  writable_nicknames t ->
  valid_placeholder id nick ->
  valid_placeholder id (latest_nickname t id nick).
Proof.
  intros Hw Hvalid. unfold latest_nickname.
  destruct (dict_get id t) as [[| | | | | |r]|] eqn:Hid; try assumption.
  destruct (dict_get (u "nickname") r) as [v|] eqn:Hn; [|assumption].
  destruct (eq_str v nick); [assumption|].
  destruct (truthy rt v) eqn:Ht; [|assumption].
  destruct (Hw id r v Hid Hn Ht) as [Hne Hnb].
  destruct Hvalid as (H1 & H2 & _ & _). repeat split; assumption.
Qed.

Lemma placeholder_head id nick :
  exists t, placeholder id nick = 91%N :: t.
Proof. unfold placeholder. eexists. reflexivity. Qed.

Lemma placeholder_bracket id nick rest : In 93%N (placeholder id nick ++ rest).
Proof.
  unfold placeholder. rewrite <- !app_assoc.
  apply in_or_app. right. apply in_or_app. right.
  apply in_or_app. right. apply in_or_app. right.
  apply in_or_app. left. left. reflexivity.
Qed.

(** The rewriting keeps the first character of a text and whether the
    text holds a ']'. *)
Lemma rewritten_head t segs :
  hd_error (concat (map render (map (update_segment t) segs)))
  = hd_error (concat (map render segs)).
Proof.
  destruct segs as [|[c|id nick] segs]; reflexivity.
Qed.

Lemma rewritten_bracket t segs :
  In 93%N (concat (map render (map (update_segment t) segs))) <->
  In 93%N (concat (map render segs)).
Proof.
  induction segs as [|[c|id nick] segs IH]; [reflexivity| |].
  - cbn [map update_segment render concat List.app In]. now rewrite IH.
  - cbn [map update_segment render concat].
    split; intros _; apply placeholder_bracket.
Qed.

(** A stretch without '[' in the rewritten text was a stretch of
    characters between placeholders. *)
Lemma rewritten_gaps t p : forall segs q,
  forallb (fun c => negb (c =? 91)%N) p = true ->
  concat (map render (map (update_segment t) segs)) = p ++ q ->
  exists segs2,
    concat (map render segs) = p ++ concat (map render segs2) /\
    q = concat (map render (map (update_segment t) segs2)).
Proof.
  induction p as [|x p IH]; intros segs q Hp Heq.
  - exists segs. auto.
  - cbn [forallb] in Hp. apply andb_true_iff in Hp as [Hx Hp].
    apply negb_true_iff, N.eqb_neq in Hx.
    destruct segs as [|[c|id nick] segs]; [discriminate Heq| |].
    + cbn [map update_segment render concat List.app] in Heq.
      injection Heq as -> Heq.
      destruct (IH segs q Hp Heq) as (segs2 & Hs & Hq).
      exists segs2. split; [|assumption].
      cbn [map render concat List.app]. now rewrite Hs.
    + exfalso. cbn [map update_segment render concat] in Heq.
      destruct (placeholder_head id (latest_nickname t id nick)) as [t2 Ht2].
      rewrite Ht2 in Heq. cbn [List.app] in Heq. congruence.
Qed.

Lemma split_at_bracket (z : str) :
  In 93%N z ->
  exists n rest,
    forallb (fun c => negb (c =? 93)%N) n = true /\ z = n ++ 93%N :: rest.
Proof.
  induction z as [|a z IH]; [intros []|].
  intros Hin. destruct (N.eqb_spec a 93) as [->|Ha].
  - exists [], z. auto.
  - destruct Hin as [Heq|Hin]; [congruence|].
    destruct (IH Hin) as (n & rest & Hn & ->).
    exists (a :: n), rest. split; [|reflexivity].
    cbn [forallb]. rewrite Hn.
    apply N.eqb_neq in Ha. now rewrite Ha.
Qed.

Lemma decimal_not_bracket id :
  forallb (is_decimal rt) id = true ->
  forallb (fun c => negb (c =? 91)%N) id = true.
Proof.
  induction id as [|c id IH]; [reflexivity|].
  cbn [forallb]. intros H. apply andb_true_iff in H as [Hc Hid].
  rewrite (IH Hid), andb_true_r.
  destruct (N.eqb_spec c 91) as [->|]; [discriminate Hc|reflexivity].
Qed.

(** Where the rewritten text starts with a placeholder, the text did. *)
Lemma rewritten_start t c segs :
  starts_with_placeholder (c :: concat (map render (map (update_segment t) segs))) ->
  starts_with_placeholder (c :: concat (map render segs)).
Proof.
  intros (id & nick & rest & (Hid & Hdig & Hnick & Hnb) & Heq).
  assert (Hc : c = 91%N) by (unfold placeholder in Heq; now injection Heq).
  assert (Heq' : concat (map render (map (update_segment t) segs))
                 = (u "User ID: " ++ id ++ u ", Nickname: ")
                     ++ ((nick ++ u "]") ++ rest)).
  { unfold placeholder in Heq. rewrite <- !app_assoc in Heq.
    change (u "[User ID: " ++ ?z) with (91%N :: u "User ID: " ++ z) in Heq.
    injection Heq as _ Heq. rewrite Heq. now rewrite <- !app_assoc. }
  clear Heq. subst c.
  destruct (rewritten_gaps t (u "User ID: " ++ id ++ u ", Nickname: ") segs
              ((nick ++ u "]") ++ rest)) as (segs2 & Hs & Hq).
  { rewrite !forallb_app.
    apply andb_true_iff. split; [reflexivity|].
    apply andb_true_iff. split; [exact (decimal_not_bracket id Hdig)|reflexivity]. }
  { exact Heq'. }
  destruct nick as [|h nick]; [congruence|].
  cbn [forallb] in Hnb. apply andb_true_iff in Hnb as [Hh Hnb].
  apply negb_true_iff, N.eqb_neq in Hh.
  pose proof (rewritten_head t segs2) as Hhead. rewrite <- Hq in Hhead.
  cbn [List.app hd_error] in Hhead.
  assert (Hin : In 93%N (concat (map render segs2))).
  { apply (rewritten_bracket t). rewrite <- Hq. rewrite <- app_assoc.
    apply in_or_app. right. left. reflexivity. }
  destruct (concat (map render segs2)) as [|h0 z] eqn:Hz; [destruct Hin|].
  cbn [hd_error] in Hhead. injection Hhead as <-.
  destruct Hin as [Hbad|Hin]; [congruence|].
  destruct (split_at_bracket z Hin) as (n & rest0 & Hn & ->).
  exists id, (h :: n), rest0. split.
  - repeat split; auto; try discriminate.
    cbn [forallb]. rewrite Hn. apply N.eqb_neq in Hh. now rewrite Hh.
  - rewrite Hs. unfold placeholder. rewrite <- !app_assoc. reflexivity.
Qed.

(** The rewritten text is cut into the rewritten segments. *)
Lemma rewritten_tokenized t s segs :
  writable_nicknames t ->
  tokenized s segs ->
  tokenized (concat (map render (map (update_segment t) segs)))
            (map (update_segment t) segs).
Proof.
  intros Hw Htok. induction Htok as [|c s segs Hno Htok IH|id nick rest segs Hv Htok IH].
  - constructor.
  - cbn [map update_segment render concat List.app]. constructor; [|exact IH].
    intros Hstart. apply Hno. apply rewritten_start in Hstart.
    now rewrite <- (tokenized_concat s segs Htok) in Hstart.
  - cbn [map update_segment render concat]. constructor; [|exact IH].
    now apply latest_nickname_valid.
Qed.

(** X20. Rewriting is idempotent when every stored nickname can stand in
    a placeholder: rewriting the rewritten text changes nothing. *)
Theorem replace_nickname_idempotent (t : dict) (s : str) :
  records_are_dicts t ->
  writable_nicknames t ->
  replace_nickname_in_context rt (VDict t)
    (replace_nickname_in_context rt (VDict t) (VStr s))
  = replace_nickname_in_context rt (VDict t) (VStr s).
Proof.
  intros Hrec Hw.
  destruct (tokenized_total s) as [segs Htok].
  rewrite (replace_tokenized t s segs Hrec Htok).
  rewrite (replace_tokenized t _ (map (update_segment t) segs) Hrec
             (rewritten_tokenized t s segs Hw Htok)).
  do 3 f_equal. rewrite map_map. apply map_ext. apply update_segment_again.
Qed.

(** ** The older variant *)

Lemma old_record_user_cases ev a w :
  (exists e, Old_variant.record_user rt ev a w = (Raise e, w)) \/
  exists v w1, Old_variant.record_user rt ev a w = (Ok v, w1).
Proof.
  unfold Old_variant.record_user, bind_action, lift.
  destruct (py_contains (sender_id ev) a) as [[|]|e]; cbn [negb].
  - right. eexists _, _. reflexivity.
  - destruct (py_setitem a (sender_id ev)
                (VDict (Old_variant.get_qq_user_info rt ev (sender_id ev))))
      as [v|e].
    + right. eexists _, _. reflexivity.
    + left. eexists. reflexivity.
  - left. eexists. reflexivity.
Qed.

(** X21. The older variant handles a sender once: what a hook call
    leaves, a second call for the same message leaves as it is, because the
    sender is in [loaded_users] or the first call failed before it wrote
    anything; and a call on the platform with a dict table puts the sender
    into [loaded_users]. *)
Theorem older_hook_runs_once (ev : event) (loaded_users : list str) (w : world) :
  Old_variant.on_llm_request_hook rt ev
    (fst (Old_variant.on_llm_request_hook rt ev loaded_users w))
    (snd (Old_variant.on_llm_request_hook rt ev loaded_users w))
  = Old_variant.on_llm_request_hook rt ev loaded_users w /\
  (forall d,
     platform_name ev = aiocqhttp ->
     load_user_info (fst w) = VDict d ->
     In (sender_id ev)
        (fst (Old_variant.on_llm_request_hook rt ev loaded_users w))).
Proof.
  split.
  - unfold Old_variant.on_llm_request_hook at 2 3 4.
    destruct (negb (str_eqb (platform_name ev) aiocqhttp)) eqn:Hp.
    { cbn [fst snd]. unfold Old_variant.on_llm_request_hook. now rewrite Hp. }
    destruct (existsb (str_eqb (sender_id ev)) loaded_users) eqn:Hin.
    { cbn [fst snd]. unfold Old_variant.on_llm_request_hook. now rewrite Hp, Hin. }
    destruct (old_record_user_cases ev (load_user_info (fst w)) w)
      as [[e Hrec]|(v & w1 & Hrec)]; rewrite Hrec; cbn [fst snd].
    + unfold Old_variant.on_llm_request_hook. now rewrite Hp, Hin, Hrec.
    + unfold Old_variant.on_llm_request_hook. rewrite Hp. cbn [existsb].
      now rewrite str_eqb_refl.
  - intros d Hp Hload. unfold Old_variant.on_llm_request_hook.
    rewrite Hp, str_eqb_refl. cbn [negb].
    destruct (existsb (str_eqb (sender_id ev)) loaded_users) eqn:Hin.
    { cbn [fst]. now apply existsb_str_eqb. }
    rewrite Hload.
    unfold Old_variant.record_user, bind_action, lift, save_user_info_action,
      unit_action.
    cbn [py_contains py_setitem].
    destruct (dict_mem (sender_id ev) d); cbn [negb fst]; now left.
Qed.

(** X22. For a dict record the older variant's prompt joins the two
    identity parts, the gender part and the age part; in a private chat
    the newer variant's prompt is the same with the birthday part put in
    between the gender part and the age part. *)
Theorem newer_prompt_adds_birthday (today : date) (d : dict) :
  Old_variant.format_user_info_for_prompt rt today (VDict d)
  = Ok (join (u "，")
          (identity_parts d ++ gender_parts d
             ++ age_part rt today (field_or_unknown (u "birthday") d))) /\
  format_user_info_for_prompt rt today (VDict d) false
  = Ok (join (u "，")
          (identity_parts d ++ gender_parts d ++ [birthday_part d]
             ++ age_part rt today (field_or_unknown (u "birthday") d))).
Proof.
  unfold Old_variant.format_user_info_for_prompt, format_user_info_for_prompt,
    Old_variant.prompt_parts, prompt_parts, identity_parts, gender_parts,
    birthday_part, field_or_unknown, get_or.
  cbn [py_get bind]. split.
  - reflexivity.
  - now rewrite app_nil_r.
Qed.

(** X23. The record the older variant builds for a new sender holds the
    fields the newer variant builds for the same message in a private
    chat, with the same values. *)
Theorem older_record_fields (ev : event) (qq_number key : str) :
  dict_get key (Old_variant.get_qq_user_info rt ev qq_number)
  = dict_get key (get_qq_user_info rt (in_private ev) qq_number true).
Proof.
  assert (Hsame : forall (a b c : value) (rest : dict),
            dict_get key ([(u "qq_number", a); (u "nickname", b); (u "timestamp", c)]
                            ++ rest)
            = dict_get key ([(u "qq_number", a); (u "timestamp", c); (u "nickname", b)]
                              ++ rest)).
  { intros a b c rest. cbn [List.app dict_get].
    destruct (str_eqb key (u "qq_number")); [reflexivity|].
    destruct (str_eqb key (u "nickname")) eqn:E1;
      destruct (str_eqb key (u "timestamp")) eqn:E2; try reflexivity.
    apply str_eqb_eq in E1, E2. rewrite E1 in E2. vm_compute in E2.
    discriminate E2. }
  unfold Old_variant.get_qq_user_info, get_qq_user_info.
  cbn [in_private platform_name aiocqhttp_event sender_name timestamp
       stranger_info_reply group_id].
  change (truthy rt (VStr [])) with false. cbv iota.
  destruct (negb (str_eqb (platform_name ev) aiocqhttp));
    [exact (Hsame _ _ _ [])|].
  destruct (negb (aiocqhttp_event ev)); [exact (Hsame _ _ _ [])|].
  change (Old.parse_birthday rt) with (parse_birthday rt).
  change Old.get_gender_text with get_gender_text.
  destruct (py_int rt qq_number); cbn [bind try_except]; [|exact (Hsame _ _ _ [])].
  destruct (stranger_info_reply ev) as [stranger_info|]; cbn [bind try_except];
    [|exact (Hsame _ _ _ [])].
  destruct (parse_birthday rt stranger_info) as [birthday|]; cbn [bind try_except];
    [|exact (Hsame _ _ _ [])].
  destruct (py_get stranger_info (u "sex") (VStr (u "unknown"))) as [sex|];
    cbn [bind try_except]; [|exact (Hsame _ _ _ [])].
  destruct (get_gender_text sex) as [gender|]; cbn [bind try_except];
    [|exact (Hsame _ _ _ [])].
  exact (Hsame _ _ _ [(u "gender", VStr gender); (u "birthday", VStr birthday)]).
Qed.

(** ** The two files *)

Lemma load_group_after_save v fs :
  readable v -> storable v = true ->
  load_group_info (save_group_info rt v fs) = canon v.
Proof.
  intros Hv Hs. unfold load_group_info, save_group_info, load_json.
  cbn [group_info_file]. rewrite json_dump_storable by assumption.
  cbn [fst]. now rewrite json_loads_dumps.
Qed.

Lemma saved_group_read_back v fs :
  well_formed v = true -> float_free v = true -> storable v = true ->
  load_group_info (save_group_info rt v fs) = v.
Proof.
  intros Hwf Hff Hs. rewrite load_group_after_save; auto using readable_float_free.
  now apply canon_well_formed.
Qed.

Lemma load_group_after_failed_save v fs :
  readable v -> storable v = false ->
  load_group_info (save_group_info rt v fs) = VDict [].
Proof.
  intros Hv Hbad. unfold load_group_info, save_group_info, load_json.
  cbn [group_info_file]. now rewrite json_loads_cut_off.
Qed.

(** X24. The group table makes the round trip of the user table: without
    floats and with distinct keys, it is loaded back as it was whenever
    [json.dump] writes it without raising; and saving one of the two
    tables leaves what is loaded of the other. *)
Theorem group_table_round_trip (v : value) (fs : files) :
  (well_formed v = true -> float_free v = true ->
   snd (json_dump rt v) = Ok tt ->
   load_group_info (save_group_info rt v fs) = v) /\
  load_user_info (save_group_info rt v fs) = load_user_info fs /\
  load_group_info (save_user_info rt v fs) = load_group_info fs.
Proof.
  split; [|split; reflexivity].
  intros Hwf Hff Hsaved. apply saved_group_read_back; auto using json_dump_ok.
Qed.

Lemma group_record_well_formed ev r :
  well_formed (VDict r) = true -> well_formed (group_record ev r) = true.
Proof.
  intros Hr. unfold group_record, field_or_unknown, get_or.
  cbn [well_formed map fst snd forallb].
  assert (Hget : forall k dflt,
            well_formed dflt = true ->
            well_formed (match dict_get k r with Some v => v | None => dflt end)
            = true).
  { intros k dflt Hd. destruct (dict_get k r) as [v|] eqn:Hv; [|exact Hd].
    now apply dict_get_well_formed with k r. }
  rewrite !Hget by reflexivity. reflexivity.
Qed.

Lemma group_record_float_free ev r :
  float_free (VDict r) = true -> float_free (group_record ev r) = true.
Proof.
  intros Hr. unfold group_record, field_or_unknown, get_or.
  cbn [float_free map fst snd forallb].
  assert (Hget : forall k dflt,
            float_free dflt = true ->
            float_free (match dict_get k r with Some v => v | None => dflt end)
            = true).
  { intros k dflt Hd. destruct (dict_get k r) as [v|] eqn:Hv; [|exact Hd].
    now apply dict_get_float_free with k r. }
  rewrite !Hget by reflexivity. reflexivity.
Qed.

Lemma members_well_formed gid g members :
  well_formed (VDict g) = true -> members_of gid g = Some members ->
  well_formed (VDict members) = true.
Proof.
  unfold members_of. intros Hg.
  destruct (dict_get gid g) as [v|] eqn:Hv.
  - destruct v as [| | | | | |m]; try discriminate. intros [= <-].
    now apply dict_get_well_formed with gid g.
  - now intros [= <-].
Qed.

Lemma members_float_free gid g members :
  float_free (VDict g) = true -> members_of gid g = Some members ->
  float_free (VDict members) = true.
Proof.
  unfold members_of. intros Hg.
  destruct (dict_get gid g) as [v|] eqn:Hv.
  - destruct v as [| | | | | |m]; try discriminate. intros [= <-].
    now apply dict_get_float_free with gid g.
  - now intros [= <-].
Qed.

Lemma group_table_well_formed ev g members r :
  well_formed (VDict g) = true -> members_of (group_id ev) g = Some members ->
  well_formed (VDict r) = true ->
  well_formed (group_table ev g members r) = true.
Proof.
  intros Hg Hm Hr. unfold group_table.
  apply dict_set_well_formed; [assumption|].
  apply dict_set_well_formed.
  - now apply members_well_formed with (group_id ev) g.
  - now apply group_record_well_formed.
Qed.

Lemma group_table_float_free ev g members r :
  float_free (VDict g) = true -> members_of (group_id ev) g = Some members ->
  float_free (VDict r) = true ->
  float_free (group_table ev g members r) = true.
Proof.
  intros Hg Hm Hr. unfold group_table.
  apply dict_set_float_free; [assumption|].
  apply dict_set_float_free.
  - now apply members_float_free with (group_id ev) g.
  - now apply group_record_float_free.
Qed.

(** X25. After a hook call for a platform message in a group chat, with
    tables and a sender's record that hold no floats: when every string of
    the group table the hook saves can be encoded, the group table read
    back from the file lists the sender under the group, with the entry the
    hook built; when one cannot, the file is cut off and the empty table
    is read back. *)
Theorem group_member_is_listed (ev : event) (fs : files) (req : request)
    (d g r members : dict) :
  platform_name ev = aiocqhttp ->
  group_id ev <> [] ->
  load_user_info fs = VDict d ->
  sender_record ev d = VDict r ->
  load_group_info fs = VDict g ->
  members_of (group_id ev) g = Some members ->
  float_free (VDict g) = true ->
  float_free (VDict r) = true ->
  well_formed (VDict r) = true ->
  (storable (group_table ev g members r) = true ->
   exists table entries,
     load_group_info (fst (on_llm_request_hook rt ev (fs, req))) = VDict table /\
     dict_get (group_id ev) table = Some (VDict entries) /\
     dict_get (sender_id ev) entries = Some (group_record ev r)) /\
  (storable (group_table ev g members r) = false ->
   load_group_info (fst (on_llm_request_hook rt ev (fs, req))) = VDict []).
Proof.
  intros Hp Hgid Hload Hr Hgroup Hmembers Hffg Hffr Hwfr.
  destruct (hook_group_file ev fs req d g r members Hp Hgid Hload Hr Hgroup Hmembers)
    as [fs' ->].
  assert (Hwfg : well_formed (VDict g) = true).
  { rewrite <- Hgroup. apply load_json_well_formed. }
  pose proof (group_table_well_formed ev g members r Hwfg Hmembers Hwfr) as Hwf.
  pose proof (group_table_float_free ev g members r Hffg Hmembers Hffr) as Hff.
  split; intros Hst.
  - eexists _, _. split; [|split].
    + now apply saved_group_read_back.
    + apply dict_get_set_same.
    + apply dict_get_set_same.
  - apply load_group_after_failed_save; [|exact Hst].
    now apply readable_float_free.
Qed.

(** X26. An operation writes the user-info file at most once; and the
    hook call for a platform message of a sender without a record in a
    dict table writes it once, with the new record appended to the records
    that were loaded: the file takes what [json.dump] writes of this
    table, which is its whole JSON text when every string of the table
    can be encoded. *)
Theorem user_file_writes (fs : files) :
  (forall o,
     user_info_writes (step rt fs o) = user_info_writes fs \/
     user_info_writes (step rt fs o) = S (user_info_writes fs)) /\
  (forall ev req d,
     platform_name ev = aiocqhttp ->
     load_user_info fs = VDict d ->
     dict_get (sender_id ev) d = None ->
     user_info_writes (step rt fs (OnLlmRequest ev req)) = S (user_info_writes fs) /\
     user_info_file (step rt fs (OnLlmRequest ev req))
     = Content (fst (json_dump rt
                       (VDict (d ++ [(sender_id ev,
                                      VDict (get_qq_user_info rt ev (sender_id ev)
                                               true))])))) /\
     (storable (VDict (d ++ [(sender_id ev,
                              VDict (get_qq_user_info rt ev (sender_id ev) true))]))
      = true ->
      user_info_file (step rt fs (OnLlmRequest ev req))
      = Content (json_dumps rt
                   (VDict (d ++ [(sender_id ev,
                                  VDict (get_qq_user_info rt ev (sender_id ev)
                                           true))]))))).
Proof.
  split.
  - intros o. destruct o as [ev req|ev x|ev x|ev x]; cbn [step].
    + destruct (hook_user_file ev (fs, req)) as [[_ H]|(v & _ & _ & _ & [_ H])];
        cbn [fst] in H; rewrite H; auto.
    + destruct (update_nickname_outcome ev x fs) as [->|(all & _ & _ & ->)]; auto.
    + destruct (update_birthday_outcome ev x fs) as [->|[_ (all & _ & _ & ->)]]; auto.
    + destruct (update_gender_outcome ev x fs) as [->|[_ (all & _ & _ & ->)]]; auto.
  - intros ev req d Hp Hload Hnew. cbn [step].
    destruct (hook_user_file ev (fs, req)) as [[_ H]|(v & _ & _ & Hset & [Hf Hn])];
      cbn [fst] in *.
    + exfalso.
      pose proof (hook_on_platform ev (fs, req) Hp) as Hhook.
      cbn [fst] in Hhook. rewrite Hload, record_user_dict in Hhook.
      unfold dict_mem in Hhook. rewrite Hnew in Hhook. cbv zeta in Hhook.
      cbn [fst snd] in Hhook.
      assert (Hw : user_info_writes (fst (on_llm_request_hook rt ev (fs, req)))
                   = S (user_info_writes fs)).
      { rewrite Hhook.
        match goal with
        | |- user_info_writes (fst (snd (bind_action ?m ?k ?w1))) = _ =>
          assert (Hk : keeps_user_file (bind_action m k));
          [apply keeps_bind;
           [destruct (truthy rt (VStr (group_id ev)));
            [apply keeps_record_group_member|apply keeps_unit]
           |intros _; apply keeps_enrich_request]
          |destruct (Hk w1) as [_ Hw1]; rewrite Hw1; reflexivity]
        end. }
      rewrite Hw in H. lia.
    + rewrite Hload in Hset. cbn [py_setitem] in Hset. injection Hset as <-.
      rewrite Hf, Hn. cbn [save_user_info user_info_file user_info_writes].
      rewrite dict_set_fresh.
      * split; [reflexivity|]. split; [reflexivity|].
        intros Hst. now rewrite json_dump_storable.
      * intros Hin. apply dict_mem_keys in Hin. unfold dict_mem in Hin.
        now rewrite Hnew in Hin.
Qed.

(** ** What an operation leaves of the table *)

Lemma dict_get_canon_members kvs id :
  dict_get id (map canon_member kvs) = option_map canon (dict_get id kvs).
Proof.
  induction kvs as [|[k x] kvs IH]; [reflexivity|].
  cbn [map canon_member dict_get]. destruct (str_eqb id k); [reflexivity|exact IH].
Qed.

Lemma canon_dict_distinct kvs :
  NoDup (keys kvs) -> canon (VDict kvs) = VDict (map canon_member kvs).
Proof.
  intros Hnd. cbn [canon]. f_equal.
  change (fun '(k, x) => (k, canon x)) with canon_member.
  apply (dict_update_distinct (map canon_member kvs) []).
  cbn [List.app]. now rewrite keys_canon_members.
Qed.

Lemma loaded_keys_distinct fs d :
  load_user_info fs = VDict d -> NoDup (keys d).
Proof.
  intros Hload. pose proof (loaded_well_formed fs) as Hwf.
  rewrite Hload in Hwf. cbn [well_formed] in Hwf.
  apply andb_true_iff in Hwf as [Hd _]. now apply distinct_NoDup.
Qed.

Lemma keys_dict_set_present {V} k (v v0 : V) d :
  dict_get k d = Some v0 -> keys (dict_set k v d) = keys d.
Proof.
  induction d as [|[k' v'] d IH]; cbn [dict_get dict_set]; [discriminate|].
  destruct (str_eqb k k') eqn:E; [reflexivity|].
  intros H. cbn [keys map fst]. f_equal. now apply IH.
Qed.

(** The table read back after a dict table was saved. *)
Lemma saved_dict_read_back d fs :
  (forall y, readable_float y) ->
  NoDup (keys d) ->
  load_user_info (save_user_info rt (VDict d) fs)
  = if storable (VDict d) then VDict (map canon_member d) else VDict [].
Proof.
  intros Hfl Hnd. destruct (storable (VDict d)) eqn:Hst.
  - rewrite load_after_save by (auto using readable_all).
    now apply canon_dict_distinct.
  - apply load_after_failed_save; [now apply readable_all|exact Hst].
Qed.

(** Why a table that is saved cannot be written: the loaded table could
    not, or the operation brought a text that cannot be encoded. *)
Lemma unstorable_cause (a b c : bool) :
  (a = true -> b = true -> c = true) -> c = false -> a = false \/ b = false.
Proof. destruct a, b; auto. intros H Hc. rewrite H in Hc by reflexivity. discriminate. Qed.

Lemma assigned_unstorable d id r field x :
  dict_get id d = Some (VDict r) -> encodable field = true ->
  storable (assigned d id r field x) = false ->
  storable (VDict d) = false \/ encodable x = false.
Proof.
  intros Hr Hfield. apply unstorable_cause. intros Hd Hx.
  now apply assigned_storable.
Qed.

(** X27. An operation leaves the records of everyone but the sender as
    they are, in a table without floats: the record stored under any
    other id is the same before and after a hook call or an edit command,
    unless the table that is saved cannot be written, because the loaded
    table or a text of the operation holds a string that cannot be
    encoded; then no record is left. *)
Theorem other_records_are_kept (fs : files) (o : operation) (id : str) :
  (forall y, readable_float y) ->
  float_free (load_user_info fs) = true ->
  id <> sender_of o ->
  record_of id (step rt fs o) = record_of id fs \/
  (record_of id (step rt fs o) = None /\
   (storable (load_user_info fs) = false \/ writable o = false)).
Proof.
  intros Hfl Hff Hid.
  assert (Hedit : forall field ev x fs',
            id <> sender_id ev -> encodable field = true ->
            assigns field ev x fs fs' ->
            record_of id fs' = record_of id fs \/
            (record_of id fs' = None /\
             (storable (load_user_info fs) = false \/ encodable x = false))).
  { intros field ev x fs' Hne Hfield Ha.
    apply assigns_dict in Ha as (d & r & Hload & Hr & ->).
    unfold record_of. rewrite Hload in Hff |- *.
    rewrite (edited_loaded fs d _ r) by assumption.
    destruct (storable (assigned d (sender_id ev) r field x)) eqn:Hst.
    - left. unfold assigned. now apply dict_get_set_other.
    - right. split; [reflexivity|]. now apply assigned_unstorable with (sender_id ev) r field. }
  destruct o as [ev req|ev x|ev x|ev x]; cbn [step sender_of writable] in *.
  - destruct (hook_user_file ev (fs, req)) as [H|(v & _ & Hc & Hset & H)];
      cbn [fst] in *; apply same_user_file_load in H.
    + left. unfold record_of. now rewrite H.
    + unfold record_of. rewrite H.
      destruct (load_user_info fs) as [| | | | | |d] eqn:Hload; try discriminate.
      cbn [py_setitem] in Hset. injection Hset as <-.
      rewrite saved_dict_read_back;
        [|assumption|apply dict_set_NoDup; now apply loaded_keys_distinct with fs].
      destruct (storable (VDict (dict_set (sender_id ev)
                  (VDict (get_qq_user_info rt ev (sender_id ev) true)) d))) eqn:Hst.
      * left.
        rewrite dict_get_canon_members, dict_get_set_other by assumption.
        destruct (dict_get id d) as [x|] eqn:Hx; [|reflexivity].
        cbn [option_map]. f_equal. apply canon_well_formed.
        -- apply dict_get_well_formed with id d; [|assumption].
           rewrite <- Hload. apply loaded_well_formed.
        -- now apply dict_get_float_free with id d.
      * right. split; [reflexivity|]. revert Hst. apply unstorable_cause.
        intros Hd Hw. apply andb_true_iff in Hw as [Hw1 Hw2].
        now apply dict_set_storable.
  - destruct (update_nickname_outcome ev x fs) as [->|H]; [now left|].
    now apply Hedit with (u "nickname") ev.
  - destruct (update_birthday_outcome ev x fs) as [->|[_ H]]; [now left|].
    now apply Hedit with (u "birthday") ev.
  - destruct (update_gender_outcome ev x fs) as [->|[_ H]]; [now left|].
    now apply Hedit with (u "gender") ev.
Qed.

(** X28. The ids after an operation: an edit command leaves the ids of
    the table as they are, and a hook call leaves them or puts the
    sender's id, which was not among them, behind them; unless the table
    that is saved cannot be written, because the loaded table or a text of
    the operation holds a string that cannot be encoded: then the file is
    cut off and no id is left. *)
Theorem ids_after_an_operation (fs : files) (o : operation) :
  (forall y, readable_float y) ->
  user_ids (step rt fs o) = user_ids fs \/
  (exists ev req,
     o = OnLlmRequest ev req /\
     platform_name ev = aiocqhttp /\
     ~ In (sender_id ev) (user_ids fs) /\
     user_ids (step rt fs o) = user_ids fs ++ [sender_id ev]) \/
  (user_ids (step rt fs o) = [] /\
   (storable (load_user_info fs) = false \/ writable o = false)).
Proof.
  intros Hfl.
  assert (Hedit : forall field ev x fs',
            encodable field = true ->
            assigns field ev x fs fs' ->
            user_ids fs' = user_ids fs \/
            (user_ids fs' = [] /\
             (storable (load_user_info fs) = false \/ encodable x = false))).
  { intros field ev x fs' Hfield Ha.
    apply assigns_dict in Ha as (d & r & Hload & Hr & ->).
    unfold user_ids, edited. rewrite Hload.
    pose proof (saved_dict_read_back
                  (dict_set (sender_id ev) (VDict (dict_set field (VStr x) r)) d) fs
                  Hfl (dict_set_NoDup _ _ d (loaded_keys_distinct fs d Hload)))
      as Hsaved.
    change (VDict (dict_set (sender_id ev) (VDict (dict_set field (VStr x) r)) d))
      with (assigned d (sender_id ev) r field x) in Hsaved.
    rewrite Hsaved.
    destruct (storable (assigned d (sender_id ev) r field x)) eqn:Hst.
    - left. rewrite keys_canon_members.
      now apply keys_dict_set_present with (VDict r).
    - right. split; [reflexivity|].
      now apply assigned_unstorable with (sender_id ev) r field. }
  destruct o as [ev req|ev x|ev x|ev x]; cbn [step writable].
  - destruct (hook_user_file ev (fs, req)) as [H|(v & Hp & Hc & Hset & H)];
      cbn [fst] in *.
    + left. now apply same_user_file_ids.
    + rewrite (same_user_file_ids _ _ H). unfold user_ids.
      destruct (load_user_info fs) as [| | | | | |d] eqn:Hload; try discriminate.
      cbn [py_setitem py_contains] in Hset, Hc. injection Hset as <-.
      injection Hc as Hc.
      assert (Hnew : ~ In (sender_id ev) (keys d)).
      { intros Hin. apply dict_mem_keys in Hin. congruence. }
      rewrite saved_dict_read_back;
        [|assumption|apply dict_set_NoDup; now apply loaded_keys_distinct with fs].
      destruct (storable (VDict (dict_set (sender_id ev)
                  (VDict (get_qq_user_info rt ev (sender_id ev) true)) d))) eqn:Hst.
      * right. left. exists ev, req. split; [reflexivity|]. split; [assumption|].
        split; [assumption|].
        rewrite keys_canon_members, dict_set_fresh by assumption.
        unfold keys. now rewrite map_app.
      * right. right. split; [reflexivity|]. revert Hst. apply unstorable_cause.
        intros Hd Hw. apply andb_true_iff in Hw as [Hw1 Hw2].
        now apply dict_set_storable.
  - destruct (update_nickname_outcome ev x fs) as [->|H]; [now left|].
    destruct (Hedit (u "nickname") ev x _ eq_refl H) as [->|Hcut]; auto.
  - destruct (update_birthday_outcome ev x fs) as [->|[_ H]]; [now left|].
    destruct (Hedit (u "birthday") ev x _ eq_refl H) as [->|Hcut]; auto.
  - destruct (update_gender_outcome ev x fs) as [->|[_ H]]; [now left|].
    destruct (Hedit (u "gender") ev x _ eq_refl H) as [->|Hcut]; auto.
Qed.

(** ** Rewriting with other objects *)

(** With a callback that raises on every match, [re.sub] raises or finds
    nothing to replace. *)
Lemma sub_loop_raising p repl :
  (forall whole groups, exists e, repl whole groups = Raise e) ->
  forall fuel s,
    (List.length s < fuel)%nat ->
    (exists e, sub_loop rt fuel p repl s = Raise e) \/
    sub_loop rt fuel p repl s = Ok s.
Proof.
  intros Hrepl. induction fuel as [|fuel IH]; intros s Hlen; [lia|].
  cbn [sub_loop].
  destruct (match_items rt p s) as [[caps rest]|].
  - left. destruct (Hrepl (firstn (List.length s - List.length rest) s) caps)
      as [e ->].
    now exists e.
  - destruct s as [|c s]; [now right|].
    cbn [List.length] in Hlen.
    destruct (IH s ltac:(lia)) as [[e ->]| ->]; [left; now exists e|now right].
Qed.

(** X29. [replace_nickname_in_context] gives its text back unchanged
    when the text is not a string, and when the table is not a dict. *)
Theorem replace_with_other_objects :
  (forall table pre_text,
     (forall s, pre_text <> VStr s) ->
     replace_nickname_in_context rt table pre_text = pre_text) /\
  (forall table s,
     not_a_dict table ->
     replace_nickname_in_context rt table (VStr s) = VStr s).
Proof.
  split.
  - intros table pre_text Hs. unfold replace_nickname_in_context.
    destruct (negb (truthy rt table) || negb (truthy rt pre_text)); [reflexivity|].
    destruct pre_text as [| | | |s| |]; try reflexivity.
    now destruct (Hs s).
  - intros table s Htable. unfold replace_nickname_in_context.
    destruct (negb (truthy rt table) || negb (truthy rt (VStr s))); [reflexivity|].
    unfold re_sub.
    destruct (sub_loop_raising placeholder_pattern (replace_callback rt table))
      with (fuel := S (List.length s)) (s := s) as [[e ->]| ->];
      try reflexivity; [|lia].
    intros whole groups. unfold replace_callback.
    destruct table as [| | | | | |d]; try (now eexists).
    now destruct (Htable d).
Qed.

(** ** The record of a successful lookup *)

(** X30. When every lookup succeeds for a platform message in a group
    chat (integer ids, dict answers, a hashable sex code), the record of
    [get_qq_user_info] is the fields it starts from, the gender text of
    the sex code (unknown when absent), the parsed birthday, the role of
    the group answer (member when absent) and its title (无 when absent or
    empty). *)
Theorem successful_lookup (ev : event) (qq_number : str) (info member : dict)
    (n g : Z) (birthday gender : str) :
  platform_name ev = aiocqhttp ->
  aiocqhttp_event ev = true ->
  py_int rt qq_number = Ok n ->
  group_id ev <> [] ->
  py_int rt (group_id ev) = Ok g ->
  stranger_info_reply ev = Ok (VDict info) ->
  group_member_info_reply ev = Ok (VDict member) ->
  parse_birthday rt (VDict info) = Ok birthday ->
  get_gender_text (get_or (u "sex") (VStr (u "unknown")) info) = Ok gender ->
  get_qq_user_info rt ev qq_number true
  = base_record ev qq_number true
      ++ [(u "gender", VStr gender); (u "birthday", VStr birthday)]
      ++ [(u "group_role", get_or (u "role") (VStr (u "member")) member);
          (u "group_title",
           if truthy rt (get_or (u "title") (VStr []) member)
           then get_or (u "title") (VStr []) member
           else VStr no_title)].
Proof.
  intros Hp Ha Hqq Hgid Hg Hinfo Hmember Hbirthday Hgender.
  unfold get_qq_user_info.
  rewrite Hp, str_eqb_refl, Ha. cbn [negb].
  rewrite Hqq. cbn [bind]. rewrite Hinfo. cbn [bind].
  rewrite Hbirthday. cbn [bind py_get].
  unfold get_or in Hgender. rewrite Hgender. cbn [bind].
  assert (Hgroup_chat : truthy rt (VStr (group_id ev)) = true).
  { destruct (group_id ev); [congruence|reflexivity]. }
  rewrite Hgroup_chat, Hg. cbn [bind]. rewrite Hmember.
  cbn [bind py_get try_except]. reflexivity.
Qed.

End Properties.

Lemma ascii_floats_readable : forall y, readable_float ascii_runtime y.
Proof.
  intros y fuel rest Hrest.
  apply delimited_cases in Hrest as [->|[r [->| ->]]]; reflexivity.
Qed.

Lemma calculate_age_policy_witness :
  calculate_age ascii_runtime june_1_2024 (VStr (u "2000/01/01")) = 0 /\
  calculate_age ascii_runtime june_1_2024 (VStr (u "2000-06-02")) = 23.
Proof.
  split.
  - apply (calculate_age_policy ascii_runtime june_1_2024 (u "2000/01/01")).
    right. intros (y & m & d & p0 & p1 & p2 & Hs & _). vm_compute in Hs.
    discriminate Hs.
  - apply (proj2 (calculate_age_policy ascii_runtime june_1_2024 (u "2000-06-02"))
             2000 6 2).
    exists (u "2000"), (u "06"), (u "02"). repeat split; reflexivity.
Defined.

Lemma calculate_age_on_the_birthday :
  ~ age_24_strictly_after_feb_1 ascii_runtime.
Proof.
  intros H. specialize (H 2 1). vm_compute in H. discriminate H.
Qed.

Lemma empty_nickname_is_not_written :
  ~ stored_nickname_always_replaces ascii_runtime.
Proof.
  intros H.
  specialize (H [(u "1", VDict [(u "nickname", VStr [])])] (u "1") (u "a")
                [(u "nickname", VStr [])] []).
  assert (Hfalse : VStr (placeholder (u "1") (u "a")) = VStr (placeholder (u "1") [])).
  { rewrite <- H; [reflexivity| |reflexivity|reflexivity|discriminate].
    repeat split; try discriminate; reflexivity. }
  vm_compute in Hfalse. discriminate Hfalse.
Qed.

Lemma replace_nickname_in_context_spec_witness :
  exists segs segs' : list segment,
    tokenized ascii_runtime (u "hi [User ID: 1, Nickname: a]!") segs /\
    Forall2 (rewritten ascii_runtime [(u "1", VDict [(u "nickname", VStr (u "b"))])])
            segs segs' /\
    replace_nickname_in_context ascii_runtime
      (VDict [(u "1", VDict [(u "nickname", VStr (u "b"))])])
      (VStr (u "hi [User ID: 1, Nickname: a]!"))
    = VStr (concat (map render segs')).
Proof.
  apply (replace_nickname_in_context_spec ascii_runtime).
  intros id v H. cbn [dict_get] in H.
  destruct (str_eqb id (u "1")); [|discriminate H].
  injection H as <-. eexists. reflexivity.
Defined.

Lemma safe_defaults_witness :
  load_user_info no_files = VDict [] /\
  parse_birthday ascii_runtime
    (VDict [(u "birthday_year", VInt 2000); (u "birthday_month", VInt 0);
            (u "birthday_day", VInt 1)]) = Ok unknown /\
  calculate_age ascii_runtime june_1_2024 (VStr (u "2000-xx-01")) = 0.
Proof.
  destruct (safe_defaults ascii_runtime) as (Hload & Hparse & Hage).
  split; [|split].
  - apply Hload. left. reflexivity.
  - apply (Hparse _ (u "birthday_month")).
    + right. left. reflexivity.
    + reflexivity.
  - apply Hage. right.
    exists (u "2000-xx-01"), (u "2000"), (u "xx"), (u "01"), ValueError.
    repeat split; try reflexivity. right. left. reflexivity.
Defined.



Lemma parse_birthday_without_padding :
  ~ parsed_birthday_is_iso ascii_runtime /\ ~ accepted_birthday_is_iso ascii_runtime.
Proof.
  split.
  - intros H.
    destruct (H (VDict [(u "birthday_year", VInt 2000); (u "birthday_month", VInt 1);
                        (u "birthday_day", VInt 1)])
                (u "2000-1-1") eq_refl) as [Hu|Hiso].
    + vm_compute in Hu. discriminate Hu.
    + vm_compute in Hiso. discriminate Hiso.
  - intros H.
    assert (Hiso : iso_date (u "2000-02-31") = true).
    { apply (H a_message (u "2000-02-31") one_user).
      vm_compute. discriminate. }
    vm_compute in Hiso. discriminate Hiso.
Qed.

Lemma save_load_round_trip_witness :
  load_user_info (save_user_info ascii_runtime a_table no_files) = a_table.
Proof.
  apply (save_load_round_trip ascii_runtime a_table no_files); reflexivity.
Defined.

Lemma replace_nickname_edge_cases_witness :
  replace_nickname_in_context ascii_runtime (VDict [])
    (VStr (u "[User ID: 1, Nickname: a]")) = VStr (u "[User ID: 1, Nickname: a]") /\
  replace_callback ascii_runtime (VDict [(u "1", VDict [(u "nickname", VStr [])])])
    (u "[User ID: 1, Nickname: a]") [u "1"; u "a"]
  = Ok (u "[User ID: 1, Nickname: a]") /\
  replace_nickname_in_context ascii_runtime
    (VDict [(u "1", VDict [(u "qq_number", VStr (u "1"))])])
    (VStr (u "[User ID: 1, Nickname: a]")) = VStr (u "[User ID: 1, Nickname: a]").
Proof.
  destruct (replace_nickname_edge_cases ascii_runtime) as (Hempty & _ & Hcb & Htext).
  split; [|split].
  - apply Hempty. reflexivity.
  - apply (Hcb _ (u "1") (u "a") [(u "nickname", VStr [])]).
    + reflexivity.
    + right. reflexivity.
  - apply Htext. intros id v H. cbn [dict_get] in H.
    destruct (str_eqb id (u "1")); [|discriminate H].
    injection H as <-. eexists. split; [reflexivity|]. left. reflexivity.
Defined.

Lemma edit_commands_atomic_witness :
  update_nickname ascii_runtime a_message (u "Neo") no_files = ([not_registered], no_files) /\
  (exists reply,
     update_birthday ascii_runtime a_message (u "2000-13-01") one_user
     = ([reply], one_user) /\ error_reply reply) /\
  (exists reply,
     update_gender ascii_runtime a_message (u "unknown") one_user
     = ([reply], one_user) /\ error_reply reply).
Proof.
  destruct (edit_commands_atomic ascii_runtime) as (Habsent & Hbirthday & Hgender).
  split; [|split].
  - apply Habsent. reflexivity.
  - apply Hbirthday.
    intros (y & m & d & (p0 & p1 & p2 & Hs & H0 & H1 & H2) & _ & Hm & _).
    vm_compute in Hs. injection Hs as <- <- <-.
    vm_compute in H1. injection H1 as <-. lia.
  - apply Hgender. intros [H|[H|[]]]; vm_compute in H; discriminate H.
Defined.

Lemma stored_birthdays_witness :
  (u "2000-1-1" = unknown \/
   exists fields y m d,
     VDict [(u "birthday_year", VInt 2000); (u "birthday_month", VInt 1);
            (u "birthday_day", VInt 1)] = VDict fields /\
     dict_get (u "birthday_year") fields = Some y /\ truthy ascii_runtime y = true /\
     dict_get (u "birthday_month") fields = Some m /\ truthy ascii_runtime m = true /\
     dict_get (u "birthday_day") fields = Some d /\ truthy ascii_runtime d = true /\
     u "2000-1-1" = py_str ascii_runtime y ++ u "-" ++ py_str ascii_runtime m
                      ++ u "-" ++ py_str ascii_runtime d) /\
  (snd (update_birthday ascii_runtime a_message (u "2000-13-01") one_user) = one_user \/
   acceptable_birthday ascii_runtime (now a_message) (u "2000-13-01") /\
   assigns ascii_runtime (u "birthday") a_message (u "2000-13-01") one_user
     (snd (update_birthday ascii_runtime a_message (u "2000-13-01") one_user))).
Proof.
  destruct (stored_birthdays ascii_runtime) as [Hparse Hupdate].
  split.
  - apply Hparse. reflexivity.
  - apply Hupdate.
Defined.

(** * The further properties on sample data *)

Lemma age_grows_with_time_witness :
  calculate_age ascii_runtime (in_2024 1 31) feb_1_2000
  <= calculate_age ascii_runtime (in_2024 2 1) feb_1_2000 /\
  calculate_age ascii_runtime (a_year_later june_1_2024) feb_1_2000
  = calculate_age ascii_runtime june_1_2024 feb_1_2000 + 1.
Proof.
  split.
  - apply (proj1 (age_grows_with_time ascii_runtime feb_1_2000 (in_2024 1 31))).
    reflexivity.
  - apply (proj2 (age_grows_with_time ascii_runtime feb_1_2000 june_1_2024)
             (u "2000-02-01") 2000 2 1); [reflexivity|].
    exists (u "2000"), (u "02"), (u "01"). repeat split; reflexivity.
Defined.

Lemma accepted_birthday_age_witness :
  exists y m d,
    three_integer_fields ascii_runtime (u "2001-02-03") y m d /\
    calculate_age ascii_runtime (now a_message) (VStr (u "2001-02-03"))
    = year (now a_message) - y
      - (if tuple_ltb (month (now a_message), day (now a_message)) (m, d)
         then 1 else 0) /\
    -1 <= calculate_age ascii_runtime (now a_message) (VStr (u "2001-02-03"))
       <= year (now a_message) - 1900.
Proof.
  apply (accepted_birthday_age ascii_runtime a_message (u "2001-02-03") one_user).
  vm_compute. discriminate.
Defined.

Lemma parsed_birthday_age_witness :
  exists b,
    parse_birthday ascii_runtime
      (VDict [(u "birthday_year", VInt 2000); (u "birthday_month", VInt 1);
              (u "birthday_day", VInt 1)]) = Ok b /\
    three_integer_fields ascii_runtime b 2000 1 1 /\
    calculate_age ascii_runtime june_1_2024 (VStr b)
    = year june_1_2024 - 2000
      - (if tuple_ltb (month june_1_2024, day june_1_2024) (1, 1) then 1 else 0).
Proof.
  apply (parsed_birthday_age ascii_runtime june_1_2024); try reflexivity; lia.
Defined.

Lemma lookup_failures_witness :
  get_qq_user_info ascii_runtime a_message (u "abc") true
  = base_record a_message (u "abc") true /\
  get_qq_user_info ascii_runtime a_renamed_message (u "123") true
  = base_record a_renamed_message (u "123") true /\
  get_qq_user_info ascii_runtime a_renamed_message (u "123") false
  = get_qq_user_info ascii_runtime (in_private a_renamed_message) (u "123") false.
Proof.
  split; [|split].
  - apply (proj1 (lookup_failures ascii_runtime a_message (u "abc")) true ValueError).
    reflexivity.
  - apply (proj1 (proj2 (lookup_failures ascii_runtime a_renamed_message (u "123")))
             ApiError).
    reflexivity.
  - apply (proj2 (proj2 (lookup_failures ascii_runtime a_renamed_message (u "123")))
             false ApiError).
    reflexivity.
Defined.

Lemma edit_commands_effect_witness :
  update_nickname ascii_runtime a_message (u "Neo") one_user
  = ([Plain (u "已更新您的昵称: " ++ u "Neo")],
     edited ascii_runtime one_user one_user_table (sender_id a_message)
       one_user_record (u "nickname") (u "Neo")) /\
  update_birthday ascii_runtime a_message (u "2001-02-03") one_user
  = ([Plain (u "已更新您的生日: " ++ u "2001-02-03")],
     edited ascii_runtime one_user one_user_table (sender_id a_message)
       one_user_record (u "birthday") (u "2001-02-03")) /\
  update_gender ascii_runtime a_message (u "男") one_user
  = ([Plain (u "已更新您的性别: " ++ u "男")],
     edited ascii_runtime one_user one_user_table (sender_id a_message)
       one_user_record (u "gender") (u "男")) /\
  load_user_info
    (edited ascii_runtime one_user one_user_table (sender_id a_message)
       one_user_record (u "nickname") (u "Neo"))
  = assigned one_user_table (sender_id a_message) one_user_record
      (u "nickname") (u "Neo") /\
  load_user_info
    (edited ascii_runtime one_user one_user_table (sender_id a_message)
       one_user_record (u "nickname") a_lone_surrogate)
  = VDict [].
Proof.
  split; [|split; [|split; [|split]]].
  - apply (edit_commands_effect ascii_runtime a_message (u "Neo") one_user
             one_user_table one_user_record);
      try (vm_compute; reflexivity).
  - apply (edit_commands_effect ascii_runtime a_message (u "2001-02-03") one_user
             one_user_table one_user_record);
      try (vm_compute; reflexivity).
    exists 2001, 2, 3. split.
    + exists (u "2001"), (u "02"), (u "03"). repeat split; reflexivity.
    + unfold a_message, june_1_2024. simpl. lia.
  - apply (edit_commands_effect ascii_runtime a_message (u "男") one_user
             one_user_table one_user_record);
      try (vm_compute; reflexivity).
    left. reflexivity.
  - rewrite (proj1 (edit_commands_effect ascii_runtime a_message (u "Neo") one_user
                      one_user_table one_user_record
                      ltac:(vm_compute; reflexivity) ltac:(vm_compute; reflexivity)
                      ltac:(vm_compute; reflexivity))).
    vm_compute. reflexivity.
  - rewrite (proj1 (edit_commands_effect ascii_runtime a_message a_lone_surrogate
                      one_user one_user_table one_user_record
                      ltac:(vm_compute; reflexivity) ltac:(vm_compute; reflexivity)
                      ltac:(vm_compute; reflexivity))).
    vm_compute. reflexivity.
Defined.

Lemma nickname_edits_compose_witness :
  user_info_file
    (snd (update_nickname ascii_runtime a_message (u "Neo")
            (snd (update_nickname ascii_runtime a_message (u "Leo") two_users))))
  = user_info_file (snd (update_nickname ascii_runtime a_message (u "Neo") two_users)) /\
  user_info_file
    (snd (update_nickname ascii_runtime another_message (u "Neo")
            (snd (update_nickname ascii_runtime a_message (u "Leo") two_users))))
  = user_info_file
      (snd (update_nickname ascii_runtime a_message (u "Leo")
              (snd (update_nickname ascii_runtime another_message (u "Neo")
                      two_users)))).
Proof.
  split.
  - apply (nickname_edits_compose ascii_runtime a_message a_message
             (u "Leo") (u "Neo") two_users); vm_compute; reflexivity.
  - apply (nickname_edits_compose ascii_runtime a_message another_message
             (u "Leo") (u "Neo") two_users); try (vm_compute; reflexivity).
    intros H. vm_compute in H. discriminate H.
Defined.

Lemma commands_answer_once_witness :
  show_my_info ascii_runtime a_message no_files = [not_registered].
Proof.
  apply (commands_answer_once ascii_runtime a_message [] no_files). reflexivity.
Defined.

Lemma my_info_after_edit_witness :
  show_my_info ascii_runtime a_message
    (snd (update_nickname ascii_runtime a_message (u "Neo") one_user))
  = [Plain (u "您的信息:" ++ line_break
              ++ u "QQ: "
              ++ py_str ascii_runtime (field_or_unknown (u "qq_number") one_user_record)
              ++ line_break
              ++ u "昵称: " ++ u "Neo" ++ line_break
              ++ u "性别: "
              ++ py_str ascii_runtime (field_or_unknown (u "gender") one_user_record)
              ++ line_break
              ++ u "生日: "
              ++ py_str ascii_runtime (field_or_unknown (u "birthday") one_user_record)
              ++ info_age_line ascii_runtime (now a_message)
                   (field_or_unknown (u "birthday") one_user_record))] /\
  show_my_info ascii_runtime a_message
    (snd (update_nickname ascii_runtime a_message a_lone_surrogate one_user))
  = [not_registered].
Proof.
  split.
  - rewrite (my_info_after_edit ascii_runtime a_message (u "Neo") one_user
               one_user_table one_user_record);
      vm_compute; reflexivity.
  - rewrite (my_info_after_edit ascii_runtime a_message a_lone_surrogate one_user
               one_user_table one_user_record);
      vm_compute; reflexivity.
Defined.

Lemma prompt_of_a_record_witness :
  (exists rest,
     format_user_info_for_prompt ascii_runtime june_1_2024
       (VDict one_user_record) false
     = Ok (u "用户QQ号: "
             ++ py_str ascii_runtime (field_or_unknown (u "qq_number") one_user_record)
             ++ u "，" ++ u "昵称: "
             ++ py_str ascii_runtime (field_or_unknown (u "nickname") one_user_record)
             ++ rest)) /\
  format_user_info_for_prompt ascii_runtime june_1_2024
    (VDict [(u "group_role", VList [VInt 1])]) true
  = Raise TypeError.
Proof.
  split.
  - apply (prompt_of_a_record ascii_runtime june_1_2024 one_user_record false).
    left. reflexivity.
  - apply (proj2 (prompt_of_a_record ascii_runtime june_1_2024
                    [(u "group_role", VList [VInt 1])] true)
             (VList [VInt 1])); reflexivity.
Defined.

Lemma prompt_depends_on_fields_witness :
  format_user_info_for_prompt ascii_runtime june_1_2024
    (VDict one_user_record) false
  = format_user_info_for_prompt ascii_runtime june_1_2024
      (VDict (dict_set (u "timestamp") (VInt 0) one_user_record)) false.
Proof.
  apply (prompt_depends_on_fields ascii_runtime june_1_2024 one_user_record
           (dict_set (u "timestamp") (VInt 0) one_user_record) false).
  intros key [<-|[<-|[<-|[<-|[]]]]]; vm_compute; reflexivity.
Defined.

Lemma prompt_after_failed_lookup_witness :
  format_user_info_for_prompt ascii_runtime june_1_2024
    (VDict (get_qq_user_info ascii_runtime a_renamed_message (u "123") true)) false
  = Ok (u "用户QQ号: " ++ u "123" ++ u "，" ++ u "昵称: "
          ++ sender_name a_renamed_message
          ++ u "，" ++ u "性别: None" ++ u "，" ++ u "生日: 未知").
Proof.
  apply (prompt_after_failed_lookup ascii_runtime june_1_2024 a_renamed_message
           (u "123") ApiError).
  reflexivity.
Defined.

Lemma hook_without_effect_witness :
  on_llm_request_hook ascii_runtime a_foreign_message (no_files, a_request)
  = (no_files, a_request) /\
  on_llm_request_hook ascii_runtime a_message (an_array_file, a_request)
  = (an_array_file, a_request) /\
  step ascii_runtime an_array_file (UpdateNickname a_message (u "Neo"))
  = an_array_file.
Proof.
  destruct (hook_without_effect ascii_runtime) as (Hplatform & Hhook & Hstep).
  split; [|split].
  - apply Hplatform. intros H. vm_compute in H. discriminate H.
  - apply Hhook. intros d H. vm_compute in H. discriminate H.
  - apply Hstep. intros d H. vm_compute in H. discriminate H.
Defined.

Lemma known_sender_is_not_refreshed_witness :
  on_llm_request_hook ascii_runtime a_renamed_message (one_user, a_request)
  = on_llm_request_hook ascii_runtime a_message (one_user, a_request) /\
  same_user_file (fst (one_user, a_request))
    (fst (on_llm_request_hook ascii_runtime a_message (one_user, a_request))).
Proof.
  apply (known_sender_is_not_refreshed ascii_runtime a_message a_renamed_message
           (one_user, a_request) one_user_table).
  - vm_compute. reflexivity.
  - vm_compute. reflexivity.
  - repeat split; reflexivity.
Defined.

Lemma group_file_writers_witness :
  exists ev req,
    OnLlmRequest a_message a_request = OnLlmRequest ev req /\
    platform_name ev = aiocqhttp /\ group_id ev <> [].
Proof.
  apply (group_file_writers ascii_runtime no_files (OnLlmRequest a_message a_request)).
  vm_compute. discriminate.
Defined.

Lemma hook_group_record_witness :
  group_info_file (fst (on_llm_request_hook ascii_runtime a_message
                          (no_files, a_request)))
  = Content (json_dumps ascii_runtime (group_table a_message [] [] a_new_record)).
Proof.
  apply (hook_group_record ascii_runtime a_message no_files a_request
           [] [] a_new_record []);
    try reflexivity.
  intros H. vm_compute in H. discriminate H.
Defined.

Lemma private_chat_request_witness :
  (exists prompt,
     format_user_info_for_prompt ascii_runtime (now a_private_message)
       (VDict a_private_record) false = Ok prompt /\
     snd (on_llm_request_hook ascii_runtime a_private_message (no_files, a_request))
     = {| context :=
            Some (replace_nickname_in_context ascii_runtime
                    (VDict (table_with_sender ascii_runtime a_private_message []))
                    (VStr (u "[User ID: 123, Nickname: old]")));
          system_prompt :=
            VStr (u "当前对话用户信息: " ++ prompt ++ u "。请称呼用户为"
                    ++ py_str ascii_runtime
                         (get_or (u "nickname") (VStr (u "用户")) a_private_record)
                    ++ u "。"
                    ++ py_str ascii_runtime
                         (original_prompt ascii_runtime a_request)) |}) /\
  snd (on_llm_request_hook ascii_runtime a_private_message (no_files, a_bare_request))
  = a_bare_request.
Proof.
  split.
  - apply (proj1 (private_chat_request ascii_runtime) a_private_message no_files
             a_request [] a_private_record);
      vm_compute; reflexivity.
  - apply (proj2 (private_chat_request ascii_runtime) a_private_message
             (no_files, a_bare_request)).
    reflexivity.
Defined.

Lemma edited_nickname_reaches_request_witness :
  exists prompt,
    snd (on_llm_request_hook ascii_runtime a_private_message
           (snd (update_nickname ascii_runtime a_private_message (u "Neo") one_user),
            a_request))
    = {| context := Some (VStr (placeholder (sender_id a_private_message) (u "Neo")));
         system_prompt :=
           VStr (u "当前对话用户信息: " ++ prompt ++ u "。请称呼用户为" ++ u "Neo"
                   ++ u "。"
                   ++ py_str ascii_runtime (original_prompt ascii_runtime a_request)) |}.
Proof.
  apply (edited_nickname_reaches_request ascii_runtime a_private_message
           (u "Neo") (u "old") one_user a_request one_user_table one_user_record);
    try (vm_compute; reflexivity).
  - repeat split; try discriminate; reflexivity.
  - discriminate.
Defined.

Lemma replace_nickname_idempotent_witness :
  replace_nickname_in_context ascii_runtime (VDict a_nickname_table)
    (replace_nickname_in_context ascii_runtime (VDict a_nickname_table)
       (VStr (u "hi [User ID: 1, Nickname: a]!")))
  = replace_nickname_in_context ascii_runtime (VDict a_nickname_table)
      (VStr (u "hi [User ID: 1, Nickname: a]!")).
Proof.
  apply (replace_nickname_idempotent ascii_runtime a_nickname_table
           (u "hi [User ID: 1, Nickname: a]!")).
  - intros id v H. unfold a_nickname_table in H. cbn [dict_get] in H.
    destruct (str_eqb id (u "1")); [|discriminate H].
    injection H as <-. eexists. reflexivity.
  - intros id r v H Hn Ht. unfold a_nickname_table in H. cbn [dict_get] in H.
    destruct (str_eqb id (u "1")); [|discriminate H].
    injection H as <-. vm_compute in Hn. injection Hn as <-.
    split; [discriminate|reflexivity].
Defined.

Lemma older_hook_runs_once_witness :
  In (sender_id a_message)
     (fst (Old_variant.on_llm_request_hook ascii_runtime a_message []
             (no_files, a_request))).
Proof.
  apply (proj2 (older_hook_runs_once ascii_runtime a_message [] (no_files, a_request))
           []); reflexivity.
Defined.

Lemma group_table_round_trip_witness :
  load_group_info (save_group_info ascii_runtime a_table no_files) = a_table.
Proof.
  apply (group_table_round_trip ascii_runtime a_table no_files); reflexivity.
Defined.

Lemma group_member_is_listed_witness :
  (exists table entries,
     load_group_info (fst (on_llm_request_hook ascii_runtime a_message
                             (no_files, a_request))) = VDict table /\
     dict_get (group_id a_message) table = Some (VDict entries) /\
     dict_get (sender_id a_message) entries
     = Some (group_record a_message a_new_record)) /\
  load_group_info (fst (on_llm_request_hook ascii_runtime an_unencodable_message
                          (no_files, a_request)))
  = VDict [].
Proof.
  split.
  - apply (group_member_is_listed ascii_runtime a_message no_files a_request
             [] [] a_new_record []);
      try (vm_compute; reflexivity).
    intros H. vm_compute in H. discriminate H.
  - apply (group_member_is_listed ascii_runtime an_unencodable_message no_files
             a_request [] [] an_unencodable_record []);
      try (vm_compute; reflexivity).
    intros H. vm_compute in H. discriminate H.
Defined.

Lemma user_file_writes_witness :
  user_info_writes (step ascii_runtime no_files (OnLlmRequest a_message a_request))
  = S (user_info_writes no_files) /\
  user_info_file (step ascii_runtime no_files (OnLlmRequest a_message a_request))
  = Content (json_dumps ascii_runtime
               (VDict ([] ++ [(sender_id a_message,
                               VDict (get_qq_user_info ascii_runtime a_message
                                        (sender_id a_message) true))]))).
Proof.
  destruct (proj2 (user_file_writes ascii_runtime no_files) a_message a_request []
              eq_refl eq_refl eq_refl) as (Hwrites & _ & Hfile).
  split; [exact Hwrites|]. apply Hfile. vm_compute. reflexivity.
Defined.

Lemma other_records_are_kept_witness :
  record_of (u "456")
    (step ascii_runtime two_users (UpdateNickname a_message (u "Neo")))
  = record_of (u "456") two_users.
Proof.
  destruct (other_records_are_kept ascii_runtime two_users
              (UpdateNickname a_message (u "Neo")) (u "456"))
    as [H|[_ [H|H]]].
  - apply ascii_floats_readable.
  - vm_compute. reflexivity.
  - intros H. vm_compute in H. discriminate H.
  - exact H.
  - vm_compute in H. discriminate H.
  - vm_compute in H. discriminate H.
Defined.

Lemma ids_after_an_operation_witness :
  user_ids (step ascii_runtime one_user (OnLlmRequest another_message a_request))
  = user_ids one_user ++ [u "456"].
Proof.
  destruct (ids_after_an_operation ascii_runtime one_user
              (OnLlmRequest another_message a_request) ascii_floats_readable)
    as [H|[(ev & req & Ho & _ & _ & H)|[_ [H|H]]]].
  - vm_compute in H. discriminate H.
  - injection Ho as <- _. exact H.
  - vm_compute in H. discriminate H.
  - vm_compute in H. discriminate H.
Defined.

Lemma replace_with_other_objects_witness :
  replace_nickname_in_context ascii_runtime a_table (VList [VInt 1]) = VList [VInt 1] /\
  replace_nickname_in_context ascii_runtime (VList [VStr (u "1")])
    (VStr (u "[User ID: 1, Nickname: a]"))
  = VStr (u "[User ID: 1, Nickname: a]").
Proof.
  destruct (replace_with_other_objects ascii_runtime) as [Htext Htable].
  split.
  - apply Htext. discriminate.
  - apply Htable. intros d H. discriminate H.
Defined.

Lemma successful_lookup_witness :
  get_qq_user_info ascii_runtime a_message (u "123") true
  = base_record a_message (u "123") true
      ++ [(u "gender", VStr (u "女")); (u "birthday", VStr (u "2000-1-1"))]
      ++ [(u "group_role",
           get_or (u "role") (VStr (u "member"))
             [(u "role", VStr (u "admin")); (u "title", VStr [])]);
          (u "group_title",
           if truthy ascii_runtime
                (get_or (u "title") (VStr [])
                   [(u "role", VStr (u "admin")); (u "title", VStr [])])
           then get_or (u "title") (VStr [])
                  [(u "role", VStr (u "admin")); (u "title", VStr [])]
           else VStr no_title)].
Proof.
  apply (successful_lookup ascii_runtime a_message (u "123")
           [(u "sex", VStr (u "female")); (u "birthday_year", VInt 2000);
            (u "birthday_month", VInt 1); (u "birthday_day", VInt 1)]
           [(u "role", VStr (u "admin")); (u "title", VStr [])]
           123 77 (u "2000-1-1") (u "女"));
    try reflexivity.
  discriminate.
Defined.
